(** * SessionsPage: the view-model logic of the sessions table

    A shallow embedding of [src/components/SessionsPage/SessionsPage.tsx]:
    the derived metrics ([minutesBetween], [paceMinPerKm], [fmtPace]), the
    nearest-observation search ([pickClosest]), the enrichment of the
    fetched sessions ([enriched]), the date filter ([filtered]), the column
    switches ([toggleCol]) and the weather cache filled by [onRowClick]. *)


From Stdlib Require Import ZArith QArith Qround Qabs Qpower Lqa String Ascii List Bool Lia DecimalString.
From stdpp Require Import gmap strings.
Import ListNotations.

Local Open Scope Q_scope.
Local Open Scope string_scope.

(** ** JavaScript numbers

    A number is NaN, one of the two infinities, or a finite value. A finite
    value is a rational. The values of the binary64 format are the
    rationals [m * 2^e] with [|m| < 2^53] and [-1074 <= e] below [2^1024];
    every arithmetic operation rounds its exact result to the nearest of
    them, a tie going to the even significand, and to an infinity from
    [2^1024 - 2^970] on, as IEEE 754 has it. The model has one zero. *)

Inductive number : Type :=
  | NaN
  | NegInfinity
  | Fin (q : Q)
  | Infinity.

Module JS.

(** [ToBoolean] on a number: [0] and [NaN] are the falsy ones. *)
Definition truthy (x : number) : bool :=
  match x with
  | NaN => false
  | Fin q => negb (Qeq_bool q 0)
  | NegInfinity | Infinity => true
  end.

(** [ToNumber] on an optional number: [undefined] becomes [NaN]. *)
Definition toNumber (o : option number) : number :=
  match o with
  | Some x => x
  | None => NaN
  end.

(** [!x] on an optional number. *)
Definition falsy (o : option number) : bool :=
  match o with
  | Some x => negb (truthy x)
  | None => true
  end.

(** [x < y]; every comparison with [NaN] is false. *)
Definition lt (x y : number) : bool :=
  match x, y with
  | NaN, _ | _, NaN => false
  | Fin a, Fin b => negb (Qle_bool b a)
  | NegInfinity, NegInfinity => false
  | NegInfinity, _ => true
  | Fin _, Infinity => true
  | _, _ => false
  end.

(** [x <= y]. *)
Definition le (x y : number) : bool :=
  match x, y with
  | NaN, _ | _, NaN => false
  | Fin a, Fin b => Qle_bool a b
  | NegInfinity, _ => true
  | _, Infinity => true
  | _, _ => false
  end.

(** [x >= y]. *)
Definition ge (x y : number) : bool := le y x.

(** [-x]. *)
Definition neg (x : number) : number :=
  match x with
  | NaN => NaN
  | NegInfinity => Infinity
  | Fin q => Fin (- q)
  | Infinity => NegInfinity
  end.

(** *** Rounding to binary64 *)

Definition pow2 (k : Z) : Q := 2 ^ k.

(** The binary exponent of a rational above zero:
    [2^(ilog2 a) <= a < 2^(ilog2 a + 1)]. *)
Definition ilog2 (a : Q) : Z :=
  let k0 := (Z.log2 (Qnum a) - Z.log2 (Zpos (Qden a)))%Z in
  if Qle_bool (pow2 k0) a then k0 else (k0 - 1)%Z.

(** The integer nearest to [s], the even one of two nearest. *)
Definition nearest_even (s : Q) : Z :=
  let f := Qfloor s in
  match Qcompare (s - inject_Z f) (1 # 2) with
  | Lt => f
  | Gt => (f + 1)%Z
  | Eq => if Z.even f then f else (f + 1)%Z
  end.

(** The exponent of the last place of the binary64 values around [a]: 53
    significant bits, and never below the subnormal exponent. *)
Definition exponent (a : Q) : Z := Z.max (ilog2 a - 52) (-1074).

(** The multiple of [2^(exponent a)] nearest to [a], for [a] above zero. *)
Definition nearest64 (a : Q) : Q :=
  inject_Z (nearest_even (a / pow2 (exponent a))) * pow2 (exponent a).

Definition round_pos (a : Q) : number :=
  let v := nearest64 a in
  if Qle_bool (pow2 1024) v then Infinity else Fin (Qred v).

(** The binary64 value of a real result, here a rational. *)
Definition round64 (x : Q) : number :=
  let x := Qred x in
  match Qcompare x 0 with
  | Eq => Fin 0
  | Gt => round_pos x
  | Lt => neg (round_pos (- x))
  end.

(** [q] is a value of the binary64 format. *)
Definition binary64 (q : Q) : Prop := exists v : Q, round64 q = Fin v /\ v == q.

(** The value of a decimal literal of the program text. *)
Definition literal (q : Q) : number := round64 q.

(** *** Arithmetic *)

(** [x + y]. *)
Definition add (x y : number) : number :=
  match x, y with
  | NaN, _ | _, NaN => NaN
  | Fin a, Fin b => round64 (a + b)
  | Infinity, NegInfinity | NegInfinity, Infinity => NaN
  | Infinity, _ | _, Infinity => Infinity
  | NegInfinity, _ | _, NegInfinity => NegInfinity
  end.

(** [x - y]. *)
Definition sub (x y : number) : number := add x (neg y).

(** The sign of a number that is not [NaN]: [true] when it is below zero. *)
Definition negative (x : number) : bool := lt x (Fin 0).

(** The infinity of the given sign. *)
Definition inf (below : bool) : number :=
  if below then NegInfinity else Infinity.

(** [x * y]. *)
Definition mul (x y : number) : number :=
  match x, y with
  | NaN, _ | _, NaN => NaN
  | Fin a, Fin b => round64 (a * b)
  | _, _ =>
      if negb (truthy x) || negb (truthy y) then NaN
      else inf (xorb (negative x) (negative y))
  end.

(** [x / y]. The single zero of the model divides as [+0] does. *)
Definition div (x y : number) : number :=
  match x, y with
  | NaN, _ | _, NaN => NaN
  | Fin a, Fin b =>
      if Qeq_bool b 0
      then (if Qeq_bool a 0 then NaN else inf (negative x))
      else round64 (a / b)
  | Fin _, _ => Fin 0
  | _, Fin _ => inf (xorb (negative x) (negative y))
  | _, _ => NaN
  end.

(** [Math.max(x, y)]. *)
Definition Math_max (x y : number) : number :=
  match x, y with
  | NaN, _ | _, NaN => NaN
  | _, _ => if lt x y then y else x
  end.

(** [Math.abs(x)]. *)
Definition Math_abs (x : number) : number :=
  match x with
  | NaN => NaN
  | Fin q => Fin (Qabs q)
  | NegInfinity | Infinity => Infinity
  end.

(** [Math.floor(x)]. The floor of a binary64 value is one: no rounding. *)
Definition Math_floor (x : number) : number :=
  match x with
  | Fin q => Fin (inject_Z (Qfloor q))
  | _ => x
  end.

(** [Math.round(x)]: the nearest integer, a half going up; it is a
    binary64 value when [x] is. *)
Definition Math_round (x : number) : number :=
  match x with
  | Fin q => Fin (inject_Z (Qfloor (q + (1 # 2))))
  | _ => x
  end.

(** *** Text *)

(** [pad.repeat(n)]. *)
Fixpoint repeat (pad : string) (n : nat) : string :=
  match n with
  | O => ""
  | S k => pad ++ repeat pad k
  end.

(** [s.padStart(targetLength, pad)]: the padding is repeated and cut to fill
    the missing length; nothing happens when [s] is long enough or [pad] is
    empty. *)
Definition padStart (s : string) (targetLength : nat) (pad : string) : string :=
  let len := String.length s in
  if (targetLength <=? len)%nat || (String.length pad =? 0)%nat then s
  else
    let fill := (targetLength - len)%nat in
    substring 0 fill (repeat pad fill) ++ s.

(** Decimal digits of an integer, with a minus sign below zero. *)
Definition digits (z : Z) : string := NilZero.string_of_int (Z.to_int z).

Definition pow10 (k : Z) : Q := 10 ^ k.

(** The decimal exponent of a rational above zero:
    [10^(ilog10 a - 1) <= a < 10^(ilog10 a)]. *)
Definition ilog10 (a : Q) : Z :=
  let count z := Z.of_nat (String.length (digits z)) in
  let n0 := (count (Qnum a) - count (Zpos (Qden a)))%Z in
  if Qle_bool (pow10 n0) a then (n0 + 1)%Z else n0.

(** [v] is read back as the binary64 value [x]. *)
Definition reads_back (x v : Q) : bool :=
  match round64 v with
  | Fin w => Qeq_bool w x
  | _ => false
  end.

(** The integer [s] of [k] digits, [10^k] included, for which
    [s * 10^(n - k)] is read back as [x]: the one nearest to [x] when there
    are several, the even one of two nearest. Only the two multiples of
    [10^(n - k)] around [x] can be. *)
Definition digits_at (x : Q) (n k : Z) : option Z :=
  let scale := pow10 (n - k) in
  let lo := Qfloor (x / scale) in
  let hi := (lo + 1)%Z in
  match reads_back x (inject_Z lo * scale), reads_back x (inject_Z hi * scale) with
  | false, false => None
  | true, false => Some lo
  | false, true => Some hi
  | true, true =>
      match Qcompare (x - inject_Z lo * scale) (inject_Z hi * scale - x) with
      | Lt => Some lo
      | Gt => Some hi
      | Eq => Some (if Z.even lo then lo else hi)
      end
  end.

(** The least number of digits [k], from [k] on, that tell [x] from the
    other binary64 values, with the digits [s]. Seventeen digits do for
    every value. *)
Fixpoint shortest (x : Q) (n k : Z) (tries : nat) : Z * Z :=
  match tries with
  | O => (Qfloor (x / pow10 (n - k)), k)
  | S tries' =>
      match digits_at x n k with
      | Some s => (s, k)
      | None => shortest x n (k + 1) tries'
      end
  end.

(** The text of [s * 10^(n - k)], where [s] has [k] digits: plain digits
    up to [10^21], a fraction down to [10^-6], exponent notation
    elsewhere. *)
Definition decimal (s k n : Z) : string :=
  let ds := digits s in
  if (k <=? n)%Z && (n <=? 21)%Z then ds ++ repeat "0" (Z.to_nat (n - k))
  else if (0 <? n)%Z && (n <=? 21)%Z then
    substring 0 (Z.to_nat n) ds ++ "." ++ substring (Z.to_nat n) (Z.to_nat (k - n)) ds
  else if (-6 <? n)%Z && (n <=? 0)%Z then
    "0." ++ repeat "0" (Z.to_nat (- n)) ++ ds
  else
    let e := (n - 1)%Z in
    let mantissa :=
      if (k =? 1)%Z then ds
      else substring 0 1 ds ++ "." ++ substring 1 (Z.to_nat (k - 1)) ds in
    mantissa ++ "e" ++ (if (e <? 0)%Z then "-" else "+") ++ digits (Z.abs e).

(** [Number::toString] of a binary64 value above zero. *)
Definition toString_pos (x : Q) : string :=
  let n := ilog10 x in
  let '(s, k) := shortest x n 1 17 in
  if Qeq_bool (inject_Z s) (pow10 k) then decimal (s / 10) k (n + 1)
  else decimal s k n.

(** [x.toString()] and the [${x}] of a template: the shortest decimal text
    that is read back as [x]. A rational that is not a binary64 value
    prints as the one nearest to it. *)
Definition toString (x : number) : string :=
  match x with
  | NaN => "NaN"
  | NegInfinity => "-Infinity"
  | Infinity => "Infinity"
  | Fin q =>
      match round64 q with
      | Fin v =>
          match Qcompare v 0 with
          | Eq => "0"
          | Gt => toString_pos v
          | Lt => "-" ++ toString_pos (- v)
          end
      | NaN => "NaN"
      | NegInfinity => "-Infinity"
      | Infinity => "Infinity"
      end
  end.

End JS.

(** ** Dates

    [new Date(iso).getTime()] is the platform's: milliseconds since the
    epoch, or [NaN] when the text is not a date. The program is modelled
    over any such reading of date strings. *)

Class DateParser : Type := getTime : string -> number.

(** ** Derived metrics *)

Section Metrics.

Context {date : DateParser}.

Definition minutesBetween (aISO bISO : string) : number :=
  let a := getTime aISO in
  let b := getTime bISO in
  JS.Math_max (Fin 0) (JS.div (JS.sub b a) (Fin 60000)).

Definition paceMinPerKm (distanceKm minutes : option number) : option number :=
  if JS.falsy distanceKm || JS.le (JS.toNumber distanceKm) (Fin 0)
     || JS.falsy minutes || JS.le (JS.toNumber minutes) (Fin 0)
  then None
  else Some (JS.div (JS.toNumber minutes) (JS.toNumber distanceKm)).

Definition fmtPace (minPerKm : option number) : string :=
  if JS.falsy minPerKm then "—"
  else
    let m := JS.Math_floor (JS.toNumber minPerKm) in
    let s := JS.Math_round (JS.mul (JS.sub (JS.toNumber minPerKm) m) (Fin 60)) in
    JS.toString m ++ ":" ++ JS.padStart (JS.toString s) 2 "0" ++ "/km".

End Metrics.

(** ** Records

    An optional field that is [undefined] or [null] is [None]. *)

(** Modelled from the spec: the declaration of [Session] in
    [types/session], which the page imports and the sources do not hold.
    The fields are the ones the specification lists as consumed, under the
    names the page reads them by. *)
Record Session : Type := {
  id : Z;
  start_time : string;
  end_time : string;
  sport : option string;
  distance_km : option number;
  calories : option number;
  avg_hr : option number;
  steps : option number;
  spo2_pct : option number;
  lat : option number;
  lon : option number
}.

(** Modelled from the spec: the declaration of [WeatherObservation] in
    [types/session], likewise. *)
Record WeatherObservation : Type := {
  timestamp : string;
  temperature_c : option number;
  humidity_pct : option number;
  wind_speed_ms : option number;
  precipitation_mm : option number
}.

(** [UISession = Session & { ... }]: the session's own fields and the
    optional fields the page adds. *)
Record UISession : Type := {
  session : Session;
  coach : option string;
  training_type : option string;
  vo2max : option number;
  duration_minutes : option number;
  pace_min_per_km : option number
}.

(** [{ ...s, spo2_pct: v }]. *)
Definition with_spo2_pct (s : Session) (v : option number) : Session :=
  {| id := id s; start_time := start_time s; end_time := end_time s;
     sport := sport s; distance_km := distance_km s; calories := calories s;
     avg_hr := avg_hr s; steps := steps s; spo2_pct := v;
     lat := lat s; lon := lon s |}.

(** ** Temporal matcher *)

Section Matcher.

Context {date : DateParser}.

(** One turn of the [for ... of] loop of [pickClosest] on the pair
    [(best, bestDiff)]. *)
Definition pickClosest_step (target : number)
    (acc : WeatherObservation * number) (o : WeatherObservation)
    : WeatherObservation * number :=
  let '(best, bestDiff) := acc in
  let diff := JS.Math_abs (JS.sub (getTime (timestamp o)) target) in
  if JS.lt diff bestDiff then (o, diff) else (best, bestDiff).

Definition pickClosest (observations : list WeatherObservation) (isoTime : string)
    : option WeatherObservation :=
  match observations with
  | [] => None
  | first :: _ =>
      let target := getTime isoTime in
      let best := first in
      let bestDiff := JS.Math_abs (JS.sub (getTime (timestamp best)) target) in
      Some (fst (fold_left (pickClosest_step target) observations (best, bestDiff)))
  end.

End Matcher.

(** ** Randomness

    [Math.random()] is the only effect of the enrichment. A computation
    reads the values the platform hands out, in order, and counts how many
    it has taken. *)

Record Random : Type := {
  outcomes : nat -> number;
  drawn : nat
}.

Definition Eff (A : Type) : Type := Random -> A * Random.

Definition ret {A : Type} (a : A) : Eff A := fun g => (a, g).

Definition bind {A B : Type} (c : Eff A) (k : A -> Eff B) : Eff B :=
  fun g => let '(a, g') := c g in k a g'.

Notation "'let*' x ':=' c 'in' k" := (bind c (fun x => k))
  (at level 10, x name, c at level 100, k at level 200).

Definition Math_random : Eff number :=
  fun g => (outcomes g (drawn g), {| outcomes := outcomes g; drawn := S (drawn g) |}).

(** [xs.map((x, idx) => f(x, idx))] from index [idx] on: the callback runs
    on the elements in order. *)
Fixpoint Array_map_from {A B : Type} (f : A -> nat -> Eff B) (idx : nat) (xs : list A)
    : Eff (list B) :=
  match xs with
  | [] => ret []
  | x :: rest =>
      let* y := f x idx in
      let* ys := Array_map_from f (S idx) rest in
      ret (y :: ys)
  end.

Definition Array_map {A B : Type} (f : A -> nat -> Eff B) (xs : list A) : Eff (list B) :=
  Array_map_from f 0 xs.

(** ** Enrichment *)

Definition coaches : list string :=
  ["Sarah Eastern"; "John Mitchell"; "Linda Carter"].

Definition trainings : list string :=
  ["Strength"; "Cardio"; "Flexibility"; "Team Practice"; "Tempo"; "Intervals"].

(** [table[idx % table.length]]. On an empty table JavaScript computes the
    index [NaN] and reads [undefined]; [idx mod 0] is [idx] here and the
    lookup is [None] as well. *)
Definition cyclic (table : list string) (idx : nat) : option string :=
  nth_error table (idx mod List.length table).

Section Enrichment.

Context {date : DateParser}.

(** [s.spo2_pct ?? Math.floor(94 + Math.random() * 6)]: the right operand
    runs only when the left one is [null] or [undefined]. *)
Definition spo2_or_dummy (s : Session) : Eff number :=
  match spo2_pct s with
  | Some v => ret v
  | None =>
      let* r := Math_random in
      ret (JS.Math_floor (JS.add (Fin 94) (JS.mul r (Fin 6))))
  end.

(** The callback of [data.map] with the two label tables it closes over. *)
Definition enrich (coachTable trainingTable : list string) (s : Session) (idx : nat)
    : Eff UISession :=
  let duration := minutesBetween (start_time s) (end_time s) in
  let pace := paceMinPerKm (distance_km s) (Some duration) in
  let* spo2 := spo2_or_dummy s in
  let* r := Math_random in
  ret {| session := with_spo2_pct s (Some spo2);
         coach := cyclic coachTable idx;
         training_type := cyclic trainingTable idx;
         vo2max := Some (JS.Math_floor (JS.add (Fin 45) (JS.mul r (Fin 20))));
         duration_minutes := Some duration;
         pace_min_per_km := pace |}.

Definition enrichedWith (coachTable trainingTable : list string) (data : list Session)
    : Eff (list UISession) :=
  Array_map (enrich coachTable trainingTable) data.

Definition enriched (data : list Session) : Eff (list UISession) :=
  enrichedWith coaches trainings data.

End Enrichment.

(** ** Date filter *)

Section Filter.

Context {date : DateParser}.

(** [!s] on a string: only the empty string is falsy. *)
Definition emptyString (s : string) : bool := String.eqb s "".

Definition filtered (rows : list UISession) (fromDate toDate : string) : list UISession :=
  if emptyString fromDate && emptyString toDate then rows
  else
    let from := if emptyString fromDate then NegInfinity else getTime fromDate in
    let to := if emptyString toDate then Infinity else getTime toDate in
    List.filter
      (fun r =>
         let t := getTime (start_time (session r)) in
         JS.ge t from && JS.le t to)
      rows.

End Filter.

(** ** Column visibility *)

Inductive ColumnKey : Type :=
  | col_id | col_start | col_end | col_duration | col_pace
  | col_sport | col_distance | col_calories | col_avg_hr | col_steps
  | col_spo2 | col_vo2max | col_coach | col_training | col_weather.

#[global] Instance ColumnKey_eq_dec : EqDecision ColumnKey.
Proof. solve_decision. Defined.

(** [Record<ColumnKey, boolean>]: one boolean for each of the keys. *)
Definition Visibility : Type := ColumnKey -> bool.

Definition defaultVisible : Visibility :=
  fun k =>
    match k with
    | col_id => true
    | col_start => true
    | col_end => false
    | col_duration => true
    | col_pace => false
    | col_sport => true
    | col_distance => true
    | col_calories => false
    | col_avg_hr => false
    | col_steps => false
    | col_spo2 => true
    | col_vo2max => false
    | col_coach => false
    | col_training => false
    | col_weather => true
    end.

(** [{ ...v, [k]: b }]. *)
Definition spread_with (v : Visibility) (k : ColumnKey) (b : bool) : Visibility :=
  fun k' => if decide (k' = k) then b else v k'.

(** ** The state of the page *)

Record State : Type := {
  rows : list UISession;
  loading : bool;
  error : option string;
  selected : option UISession;
  weatherById : gmap Z (list WeatherObservation);
  visibleCols : Visibility;
  fromDate : string;
  toDate : string;
  (** what [console.error] has written *)
  console : list (string * string)
}.

Definition initial : State :=
  {| rows := []; loading := true; error := None; selected := None;
     weatherById := ∅; visibleCols := defaultVisible;
     fromDate := ""; toDate := ""; console := [] |}.

Definition setSelected (s : option UISession) (st : State) : State :=
  {| rows := rows st; loading := loading st; error := error st;
     selected := s;
     weatherById := weatherById st; visibleCols := visibleCols st;
     fromDate := fromDate st; toDate := toDate st; console := console st |}.

Definition setWeatherById
    (f : gmap Z (list WeatherObservation) -> gmap Z (list WeatherObservation))
    (st : State) : State :=
  {| rows := rows st; loading := loading st; error := error st;
     selected := selected st;
     weatherById := f (weatherById st); visibleCols := visibleCols st;
     fromDate := fromDate st; toDate := toDate st; console := console st |}.

Definition setVisibleCols (f : Visibility -> Visibility) (st : State) : State :=
  {| rows := rows st; loading := loading st; error := error st;
     selected := selected st;
     weatherById := weatherById st; visibleCols := f (visibleCols st);
     fromDate := fromDate st; toDate := toDate st; console := console st |}.

Definition console_error (msg e : string) (st : State) : State :=
  {| rows := rows st; loading := loading st; error := error st;
     selected := selected st;
     weatherById := weatherById st; visibleCols := visibleCols st;
     fromDate := fromDate st; toDate := toDate st;
     console := (console st ++ [(msg, e)])%list |}.

Definition toggleCol (k : ColumnKey) (st : State) : State :=
  setVisibleCols (fun v => spread_with v k (negb (v k))) st.

(** ** Row selection and the weather cache

    How the promise of [getSessionWeather] settles. *)
Inductive Fetch : Type :=
  | Fulfilled (wx : list WeatherObservation)
  | Rejected (e : string).

(** An [async] function of the page after its synchronous part: finished,
    or suspended at an [await] on the weather of [request]. [resume] is the
    rest of the function; it runs on the state the page has when the promise
    settles. *)
Inductive Async : Type :=
  | Done (st : State)
  | Await (st : State) (request : Z) (resume : Fetch -> State -> State).

Definition onRowClick (s : UISession) (st : State) : Async :=
  let st' := setSelected (Some s) st in
  match weatherById st !! id (session s) with
  | Some _ => Done st'
  | None =>
      Await st' (id (session s))
        (fun outcome now =>
           match outcome with
           | Fulfilled wx =>
               setWeatherById (fun prev => <[id (session s) := wx]> prev) now
           | Rejected e => console_error "weather fetch failed" e now
           end)
  end.

(** The ids a call asks [getSessionWeather] for. *)
Definition requested (a : Async) : list Z :=
  match a with
  | Done _ => []
  | Await _ request _ => [request]
  end.

(** Runs a call to its end when nothing else happens while it is suspended:
    [api] tells how the fetch of each id settles. *)
Definition settle (api : Z -> Fetch) (a : Async) : State :=
  match a with
  | Done st => st
  | Await st request resume => resume (api request) st
  end.

(** Clicks on the rows [clicked] one after the other, each call running to
    its end before the next click; the ids asked for are collected. *)
Fixpoint clicks (api : Z -> Fetch) (clicked : list UISession) (st : State)
    : State * list Z :=
  match clicked with
  | [] => (st, [])
  | s :: rest =>
      let a := onRowClick s st in
      let '(st', asked) := clicks api rest (settle api a) in
      (st', (requested a ++ asked)%list)
  end.

(** ** A reading of date strings

    The date-time string format of ECMAScript in Universal Time:
    [YYYY-MM-DD], [YYYY-MM-DDTHH:mmZ], [YYYY-MM-DDTHH:mm:ssZ] and
    [YYYY-MM-DDTHH:mm:ss.sssZ], where the year is four digits or a sign and
    six digits. It is the instance the definitions are evaluated with on
    concrete sessions; the text it does not read is given [NaN], and so is
    a time more than 8.64e15 milliseconds from the epoch. *)

Module Iso.

Local Open Scope Z_scope.

Definition digit (c : ascii) : option Z :=
  let n := Z.of_nat (nat_of_ascii c) in
  if (48 <=? n) && (n <=? 57) then Some (n - 48) else None.

(** Reads exactly [n] decimal digits. *)
Fixpoint field (n : nat) (acc : Z) (cs : list ascii) : option (Z * list ascii) :=
  match n, cs with
  | O, _ => Some (acc, cs)
  | S k, c :: rest =>
      match digit c with
      | Some d => field k (10 * acc + d) rest
      | None => None
      end
  | S _, [] => None
  end.

Definition expect (c : ascii) (cs : list ascii) : option (list ascii) :=
  match cs with
  | c' :: rest => if Ascii.eqb c c' then Some rest else None
  | [] => None
  end.

Definition leap (y : Z) : bool :=
  (y mod 4 =? 0) && (negb (y mod 100 =? 0) || (y mod 400 =? 0)).

Definition daysInMonth (y m : Z) : Z :=
  if m =? 2 then (if leap y then 29 else 28)
  else if (m =? 4) || (m =? 6) || (m =? 9) || (m =? 11) then 30
  else 31.

(** Days from 1970-01-01 to the given day of the proleptic Gregorian
    calendar. *)
Definition dayNumber (y m d : Z) : Z :=
  let y' := if m <=? 2 then y - 1 else y in
  let era := y' / 400 in
  let yoe := y' - era * 400 in
  let mp := (m + 9) mod 12 in
  let doy := (153 * mp + 2) / 5 + d - 1 in
  let doe := yoe * 365 + yoe / 4 - yoe / 100 + doy in
  era * 146097 + doe - 719468.

(** The year: four digits, or a sign and six digits other than
    [-000000]. *)
Definition year (cs : list ascii) : option (Z * list ascii) :=
  match cs with
  | "+"%char :: rest => field 6 0 rest
  | "-"%char :: rest =>
      '(y, rest) ← field 6 0 rest;
      if y =? 0 then None else Some (- y, rest)
  | _ => field 4 0 cs
  end.

Definition date (cs : list ascii) : option (Z * list ascii) :=
  '(y, cs) ← year cs;
  cs ← expect "-" cs;
  '(m, cs) ← field 2 0 cs;
  cs ← expect "-" cs;
  '(d, cs) ← field 2 0 cs;
  if (1 <=? m) && (m <=? 12) && (1 <=? d) && (d <=? daysInMonth y m)
  then Some (dayNumber y m d, cs)
  else None.

(** The fraction of a second, when there is one. *)
Definition millis (cs : list ascii) : option (Z * list ascii) :=
  match expect "." cs with
  | Some cs => field 3 0 cs
  | None => Some (0, cs)
  end.

(** The seconds and their fraction, when there are any. *)
Definition seconds (cs : list ascii) : option (Z * Z * list ascii) :=
  match expect ":" cs with
  | Some cs =>
      '(s, cs) ← field 2 0 cs;
      '(ms, cs) ← millis cs;
      Some (s, ms, cs)
  | None => Some (0, 0, cs)
  end.

Definition time (cs : list ascii) : option Z :=
  '(h, cs) ← field 2 0 cs;
  cs ← expect ":" cs;
  '(mi, cs) ← field 2 0 cs;
  '(s, ms, cs) ← seconds cs;
  cs ← expect "Z" cs;
  match cs with
  | [] =>
      if ((h <=? 23) && (mi <=? 59) && (s <=? 59))
         || ((h =? 24) && (mi =? 0) && (s =? 0) && (ms =? 0))
      then Some (h * 3600000 + mi * 60000 + s * 1000 + ms)
      else None
  | _ :: _ => None
  end.

Definition parse (iso : string) : option Z :=
  '(day, cs) ← date (list_ascii_of_string iso);
  match cs with
  | [] => Some (day * 86400000)
  | _ :: _ =>
      cs ← expect "T" cs;
      t ← time cs;
      Some (day * 86400000 + t)
  end.

End Iso.

(** [TimeClip]: the greatest time value. *)
Definition maxTime : Z := 8640000000000000.

Definition isoDate : DateParser :=
  fun iso =>
    match Iso.parse iso with
    | Some ms => if (Z.abs ms <=? maxTime)%Z then Fin (inject_Z ms) else NaN
    | None => NaN
    end.

(** ** Vocabulary of the statements *)

(** A number that is a finite value: the time of a valid date, a real
    distance or pace. *)
Definition finite (x : number) : Prop := exists q : Q, x = Fin q.

(** [x > 0] on numbers. *)
Definition positive (x : number) : Prop := JS.lt (Fin 0) x = true.

(** The time between an observation and the target, as [pickClosest]
    computes it. *)
Definition distance {date : DateParser} (isoTime : string) (o : WeatherObservation)
    : number :=
  JS.Math_abs (JS.sub (getTime (timestamp o)) (getTime isoTime)).

(** The instant a number stands for. *)
Definition instant (x : number) : Q :=
  match x with
  | Fin q => q
  | _ => 0
  end.

(** The whole milliseconds of a time value, 0 for what is not a time. *)
Definition milliseconds (x : number) : Z := Qfloor (instant x).

(** The two characters of a count of seconds below one hundred. *)
Definition two_digits (s : Z) : string :=
  String (ascii_of_nat (48 + Z.to_nat (s / 10)))
    (String (ascii_of_nat (48 + Z.to_nat (s mod 10))) "").

(** The seconds of a finite pace before [fmtPace] rounds them to an
    integer: its fraction of a minute times sixty, in binary64. *)
Definition seconds_of (q : Q) : number :=
  JS.mul (JS.sub (Fin q) (JS.Math_floor (Fin q))) (Fin 60).

(** A time value [z]: a whole number of milliseconds, at most [maxTime]
    from the epoch. *)
Definition timeValue (x : number) (z : Z) : Prop :=
  x = Fin (inject_Z z) /\ (Z.abs z <= maxTime)%Z.

(** [kept P l l']: [l'] is the subsequence of [l] made of its elements
    that satisfy [P], in the order of [l]. *)
Inductive kept {A : Type} (P : A -> Prop) : list A -> list A -> Prop :=
  | kept_nil : kept P [] []
  | kept_take (x : A) (l l' : list A) :
      P x -> kept P l l' -> kept P (x :: l) (x :: l')
  | kept_skip (x : A) (l l' : list A) :
      ~ P x -> kept P l l' -> kept P (x :: l) l'.

(** A date range as the specification has it: each bound is an instant or
    is absent, and an absent bound does not constrain. *)
Definition inRange (lower upper : option Q) (t : Q) : Prop :=
  match lower with Some l => l <= t | None => True end /\
  match upper with Some u => t <= u | None => True end.

(** The bound a date input stands for: none for the empty text, otherwise
    the instant the text reads as. *)
Definition reads {date : DateParser} (text : string) (bound : option Q) : Prop :=
  match bound with
  | None => text = ""
  | Some q => text <> "" /\ getTime text = Fin q
  end.


(** ** Sample data *)

Definition observation_at (iso : string) : WeatherObservation :=
  {| timestamp := iso; temperature_c := None; humidity_pct := None;
     wind_speed_ms := None; precipitation_mm := None |}.

Definition obs0 : WeatherObservation := observation_at "1970-01-01T00:00:00.000Z".
Definition obs5 : WeatherObservation := observation_at "1970-01-01T00:00:00.005Z".
Definition obs10 : WeatherObservation := observation_at "1970-01-01T00:00:00.010Z".

Definition session_of (n : Z) (start stop : string) (km spo2 : option number) : Session :=
  {| id := n; start_time := start; end_time := stop; sport := None;
     distance_km := km; calories := None; avg_hr := None; steps := None;
     spo2_pct := spo2; lat := None; lon := None |}.

(** A run of ten kilometres in an hour, a session without distance and with
    a blood-oxygen reading of zero, and three more. *)
Definition run1 : Session :=
  session_of 1 "2024-03-01T00:00:00Z" "2024-03-01T01:00:00Z" (Some (Fin 10)) None.
Definition rest2 : Session :=
  session_of 2 "2024-03-05T00:00:00Z" "2024-03-05T00:45:00Z" (Some (Fin 0)) (Some (Fin 0)).
Definition run3 : Session :=
  session_of 3 "2024-03-10T00:00:00Z" "2024-03-10T00:30:00Z" (Some (Fin 5)) (Some (Fin 97)).
Definition run4 : Session :=
  session_of 4 "2024-03-12T18:00:00Z" "2024-03-12T18:20:00Z" None None.
Definition run5 : Session :=
  session_of 5 "2024-03-14T07:15:00Z" "2024-03-14T08:00:00Z" (Some (Fin 9)) None.

Definition five : list Session := [run1; rest2; run3; run4; run5].

(** A platform whose [Math.random()] goes through 0, 0.1, ..., 0.9. *)
Definition tenths : Random :=
  {| outcomes := fun k => JS.literal (Z.of_nat (k mod 10) # 10); drawn := 0 |}.

Definition row_of (s : Session) : UISession :=
  {| session := s; coach := None; training_type := None; vo2max := None;
     duration_minutes := None; pace_min_per_km := None |}.

Definition march : list UISession := [row_of run1; row_of rest2; row_of run3].

(** * The rest of the page *)

(** ** Text of numbers with fixed decimals *)

(** [x.toFixed(fractionDigits)]: the sign, then the integer nearest to
    [|x| * 10^fractionDigits] (the larger of two nearest) with a point
    before its last [fractionDigits] digits, zeros added in front when it
    is too short. A value that is not finite, or is 10^21 or more, prints
    as [toString] does. *)
Definition toFixed (x : number) (fractionDigits : nat) : string :=
  match x with
  | Fin q =>
      let s := if JS.negative x then "-" else "" in
      let a := Qabs q in
      if Qle_bool (inject_Z (10 ^ 21)) a then s ++ JS.toString (Fin a)
      else
        let n := Qfloor (a * inject_Z (10 ^ Z.of_nat fractionDigits) + (1 # 2)) in
        let m := JS.digits n in
        if (fractionDigits =? 0)%nat then s ++ m
        else
          let m :=
            if (String.length m <=? fractionDigits)%nat
            then JS.repeat "0" (fractionDigits + 1 - String.length m) ++ m
            else m in
          let k := String.length m in
          s ++ substring 0 (k - fractionDigits) m ++ "."
            ++ substring (k - fractionDigits) fractionDigits m
  | _ => JS.toString x
  end.

(** ** What the page draws

    A child of an element is a string or a number; the elements the
    functions below build are a bare child, a [span] with one style
    property and a [div]. *)

Inductive Atom : Type :=
  | str (s : string)
  | num (x : number).

Inductive Node : Type :=
  | Leaf (a : Atom)
  | Span (property : string) (value : Atom) (children : list Atom)
  | Div (children : list Atom).

(** [x ?? "—"] on an optional number. *)
Definition number_or_dash (x : option number) : Atom :=
  match x with
  | Some v => num v
  | None => str "—"
  end.

(** [x ?? "—"] on an optional string. *)
Definition string_or_dash (x : option string) : Atom :=
  match x with
  | Some v => str v
  | None => str "—"
  end.

Definition renderSpo2 (val : option number) : Node :=
  match val with
  | None => Leaf (str "—")
  | Some v =>
      let color :=
        if JS.lt v (Fin 95) then "crimson"
        else if JS.lt v (Fin 97) then "orange"
        else "green" in
      Span "color" (str color) [num v; str "%"]
  end.

(** The [durStr] of a table row, and the duration line of the details. *)
Definition durStr (r : UISession) : string :=
  match duration_minutes r with
  | Some d => JS.toString (JS.Math_floor d) ++ "m"
  | None => "—"
  end.

(** [b && x] among the children of an element: nothing is drawn for
    [false]. *)
Definition shown {A : Type} (b : bool) (x : A) : list A :=
  if b then [x] else [].

(** The keys in the order of the check boxes. *)
Definition columnKeys : list ColumnKey :=
  [col_id; col_start; col_end; col_duration; col_pace; col_sport; col_distance;
   col_calories; col_avg_hr; col_steps; col_spo2; col_vo2max; col_coach;
   col_training; col_weather].

(** The cells of the table head. *)
Definition headerRow (v : Visibility) : list string :=
  (shown (v col_id) "ID" ++ shown (v col_start) "Start" ++ shown (v col_end) "End"
   ++ shown (v col_duration) "Duration" ++ shown (v col_pace) "Pace"
   ++ shown (v col_sport) "Sport" ++ shown (v col_distance) "Distance (km)"
   ++ shown (v col_calories) "Calories" ++ shown (v col_avg_hr) "Avg HR"
   ++ shown (v col_steps) "Steps" ++ shown (v col_spo2) "SpO₂ (%)"
   ++ shown (v col_vo2max) "VO₂ Max" ++ shown (v col_coach) "Coach"
   ++ shown (v col_training) "Training" ++ shown (v col_weather) "Weather")%list.

(** [d.toLocaleString()] of the date with the given time value is the
    platform's and depends on its locale and time zone. *)
Class LocaleText : Type := toLocaleString : number -> string.

Section Drawing.

Context {date : DateParser} {locale : LocaleText}.

Definition formatLocal (dtISO : string) : string :=
  toLocaleString (getTime dtISO).

(** The [badge] of a table row. *)
Definition badge (close : option WeatherObservation) : string :=
  match close with
  | Some c =>
      toFixed (default (Fin 0) (temperature_c c)) 1 ++ "°C, "
      ++ toFixed (default (Fin 0) (precipitation_mm c)) 1 ++ "mm"
  | None => "Click row…"
  end.

(** The weather cell of the row [r]. *)
Definition weatherCell (weatherById : gmap Z (list WeatherObservation)) (r : UISession)
    : Node :=
  let wx := weatherById !! id (session r) in
  let close :=
    match wx with
    | Some observations => pickClosest observations (start_time (session r))
    | None => None
    end in
  match wx with
  | Some _ => Leaf (str (badge close))
  | None => Span "opacity" (num (JS.literal 0.7)) [str "Click row…"]
  end.

(** The cells of the table row of [r]. *)
Definition bodyRow (v : Visibility) (weatherById : gmap Z (list WeatherObservation))
    (r : UISession) : list Node :=
  (shown (v col_id) (Leaf (num (Fin (inject_Z (id (session r))))))
   ++ shown (v col_start) (Leaf (str (formatLocal (start_time (session r)))))
   ++ shown (v col_end) (Leaf (str (formatLocal (end_time (session r)))))
   ++ shown (v col_duration) (Leaf (str (durStr r)))
   ++ shown (v col_pace) (Leaf (str (fmtPace (pace_min_per_km r))))
   ++ shown (v col_sport) (Leaf (string_or_dash (sport (session r))))
   ++ shown (v col_distance) (Leaf (num (default (Fin 0) (distance_km (session r)))))
   ++ shown (v col_calories) (Leaf (number_or_dash (calories (session r))))
   ++ shown (v col_avg_hr) (Leaf (number_or_dash (avg_hr (session r))))
   ++ shown (v col_steps) (Leaf (number_or_dash (steps (session r))))
   ++ shown (v col_spo2) (renderSpo2 (spo2_pct (session r)))
   ++ shown (v col_vo2max) (Leaf (number_or_dash (vo2max r)))
   ++ shown (v col_coach) (Leaf (string_or_dash (coach r)))
   ++ shown (v col_training) (Leaf (string_or_dash (training_type r)))
   ++ shown (v col_weather) (weatherCell weatherById r))%list.

(** The weather lines of the details, for the selected row. *)
Definition weatherNearStart (weatherById : gmap Z (list WeatherObservation))
    (selected : UISession) : Node :=
  match weatherById !! id (session selected) with
  | Some observations =>
      match pickClosest observations (start_time (session selected)) with
      | Some c =>
          Div [str (toFixed (default (Fin 0) (temperature_c c)) 1); str "°C | ";
               str (toFixed (default (Fin 0) (humidity_pct c)) 0); str "% RH | ";
               str (toFixed (default (Fin 0) (wind_speed_ms c)) 1); str " m/s | ";
               str (toFixed (default (Fin 0) (precipitation_mm c)) 1); str " mm"]
      | None => Div [str "No observation."]
      end
  | None => Div [str "Loading…"]
  end.

(** The blocks under the title: the loading line, the error line, the line
    for an empty table, and the table with its head and rows. *)
Inductive Block : Type :=
  | LoadingLine
  | ErrorLine (message : string)
  | EmptyLine
  | Table (head : list string) (body : list (list Node)).

(** [xs.length] is falsy. *)
Definition noLength {A : Type} (xs : list A) : bool :=
  match xs with
  | [] => true
  | _ :: _ => false
  end.

(** [error && ...] on [string | null]: [null] and the empty string draw
    nothing. *)
Definition errorLine (error : option string) : list Block :=
  match error with
  | Some message => if emptyString message then [] else [ErrorLine message]
  | None => []
  end.

Definition page (st : State) : list Block :=
  let filtered := filtered (rows st) (fromDate st) (toDate st) in
  (shown (loading st) LoadingLine
   ++ errorLine (error st)
   ++ shown (negb (loading st) && noLength filtered) EmptyLine
   ++ shown (negb (noLength filtered))
        (Table (headerRow (visibleCols st))
               (map (bodyRow (visibleCols st) (weatherById st)) filtered)))%list.

End Drawing.

(** ** Loading the sessions and the date inputs *)

Definition setRows (rs : list UISession) (st : State) : State :=
  {| rows := rs; loading := loading st; error := error st;
     selected := selected st;
     weatherById := weatherById st; visibleCols := visibleCols st;
     fromDate := fromDate st; toDate := toDate st; console := console st |}.

Definition setLoading (b : bool) (st : State) : State :=
  {| rows := rows st; loading := b; error := error st;
     selected := selected st;
     weatherById := weatherById st; visibleCols := visibleCols st;
     fromDate := fromDate st; toDate := toDate st; console := console st |}.

Definition setError (e : option string) (st : State) : State :=
  {| rows := rows st; loading := loading st; error := e;
     selected := selected st;
     weatherById := weatherById st; visibleCols := visibleCols st;
     fromDate := fromDate st; toDate := toDate st; console := console st |}.

Definition setFromDate (text : string) (st : State) : State :=
  {| rows := rows st; loading := loading st; error := error st;
     selected := selected st;
     weatherById := weatherById st; visibleCols := visibleCols st;
     fromDate := text; toDate := toDate st; console := console st |}.

Definition setToDate (text : string) (st : State) : State :=
  {| rows := rows st; loading := loading st; error := error st;
     selected := selected st;
     weatherById := weatherById st; visibleCols := visibleCols st;
     fromDate := fromDate st; toDate := text; console := console st |}.

(** The [Clear] button. *)
Definition clearDates (st : State) : State :=
  setToDate "" (setFromDate "" st).

(** A value that [getSessions] rejects with: its [message], when it has
    one, and the text [String(e)] of it. *)
Record Thrown : Type := {
  message : option string;
  text : string
}.

(** How the promise of [getSessions] settles. *)
Inductive SessionsFetch : Type :=
  | Sessions (data : list Session)
  | Failure (e : Thrown).

(** The effect that runs once when the page is mounted, from the moment
    the promise settles. *)
Definition load {date : DateParser} (outcome : SessionsFetch) (st : State) : Eff State :=
  match outcome with
  | Sessions data =>
      let* rs := enriched data in
      ret (setLoading false (setRows rs st))
  | Failure e =>
      ret (setLoading false (setError (Some (default (text e) (message e))) st))
  end.

(** ** More sample data *)

(** A platform that prints a date as its milliseconds. *)
Definition plainLocale : LocaleText :=
  fun t => JS.toString t.

Definition mild : WeatherObservation :=
  {| timestamp := "2024-03-01T00:10:00Z"; temperature_c := Some (JS.literal 21.46);
     humidity_pct := Some (Fin 55); wind_speed_ms := None;
     precipitation_mm := Some (Fin 0) |}.

Definition undated : WeatherObservation := observation_at "yesterday".

(** Two observations a millisecond apart, [2^53 + 1] and [2^53]
    milliseconds before the last instant a date can hold. *)
Definition farA : WeatherObservation := observation_at "-009667-12-02T15:00:59.007Z".
Definition farB : WeatherObservation := observation_at "-009667-12-02T15:00:59.008Z".
Definition lastInstant : string := "+275760-09-13T00:00:00.000Z".

(** A platform whose [Math.random()] is always [1 - 2^-52]. *)
Definition nearlyOne : Random :=
  {| outcomes := fun _ => Fin (4503599627370495 # 4503599627370496); drawn := 0 |}.

(** A session whose start is not a date. *)
Definition undatedRun : Session :=
  session_of 6 "soon" "2024-03-14T08:00:00Z" (Some (Fin 9)) None.

(** The fresh page with the weather of session 1 in the cache. *)
Definition cachedFirst : State :=
  setWeatherById (fun prev => <[1%Z := [mild]]> prev) initial.

(** The page after the five sessions have been loaded. *)
Definition loadedFive : State :=
  fst (@load isoDate (Sessions five) initial tenths).

(** ** Tactics of the proofs *)

(** [rounded t H] evaluates the closed number [t] and states the result as
    [H]. *)
Ltac rounded t H :=
  let c := eval vm_compute in (instant t) in
  assert (H : t = Fin c) by (vm_compute; reflexivity).

(** [floors H] evaluates the floors of the constants of [H]. *)
Ltac floors H :=
  repeat match type of H with
         | context [Qfloor ?c] =>
             let t := eval vm_compute in (Qfloor c) in change (Qfloor c) with t in H
         end.

(** * Properties *)

(** ** Binary64 rounding *)

Lemma pow2_pos (k : Z) : 0 < JS.pow2 k.
Proof. apply Qpower_0_lt. reflexivity. Qed.

Lemma pow2_add (a b : Z) : JS.pow2 (a + b) == JS.pow2 a * JS.pow2 b.
Proof. apply Qpower_plus. discriminate. Qed.

Lemma pow2_le (a b : Z) : (a <= b)%Z -> JS.pow2 a <= JS.pow2 b.
Proof. intros H. apply Qpower_le_compat_l; [exact H|discriminate]. Qed.

Lemma pow2_lt (a b : Z) : (a < b)%Z -> JS.pow2 a < JS.pow2 b.
Proof. intros H. apply Qpower_lt_compat_l; [exact H|reflexivity]. Qed.

Lemma pow2_lt_inv (a b : Z) : JS.pow2 a < JS.pow2 b -> (a < b)%Z.
Proof. intros H. apply (Qpower_lt_compat_l_inv 2); [exact H|reflexivity]. Qed.

Lemma pow2_Z (k : Z) : (0 <= k)%Z -> JS.pow2 k == inject_Z (2 ^ k).
Proof. intros H. unfold JS.pow2. rewrite Zpower_Qpower by exact H. reflexivity. Qed.

Lemma pow2_succ (k : Z) : JS.pow2 (k + 1) == 2 * JS.pow2 k.
Proof. rewrite pow2_add. change (JS.pow2 1) with 2. ring. Qed.

Lemma Zlog2_bounds (z : Z) :
  (0 < z)%Z -> JS.pow2 (Z.log2 z) <= inject_Z z /\ inject_Z z < JS.pow2 (Z.log2 z + 1).
Proof.
  intros Hz. pose proof (Z.log2_spec z Hz) as [Hlo Hhi].
  pose proof (Z.log2_nonneg z) as Hn.
  rewrite !pow2_Z by lia. split.
  - rewrite <- Zle_Qle. exact Hlo.
  - rewrite <- Zlt_Qlt. replace (Z.log2 z + 1)%Z with (Z.succ (Z.log2 z)) by lia. exact Hhi.
Qed.

Lemma ilog2_spec (a : Q) :
  0 < a -> JS.pow2 (JS.ilog2 a) <= a /\ a < JS.pow2 (JS.ilog2 a + 1).
Proof.
  intros Ha. unfold JS.ilog2.
  destruct a as [p d]. cbn [Qnum Qden].
  assert (Hp : (0 < p)%Z).
  { unfold Qlt in Ha. cbn in Ha. lia. }
  destruct (Zlog2_bounds p Hp) as [Pl Ph].
  destruct (Zlog2_bounds (Zpos d) eq_refl) as [Dl Dh].
  set (lp := Z.log2 p) in *. set (ld := Z.log2 (Zpos d)) in *.
  assert (Ha' : p # d == inject_Z p / inject_Z (Zpos d)) by apply Qmake_Qdiv.
  assert (HD : 0 < inject_Z (Zpos d)) by reflexivity.
  assert (Hmul : (p # d) * inject_Z (Zpos d) == inject_Z p).
  { rewrite Ha'. field. intros H. rewrite H in HD. discriminate. }
  assert (Hup : p # d < JS.pow2 (lp - ld + 1)).
  { apply Qmult_lt_r with (z := inject_Z (Zpos d)); [exact HD|].
    rewrite Hmul. apply Qlt_le_trans with (1 := Ph).
    replace (lp + 1)%Z with ((lp - ld + 1) + ld)%Z by lia.
    rewrite pow2_add. apply Qmult_le_l; [apply pow2_pos|exact Dl]. }
  assert (Hlow : JS.pow2 (lp - ld - 1) < p # d).
  { apply Qmult_lt_r with (z := inject_Z (Zpos d)); [exact HD|].
    rewrite Hmul. apply Qlt_le_trans with (2 := Pl).
    replace lp with ((lp - ld - 1) + (ld + 1))%Z at 2 by lia.
    rewrite pow2_add. apply Qmult_lt_l; [apply pow2_pos|exact Dh]. }
  destruct (Qle_bool (JS.pow2 (lp - ld)) (p # d)) eqn:E.
  - apply Qle_bool_iff in E. split; assumption.
  - assert (Hlt : p # d < JS.pow2 (lp - ld)).
    { apply Qnot_le_lt. intros H. apply Qle_bool_iff in H. congruence. }
    split.
    + apply Qlt_le_weak. exact Hlow.
    + replace (lp - ld - 1 + 1)%Z with (lp - ld)%Z by lia. exact Hlt.
Qed.

Lemma ilog2_unique (a : Q) (k : Z) :
  JS.pow2 k <= a -> a < JS.pow2 (k + 1) -> JS.ilog2 a = k.
Proof.
  intros Hlo Hhi.
  assert (Ha : 0 < a) by (apply Qlt_le_trans with (2 := Hlo); apply pow2_pos).
  destruct (ilog2_spec a Ha) as [Slo Shi].
  assert (H1 : (JS.ilog2 a < k + 1)%Z).
  { apply pow2_lt_inv. apply Qle_lt_trans with (1 := Slo). exact Hhi. }
  assert (H2 : (k < JS.ilog2 a + 1)%Z).
  { apply pow2_lt_inv. apply Qle_lt_trans with (1 := Hlo). exact Shi. }
  lia.
Qed.

Lemma ilog2_le (a b : Q) : 0 < a -> a <= b -> (JS.ilog2 a <= JS.ilog2 b)%Z.
Proof.
  intros Ha Hab.
  assert (Hb : 0 < b) by (apply Qlt_le_trans with (1 := Ha); exact Hab).
  destruct (ilog2_spec a Ha) as [Alo _]. destruct (ilog2_spec b Hb) as [_ Bhi].
  assert (H : (JS.ilog2 a < JS.ilog2 b + 1)%Z).
  { apply pow2_lt_inv. apply Qle_lt_trans with (1 := Alo).
    apply Qle_lt_trans with (1 := Hab). exact Bhi. }
  lia.
Qed.

(** JS.nearest_even *)

Lemma nearest_even_near (s : Q) :
  inject_Z (JS.nearest_even s) - (1 # 2) <= s /\ s <= inject_Z (JS.nearest_even s) + (1 # 2).
Proof.
  unfold JS.nearest_even.
  pose proof (Qfloor_le s) as Hlo. pose proof (Qlt_floor s) as Hhi.
  rewrite inject_Z_plus in Hhi. change (inject_Z 1) with 1 in Hhi.
  destruct (Qcompare (s - inject_Z (Qfloor s)) (1 # 2)) eqn:E.
  - apply Qeq_alt in E. destruct (Z.even (Qfloor s)).
    + split; lra.
    + rewrite inject_Z_plus. change (inject_Z 1) with 1. split; lra.
  - apply Qlt_alt in E. split; lra.
  - apply Qgt_alt in E. rewrite inject_Z_plus. change (inject_Z 1) with 1. split; lra.
Qed.

Lemma nearest_even_Z (z : Z) : JS.nearest_even (inject_Z z) = z.
Proof.
  unfold JS.nearest_even. rewrite Qfloor_Z.
  assert (H : inject_Z z - inject_Z z < 1 # 2) by lra.
  assert (E : Qcompare (inject_Z z - inject_Z z) (1 # 2) = Lt).
  { apply Qlt_alt in H. exact H. }
  rewrite E. reflexivity.
Qed.

Lemma nearest_even_comp (s t : Q) : s == t -> JS.nearest_even s = JS.nearest_even t.
Proof.
  intros H. unfold JS.nearest_even. rewrite (Qfloor_comp _ _ H).
  assert (E : Qcompare (s - inject_Z (Qfloor t)) (1 # 2)
              = Qcompare (t - inject_Z (Qfloor t)) (1 # 2)).
  { apply Qcompare_comp; [rewrite H; reflexivity|reflexivity]. }
  rewrite E. reflexivity.
Qed.

Lemma Qcompare_cases (x y : Q) :
  match Qcompare x y with Eq => x == y | Lt => x < y | Gt => y < x end.
Proof.
  destruct (Qcompare x y) eqn:E.
  - apply Qeq_alt. exact E.
  - apply Qlt_alt. exact E.
  - apply Qgt_alt in E. exact E.
Qed.

Lemma nearest_even_mono (s t : Q) : s <= t -> (JS.nearest_even s <= JS.nearest_even t)%Z.
Proof.
  intros Hst.
  pose proof (Qfloor_resp_le _ _ Hst) as Hf.
  unfold JS.nearest_even.
  destruct (Z.eq_dec (Qfloor s) (Qfloor t)) as [Heq|Hne].
  - rewrite <- Heq.
    pose proof (Qcompare_cases (s - inject_Z (Qfloor s)) (1 # 2)) as Es.
    pose proof (Qcompare_cases (t - inject_Z (Qfloor s)) (1 # 2)) as Et.
    destruct (Qcompare (s - inject_Z (Qfloor s)) (1 # 2));
      destruct (Qcompare (t - inject_Z (Qfloor s)) (1 # 2));
      try (destruct (Z.even (Qfloor s))); try lia; exfalso; lra.
  - assert (Hlt : (Qfloor s + 1 <= Qfloor t)%Z) by lia.
    assert (Hs : (match Qcompare (s - inject_Z (Qfloor s)) (1 # 2) with
                  | Eq => if Z.even (Qfloor s) then Qfloor s else Qfloor s + 1
                  | Lt => Qfloor s
                  | Gt => Qfloor s + 1
                  end <= Qfloor s + 1)%Z).
    { destruct (Qcompare (s - inject_Z (Qfloor s)) (1 # 2)); try destruct (Z.even (Qfloor s)); lia. }
    assert (Ht : (Qfloor t <= match Qcompare (t - inject_Z (Qfloor t)) (1 # 2) with
                  | Eq => if Z.even (Qfloor t) then Qfloor t else Qfloor t + 1
                  | Lt => Qfloor t
                  | Gt => Qfloor t + 1
                  end)%Z).
    { destruct (Qcompare (t - inject_Z (Qfloor t)) (1 # 2)); try destruct (Z.even (Qfloor t)); lia. }
    lia.
Qed.

(** *** The binary64 value nearest to a rational above zero *)

Lemma exponent_min (a : Q) : (-1074 <= JS.exponent a)%Z.
Proof. unfold JS.exponent. lia. Qed.

Lemma exponent_ilog2 (a : Q) : (JS.ilog2 a - 52 <= JS.exponent a)%Z.
Proof. unfold JS.exponent. lia. Qed.

Lemma exponent_normal (a : Q) :
  (-1074 < JS.exponent a)%Z -> JS.exponent a = (JS.ilog2 a - 52)%Z.
Proof. unfold JS.exponent. lia. Qed.

Lemma exponent_le (a b : Q) : 0 < a -> a <= b -> (JS.exponent a <= JS.exponent b)%Z.
Proof.
  intros Ha Hab. pose proof (ilog2_le a b Ha Hab). unfold JS.exponent. lia.
Qed.

Lemma scaled_eq (a : Q) (e : Z) : a == a / JS.pow2 e * JS.pow2 e.
Proof.
  pose proof (pow2_pos e) as Hp. field. intros H. rewrite H in Hp. discriminate.
Qed.

Lemma scaled_le (a b : Q) (e : Z) : a <= b -> a / JS.pow2 e <= b / JS.pow2 e.
Proof.
  intros Hab. apply Qle_shift_div_l; [apply pow2_pos|].
  rewrite <- scaled_eq. exact Hab.
Qed.

Lemma scaled_lt (a : Q) : 0 < a -> a / JS.pow2 (JS.exponent a) < JS.pow2 53.
Proof.
  intros Ha. apply Qlt_shift_div_r; [apply pow2_pos|].
  destruct (ilog2_spec a Ha) as [_ Hhi].
  apply Qlt_le_trans with (1 := Hhi).
  rewrite <- pow2_add. apply pow2_le. pose proof (exponent_ilog2 a). lia.
Qed.

Lemma scaled_ge (a : Q) :
  0 < a -> (-1074 < JS.exponent a)%Z -> JS.pow2 52 <= a / JS.pow2 (JS.exponent a).
Proof.
  intros Ha Hn. apply Qle_shift_div_l; [apply pow2_pos|].
  destruct (ilog2_spec a Ha) as [Hlo _].
  rewrite <- pow2_add. rewrite (exponent_normal a Hn).
  replace (52 + (JS.ilog2 a - 52))%Z with (JS.ilog2 a) by lia. exact Hlo.
Qed.

Lemma nearest64_upper (a : Q) :
  0 < a -> JS.nearest64 a <= JS.pow2 (JS.exponent a + 53).
Proof.
  intros Ha. unfold JS.nearest64.
  assert (Hn : (JS.nearest_even (a / JS.pow2 (JS.exponent a)) <= 2 ^ 53)%Z).
  { rewrite <- (nearest_even_Z (2 ^ 53)). apply nearest_even_mono.
    rewrite <- pow2_Z by lia. apply Qlt_le_weak. apply scaled_lt. exact Ha. }
  rewrite Zle_Qle in Hn. rewrite <- pow2_Z in Hn by lia.
  rewrite Z.add_comm, pow2_add.
  apply Qmult_le_compat_r; [exact Hn|]. apply Qlt_le_weak. apply pow2_pos.
Qed.

Lemma nearest64_lower (a : Q) :
  0 < a -> (-1074 < JS.exponent a)%Z ->
  JS.pow2 (JS.exponent a + 52) <= JS.nearest64 a.
Proof.
  intros Ha Hn. unfold JS.nearest64.
  assert (Hz : (2 ^ 52 <= JS.nearest_even (a / JS.pow2 (JS.exponent a)))%Z).
  { rewrite <- (nearest_even_Z (2 ^ 52)). apply nearest_even_mono.
    rewrite <- pow2_Z by lia. apply scaled_ge; assumption. }
  rewrite Zle_Qle in Hz. rewrite <- pow2_Z in Hz by lia.
  rewrite Z.add_comm, pow2_add.
  apply Qmult_le_compat_r; [exact Hz|]. apply Qlt_le_weak. apply pow2_pos.
Qed.

Lemma nearest64_nonneg (a : Q) : 0 < a -> 0 <= JS.nearest64 a.
Proof.
  intros Ha. unfold JS.nearest64.
  assert (Hz : (0 <= JS.nearest_even (a / JS.pow2 (JS.exponent a)))%Z).
  { rewrite <- (nearest_even_Z 0) at 1. apply nearest_even_mono.
    apply Qle_shift_div_l; [apply pow2_pos|]. rewrite Qmult_0_l.
    apply Qlt_le_weak. exact Ha. }
  rewrite Zle_Qle in Hz.
  apply Qmult_le_0_compat; [exact Hz|]. apply Qlt_le_weak. apply pow2_pos.
Qed.

Lemma nearest64_mono (a b : Q) :
  0 < a -> a <= b -> JS.nearest64 a <= JS.nearest64 b.
Proof.
  intros Ha Hab.
  assert (Hb : 0 < b) by lra.
  pose proof (exponent_le a b Ha Hab) as He.
  destruct (Z.eq_dec (JS.exponent a) (JS.exponent b)) as [Heq|Hne].
  - unfold JS.nearest64. rewrite <- Heq.
    apply Qmult_le_compat_r; [|apply Qlt_le_weak; apply pow2_pos].
    rewrite <- Zle_Qle. apply nearest_even_mono. apply scaled_le. exact Hab.
  - apply Qle_trans with (1 := nearest64_upper a Ha).
    pose proof (exponent_min a).
    apply Qle_trans with (2 := nearest64_lower b Hb ltac:(lia)).
    apply pow2_le. lia.
Qed.

(** The error is at most half a unit in the last place. *)
Lemma nearest64_near (a : Q) :
  JS.nearest64 a - JS.pow2 (JS.exponent a) * (1 # 2) <= a /\
  a <= JS.nearest64 a + JS.pow2 (JS.exponent a) * (1 # 2).
Proof.
  unfold JS.nearest64.
  pose proof (pow2_pos (JS.exponent a)) as Hp.
  pose proof (scaled_eq a (JS.exponent a)) as Ha.
  destruct (nearest_even_near (a / JS.pow2 (JS.exponent a))) as [Hlo Hhi].
  set (p := JS.pow2 (JS.exponent a)) in *.
  set (s := a / p) in *.
  set (n := inject_Z (JS.nearest_even s)) in *.
  assert (H1 : (n - (1 # 2)) * p <= s * p)
    by (apply Qmult_le_compat_r; [exact Hlo|lra]).
  assert (H2 : s * p <= (n + (1 # 2)) * p)
    by (apply Qmult_le_compat_r; [exact Hhi|lra]).
  split.
  - rewrite Ha. apply Qle_trans with (2 := H1). apply Qle_lteq. right. ring.
  - rewrite Ha at 1. apply Qle_trans with (1 := H2). apply Qle_lteq. right. ring.
Qed.

Lemma scaled_int (a z : Q) (e : Z) : a == z * JS.pow2 e -> a / JS.pow2 e == z.
Proof.
  intros H. pose proof (pow2_pos e) as Hp.
  apply Qeq_trans with (z * JS.pow2 e / JS.pow2 e).
  - unfold Qdiv. apply Qmult_comp; [exact H|reflexivity].
  - field. intros H0. rewrite H0 in Hp. discriminate.
Qed.

(** A multiple of a power of two with at most 53 significant bits is its
    own nearest value. *)
Lemma nearest64_exact (a : Q) (m e : Z) :
  0 < a -> a == inject_Z m * JS.pow2 e -> (m <= 2 ^ 53)%Z -> (-1074 <= e)%Z ->
  JS.nearest64 a == a.
Proof.
  intros Ha Hm Hm53 He.
  pose proof (pow2_pos e) as Hpe.
  assert (Hint : exists z : Z, a / JS.pow2 (JS.exponent a) == inject_Z z).
  { destruct (Z_le_gt_dec (JS.exponent a) e) as [Hle|Hgt].
    - exists (m * 2 ^ (e - JS.exponent a))%Z. apply scaled_int.
      rewrite inject_Z_mult, <- pow2_Z by lia.
      apply Qeq_trans with (1 := Hm). rewrite <- Qmult_assoc, <- pow2_add.
      replace (e - JS.exponent a + JS.exponent a)%Z with e by lia. reflexivity.
    - assert (Hn : (-1074 < JS.exponent a)%Z) by lia.
      destruct (ilog2_spec a Ha) as [Hlo _].
      pose proof (exponent_normal a Hn) as HE.
      rewrite Zle_Qle in Hm53. rewrite <- pow2_Z in Hm53 by lia.
      assert (Hup : a <= JS.pow2 (53 + e)).
      { apply Qle_trans with (inject_Z m * JS.pow2 e).
        - apply Qle_lteq. right. exact Hm.
        - rewrite pow2_add. apply Qmult_le_compat_r; [exact Hm53|lra]. }
      assert (Hil : (JS.ilog2 a <= 53 + e)%Z).
      { destruct (Z_le_gt_dec (JS.ilog2 a) (53 + e)) as [H|H]; [exact H|exfalso].
        assert (Hlt : JS.pow2 (53 + e) < JS.pow2 (JS.ilog2 a)) by (apply pow2_lt; lia).
        lra. }
      assert (Hi : JS.ilog2 a = (53 + e)%Z) by lia.
      rewrite Hi in Hlo.
      exists (2 ^ 52)%Z. apply scaled_int. rewrite <- pow2_Z by lia.
      apply Qeq_trans with (JS.pow2 (53 + e)); [apply Qle_antisym; assumption|].
      rewrite <- pow2_add. rewrite HE, Hi.
      replace (52 + (53 + e - 52))%Z with (53 + e)%Z by lia. reflexivity. }
  destruct Hint as [z Hz]. unfold JS.nearest64.
  rewrite (nearest_even_comp _ _ Hz), nearest_even_Z.
  apply Qeq_trans with (a / JS.pow2 (JS.exponent a) * JS.pow2 (JS.exponent a)).
  - apply Qmult_comp; [apply Qeq_sym; exact Hz|reflexivity].
  - apply Qeq_sym. apply scaled_eq.
Qed.

(** *** Rounding a rational *)

Lemma Qopp_opp_eq (q : Q) : - - q = q.
Proof. destruct q as [n d]. unfold Qopp. cbn. f_equal. lia. Qed.

Lemma Qred_inject_Z (z : Z) : Qred (inject_Z z) = inject_Z z.
Proof.
  unfold Qred, inject_Z.
  pose proof (Z.ggcd_gcd z 1) as Hg. pose proof (Z.ggcd_correct_divisors z 1) as Hd.
  destruct (Z.ggcd z 1) as [g [q1 q2]]. cbn in *. rewrite Z.gcd_1_r in Hg. subst g.
  destruct Hd as [H1 H2].
  assert (E1 : q1 = z) by lia. assert (E2 : q2 = 1%Z) by lia.
  rewrite E1, E2. reflexivity.
Qed.

Lemma inject_Z_above (n : Z) : (0 < n)%Z -> 0 < inject_Z n.
Proof. intros H. unfold Qlt. cbn. lia. Qed.

Lemma inject_Z_below (n : Z) : (n < 0)%Z -> inject_Z n < 0.
Proof. intros H. unfold Qlt. cbn. lia. Qed.

Lemma inject_Z_nonpos (z : Z) : (z <= 0)%Z -> inject_Z z <= 0.
Proof. intros H. unfold Qle. cbn. lia. Qed.

Lemma inject_Z_nonneg (z : Z) : (0 <= z)%Z -> 0 <= inject_Z z.
Proof. intros H. unfold Qle. cbn. lia. Qed.

Lemma inject_Z_ge_1 (z : Z) : (1 <= z)%Z -> 1 <= inject_Z z.
Proof. intros H. unfold Qle. cbn. lia. Qed.

Lemma round64_comp (a b : Q) : a == b -> JS.round64 a = JS.round64 b.
Proof. intros H. unfold JS.round64. rewrite (Qred_complete a b H). reflexivity. Qed.

Lemma round64_zero (a : Q) : a == 0 -> JS.round64 a = Fin 0.
Proof. intros H. rewrite (round64_comp a 0 H). reflexivity. Qed.

Lemma round64_above (a : Q) : 0 < a -> JS.round64 a = JS.round_pos (Qred a).
Proof.
  intros Ha. unfold JS.round64.
  assert (H : 0 < Qred a) by (rewrite Qred_correct; exact Ha).
  pose proof (Qcompare_cases (Qred a) 0) as C.
  destruct (Qcompare (Qred a) 0); [exfalso; lra|exfalso; lra|reflexivity].
Qed.

Lemma round64_below (a : Q) :
  a < 0 -> JS.round64 a = JS.neg (JS.round_pos (- Qred a)).
Proof.
  intros Ha. unfold JS.round64.
  assert (H : Qred a < 0) by (rewrite Qred_correct; exact Ha).
  pose proof (Qcompare_cases (Qred a) 0) as C.
  destruct (Qcompare (Qred a) 0); [exfalso; lra|reflexivity|exfalso; lra].
Qed.

Lemma round_pos_cases (a : Q) :
  (JS.round_pos a = Infinity /\ JS.pow2 1024 <= JS.nearest64 a) \/
  (JS.round_pos a = Fin (Qred (JS.nearest64 a)) /\ JS.nearest64 a < JS.pow2 1024).
Proof.
  unfold JS.round_pos. destruct (Qle_bool (JS.pow2 1024) (JS.nearest64 a)) eqn:E.
  - left. split; [reflexivity|]. apply Qle_bool_iff. exact E.
  - right. split; [reflexivity|]. apply Qnot_le_lt. intros H.
    apply Qle_bool_iff in H. congruence.
Qed.

Lemma round_pos_nonneg (a : Q) : 0 < a -> JS.le (Fin 0) (JS.round_pos a) = true.
Proof.
  intros Ha. destruct (round_pos_cases a) as [[-> _]|[-> _]]; [reflexivity|].
  cbn. apply Qle_bool_iff. rewrite Qred_correct. apply nearest64_nonneg. exact Ha.
Qed.

Lemma round_pos_mono (a b : Q) :
  0 < a -> a <= b -> JS.le (JS.round_pos a) (JS.round_pos b) = true.
Proof.
  intros Ha Hab. pose proof (nearest64_mono a b Ha Hab) as Hm.
  destruct (round_pos_cases a) as [[-> Ia]|[-> Fa]];
    destruct (round_pos_cases b) as [[-> Ib]|[-> Fb]]; try reflexivity.
  - exfalso. lra.
  - cbn. apply Qle_bool_iff. rewrite !Qred_correct. exact Hm.
Qed.

Lemma le_neg (x y : number) : JS.le x y = true -> JS.le (JS.neg y) (JS.neg x) = true.
Proof.
  destruct x as [| |a|], y as [| |b|]; cbn; try discriminate; try reflexivity.
  rewrite !Qle_bool_iff. intros H. lra.
Qed.

Lemma le_trans (x y z : number) :
  JS.le x y = true -> JS.le y z = true -> JS.le x z = true.
Proof.
  destruct x as [| |a|], y as [| |b|], z as [| |c|]; cbn;
    try discriminate; try reflexivity.
  rewrite !Qle_bool_iff. intros H1 H2. lra.
Qed.

(** Rounding keeps the order. *)
Lemma round64_mono (a b : Q) : a <= b -> JS.le (JS.round64 a) (JS.round64 b) = true.
Proof.
  intros Hab.
  destruct (Q_dec a 0) as [[Ha|Ha]|Ha]; destruct (Q_dec b 0) as [[Hb|Hb]|Hb];
    try (exfalso; lra).
  - rewrite (round64_below a Ha), (round64_below b Hb). apply le_neg.
    apply round_pos_mono; [|apply Qopp_le_compat; rewrite !Qred_correct; exact Hab].
    rewrite Qred_correct. lra.
  - rewrite (round64_below a Ha), (round64_above b Hb).
    apply le_trans with (Fin 0).
    + change (Fin 0) with (JS.neg (Fin 0)). apply le_neg. apply round_pos_nonneg.
      rewrite Qred_correct. lra.
    + apply round_pos_nonneg. rewrite Qred_correct. exact Hb.
  - rewrite (round64_below a Ha), (round64_zero b Hb).
    change (Fin 0) with (JS.neg (Fin 0)). apply le_neg. apply round_pos_nonneg.
    rewrite Qred_correct. lra.
  - rewrite (round64_above a Ha), (round64_above b Hb).
    apply round_pos_mono; [|rewrite !Qred_correct; exact Hab].
    rewrite Qred_correct. exact Ha.
  - rewrite (round64_zero a Ha), (round64_above b Hb). apply round_pos_nonneg.
    rewrite Qred_correct. exact Hb.
  - rewrite (round64_zero a Ha), (round64_zero b Hb). reflexivity.
Qed.

(** A rational between two rationals with finite binary64 values has a
    finite one, between theirs. *)
Lemma round64_between (lo hi a lo' hi' : Q) :
  lo <= a -> a <= hi -> JS.round64 lo = Fin lo' -> JS.round64 hi = Fin hi' ->
  exists v : Q, JS.round64 a = Fin v /\ lo' <= v /\ v <= hi'.
Proof.
  intros Hlo Hhi Elo Ehi.
  pose proof (round64_mono lo a Hlo) as H1. pose proof (round64_mono a hi Hhi) as H2.
  rewrite Elo in H1. rewrite Ehi in H2.
  destruct (JS.round64 a) as [| |v|]; try discriminate.
  exists v. split; [reflexivity|]. cbn in H1, H2.
  apply Qle_bool_iff in H1. apply Qle_bool_iff in H2. split; assumption.
Qed.

(** Integers up to [2^53] are binary64 values. *)
Lemma round64_Z (z : Z) :
  (- 2 ^ 53 <= z <= 2 ^ 53)%Z -> JS.round64 (inject_Z z) = Fin (inject_Z z).
Proof.
  intros Hz.
  assert (Hpos : forall n : Z, (0 < n <= 2 ^ 53)%Z ->
            JS.round_pos (inject_Z n) = Fin (inject_Z n)).
  { intros n Hn.
    assert (Hn0 : 0 < inject_Z n) by (apply inject_Z_above; lia).
    assert (He : JS.nearest64 (inject_Z n) == inject_Z n).
    { apply (nearest64_exact _ n 0); [exact Hn0| |lia|lia].
      change (JS.pow2 0) with 1. ring. }
    destruct (round_pos_cases (inject_Z n)) as [[_ Hinf]|[-> _]].
    - exfalso. rewrite He in Hinf.
      assert (Hlt : JS.pow2 53 < JS.pow2 1024) by (apply pow2_lt; lia).
      assert (Hle : inject_Z n <= JS.pow2 53).
      { rewrite pow2_Z by lia. rewrite <- Zle_Qle. lia. }
      lra.
    - rewrite (Qred_complete _ _ He), Qred_inject_Z. reflexivity. }
  destruct (Z.lt_trichotomy z 0) as [Hneg|[->|Hpos']].
  - assert (Hlt : inject_Z z < 0) by (apply inject_Z_below; lia).
    rewrite (round64_below _ Hlt), Qred_inject_Z.
    change (- inject_Z z) with (inject_Z (- z)).
    rewrite Hpos by lia. cbn [JS.neg].
    change (- inject_Z (- z)) with (inject_Z (- - z)).
    rewrite Z.opp_involutive. reflexivity.
  - reflexivity.
  - assert (Hlt : 0 < inject_Z z) by (apply inject_Z_above; lia).
    rewrite (round64_above _ Hlt), Qred_inject_Z. apply Hpos. lia.
Qed.

(** The absolute error of rounding below [2^K]. *)
Lemma round64_error (a v : Q) (K : Z) :
  JS.round64 a = Fin v -> 0 <= a -> a < JS.pow2 K -> (-1021 <= K)%Z ->
  a - JS.pow2 (K - 54) <= v /\ v <= a + JS.pow2 (K - 54).
Proof.
  intros Hr Ha HK Hmin.
  pose proof (pow2_pos (K - 54)) as Hp.
  destruct (Qle_lt_or_eq _ _ Ha) as [Hpos|Hz].
  - rewrite (round64_above a Hpos) in Hr.
    assert (Hpos' : 0 < Qred a) by (rewrite Qred_correct; exact Hpos).
    destruct (round_pos_cases (Qred a)) as [[E _]|[E _]]; rewrite E in Hr;
      [discriminate|].
    injection Hr as <-. rewrite Qred_correct.
    destruct (nearest64_near (Qred a)) as [Hlo Hhi].
    assert (He : (JS.exponent (Qred a) <= K - 53)%Z).
    { destruct (ilog2_spec (Qred a) Hpos') as [Il _].
      assert (Hi : (JS.ilog2 (Qred a) < K)%Z).
      { apply pow2_lt_inv. apply Qle_lt_trans with (1 := Il).
        rewrite Qred_correct. exact HK. }
      unfold JS.exponent. lia. }
    assert (Hu : JS.pow2 (JS.exponent (Qred a)) * (1 # 2) <= JS.pow2 (K - 54)).
    { apply Qle_trans with (JS.pow2 (K - 53) * (1 # 2)).
      - apply Qmult_le_compat_r; [apply pow2_le; exact He|discriminate].
      - replace (K - 53)%Z with (K - 54 + 1)%Z by lia. rewrite pow2_succ.
        apply Qle_lteq. right. ring. }
    pose proof (Qred_correct a) as Hq. split; lra.
  - rewrite (round64_zero a (Qeq_sym _ _ Hz)) in Hr. injection Hr as <-. split; lra.
Qed.

(** The relative error of rounding in the normal range. *)
Lemma round64_relative (a v : Q) :
  JS.round64 a = Fin v -> JS.pow2 (-1022) <= a ->
  a - a * JS.pow2 (-53) <= v /\ v <= a + a * JS.pow2 (-53).
Proof.
  intros Hr Hn.
  assert (Hpos : 0 < a) by (pose proof (pow2_pos (-1022)); lra).
  rewrite (round64_above a Hpos) in Hr.
  assert (Hpos' : 0 < Qred a) by (rewrite Qred_correct; exact Hpos).
  destruct (round_pos_cases (Qred a)) as [[E _]|[E _]]; rewrite E in Hr;
    [discriminate|].
  injection Hr as <-. rewrite Qred_correct.
  destruct (nearest64_near (Qred a)) as [Hlo Hhi].
  destruct (ilog2_spec (Qred a) Hpos') as [Il _].
  assert (Hi : (-1022 <= JS.ilog2 (Qred a))%Z).
  { destruct (ilog2_spec (Qred a) Hpos') as [_ Ih].
    assert (H : (-1022 < JS.ilog2 (Qred a) + 1)%Z).
    { apply pow2_lt_inv. apply Qle_lt_trans with (2 := Ih).
      rewrite Qred_correct. exact Hn. }
    lia. }
  assert (He : JS.exponent (Qred a) = (JS.ilog2 (Qred a) - 52)%Z)
    by (unfold JS.exponent; lia).
  assert (Hu : JS.pow2 (JS.exponent (Qred a)) * (1 # 2) <= a * JS.pow2 (-53)).
  { rewrite He.
    replace (JS.ilog2 (Qred a) - 52)%Z with (JS.ilog2 (Qred a) + -53 + 1)%Z by lia.
    rewrite pow2_succ, pow2_add.
    apply Qle_trans with (JS.pow2 (JS.ilog2 (Qred a)) * JS.pow2 (-53)).
    - apply Qle_lteq. right. ring.
    - apply Qmult_le_compat_r; [|apply Qlt_le_weak; apply pow2_pos].
      pose proof (Qred_correct a) as Hq. lra. }
  pose proof (Qred_correct a) as Hq. split; lra.
Qed.

(** *** Binary64 values *)

Lemma scaled_nearest_bounds (a : Q) :
  0 < a -> (0 <= JS.nearest_even (a / JS.pow2 (JS.exponent a)) <= 2 ^ 53)%Z.
Proof.
  intros Ha. split.
  - rewrite <- (nearest_even_Z 0) at 1. apply nearest_even_mono.
    apply Qle_shift_div_l; [apply pow2_pos|]. rewrite Qmult_0_l.
    apply Qlt_le_weak. exact Ha.
  - rewrite <- (nearest_even_Z (2 ^ 53)). apply nearest_even_mono.
    rewrite <- pow2_Z by lia. apply Qlt_le_weak. apply scaled_lt. exact Ha.
Qed.

(** The binary64 value of a rational above zero is a multiple of the unit
    in its last place, by at most [2^53]. *)
Lemma round64_grid (a v : Q) :
  0 < a -> JS.round64 a = Fin v ->
  exists n : Z,
    (0 <= n <= 2 ^ 53)%Z /\ v == inject_Z n * JS.pow2 (JS.exponent (Qred a)).
Proof.
  intros Ha Hr. rewrite (round64_above a Ha) in Hr.
  assert (Ha' : 0 < Qred a) by (rewrite Qred_correct; exact Ha).
  destruct (round_pos_cases (Qred a)) as [[E _]|[E _]]; rewrite E in Hr;
    [discriminate|].
  injection Hr as <-.
  exists (JS.nearest_even (Qred a / JS.pow2 (JS.exponent (Qred a)))).
  split; [apply scaled_nearest_bounds; exact Ha'|].
  rewrite Qred_correct. reflexivity.
Qed.

(** A multiple of a power of two by at most [2^53] is a binary64 value. *)
Lemma round64_exact (a : Q) (m e : Z) :
  a == inject_Z m * JS.pow2 e -> (0 <= m <= 2 ^ 53)%Z -> (-1074 <= e)%Z ->
  a < JS.pow2 1024 ->
  JS.binary64 a.
Proof.
  intros Hm Hb He Hlt. unfold JS.binary64.
  pose proof (pow2_pos e) as Hp.
  destruct (Z.eq_dec m 0%Z) as [->|Hnz].
  - assert (H0 : a == 0) by (rewrite Hm; change (inject_Z 0) with 0; ring).
    exists 0. split; [apply round64_zero; exact H0|]. apply Qeq_sym. exact H0.
  - assert (Hm1 : 1 <= inject_Z m) by (apply inject_Z_ge_1; lia).
    assert (Ha : 0 < a).
    { rewrite Hm. apply Qmult_lt_0_compat; lra. }
    assert (Ha' : 0 < Qred a) by (rewrite Qred_correct; exact Ha).
    assert (Hm' : Qred a == inject_Z m * JS.pow2 e) by (rewrite Qred_correct; exact Hm).
    pose proof (nearest64_exact (Qred a) m e Ha' Hm' ltac:(lia) He) as Hex.
    rewrite (round64_above a Ha).
    destruct (round_pos_cases (Qred a)) as [[_ Hinf]|[-> _]].
    + exfalso. rewrite Hex, Qred_correct in Hinf. lra.
    + eexists. split; [reflexivity|]. rewrite Qred_correct, Hex. apply Qred_correct.
Qed.

(** The fraction of a binary64 value above zero is a binary64 value: the
    subtraction [x - Math.floor(x)] is exact. *)
Lemma fraction_binary64 (q : Q) :
  0 < q -> JS.binary64 q -> JS.binary64 (q - inject_Z (Qfloor q)).
Proof.
  intros Hq (v & Hv & Hvq).
  destruct (round64_grid q v Hq Hv) as (n & Hn & Hgrid).
  set (e := JS.exponent (Qred q)) in *.
  assert (He : (-1074 <= e)%Z) by apply exponent_min.
  assert (Hqn : q == inject_Z n * JS.pow2 e) by (rewrite <- Hvq; exact Hgrid).
  pose proof (pow2_pos e) as Hp.
  pose proof (Qfloor_le q) as Fl. pose proof (Qlt_floor q) as Fh.
  rewrite inject_Z_plus in Fh. change (inject_Z 1) with 1 in Fh.
  assert (HF : (0 <= Qfloor q)%Z).
  { assert (H : (Qfloor 0 <= Qfloor q)%Z) by (apply Qfloor_resp_le; lra). exact H. }
  destruct (Z_le_gt_dec 0%Z e) as [Hpos|Hneg].
  - assert (Hint : q == inject_Z (n * 2 ^ e)).
    { rewrite inject_Z_mult, <- pow2_Z by lia. exact Hqn. }
    assert (Hfl : Qfloor q = (n * 2 ^ e)%Z).
    { rewrite (Qfloor_comp _ _ Hint). apply Qfloor_Z. }
    assert (H0 : q - inject_Z (Qfloor q) == 0) by (rewrite Hfl; lra).
    exists 0. split; [apply round64_zero; exact H0|]. apply Qeq_sym. exact H0.
  - set (F := Qfloor q) in *.
    assert (Hone : JS.pow2 (- e) * JS.pow2 e == 1).
    { rewrite <- pow2_add. replace (- e + e)%Z with 0%Z by lia. reflexivity. }
    assert (Hfrac : q - inject_Z (F)
                    == inject_Z (n - F * 2 ^ (- e)) * JS.pow2 e).
    { unfold Z.sub. rewrite inject_Z_plus, inject_Z_opp, inject_Z_mult.
      rewrite <- pow2_Z by lia. rewrite Hqn.
      transitivity (inject_Z n * JS.pow2 e
                    - inject_Z (F) * (JS.pow2 (- e) * JS.pow2 e)).
      - rewrite Hone. ring.
      - ring. }
    apply (round64_exact _ (n - F * 2 ^ (- e)) e Hfrac); [|exact He|].
    + split.
      * destruct (Z_le_gt_dec 0%Z (n - F * 2 ^ (- e))%Z) as [H|H]; [exact H|exfalso].
        assert (Hm : inject_Z (n - F * 2 ^ (- e)) <= -1).
        { change (-1) with (inject_Z (-1)). rewrite <- Zle_Qle. lia. }
        assert (Hprod : inject_Z (n - F * 2 ^ (- e)) * JS.pow2 e
                        <= -1 * JS.pow2 e).
        { apply Qmult_le_compat_r; [exact Hm|lra]. }
        lra.
      * assert (H2 : (0 <= 2 ^ (- e))%Z) by (apply Z.pow_nonneg; lia).
        nia.
    + apply Qlt_le_trans with 1; [lra|].
      change 1 with (JS.pow2 0). apply pow2_le. lia.
Qed.

(** The binary64 values from 1/2 up to 1 are the multiples of [2^-53]
    there. *)
Lemma round64_grid_half (a v : Q) :
  1 # 2 <= a -> a < 1 -> JS.round64 a = Fin v ->
  exists n : Z, v == inject_Z n * (1 # 9007199254740992).
Proof.
  intros Hlo Hhi Hr.
  destruct (round64_grid a v ltac:(lra) Hr) as (n & _ & Hn).
  assert (Hi : JS.ilog2 (Qred a) = (-1)%Z).
  { apply ilog2_unique; rewrite Qred_correct.
    - change (JS.pow2 (-1)) with (1 # 2). exact Hlo.
    - change (JS.pow2 (-1 + 1)) with 1. exact Hhi. }
  unfold JS.exponent in Hn. rewrite Hi in Hn.
  change (JS.pow2 (Z.max (-1 - 52) (-1074))) with (1 # 9007199254740992) in Hn.
  exists n. exact Hn.
Qed.

(** ** Comparisons of finite numbers *)

Lemma lt_Fin (a b : Q) : JS.lt (Fin a) (Fin b) = true <-> a < b.
Proof.
  simpl. rewrite negb_true_iff. split.
  - intros H. apply Qnot_le_lt. intros Hle. apply Qle_bool_iff in Hle. congruence.
  - intros H. apply not_true_is_false. intros Hle. apply Qle_bool_iff in Hle. lra.
Qed.

Lemma lt_Fin_false (a b : Q) : JS.lt (Fin a) (Fin b) = false <-> b <= a.
Proof. simpl. rewrite negb_false_iff. apply Qle_bool_iff. Qed.

Lemma le_Fin (a b : Q) : JS.le (Fin a) (Fin b) = true <-> a <= b.
Proof. simpl. apply Qle_bool_iff. Qed.

Lemma le_Fin_false (a b : Q) : JS.le (Fin a) (Fin b) = false <-> b < a.
Proof.
  simpl. split.
  - intros H. apply Qnot_le_lt. intros Hle. apply Qle_bool_iff in Hle. congruence.
  - intros H. apply not_true_is_false. intros Hle. apply Qle_bool_iff in Hle. lra.
Qed.

Lemma truthy_Fin (q : Q) : JS.truthy (Fin q) = true <-> ~ q == 0.
Proof.
  simpl. rewrite negb_true_iff. split.
  - intros H Hq. apply Qeq_bool_iff in Hq. congruence.
  - intros H. apply not_true_is_false. intros Hq. apply Qeq_bool_iff in Hq. tauto.
Qed.

Lemma positive_truthy (x : number) : positive x -> JS.truthy x = true.
Proof.
  unfold positive. destruct x as [| |q|]; try discriminate; try reflexivity.
  intros H. apply lt_Fin in H. apply truthy_Fin. lra.
Qed.

Lemma positive_not_le (x : number) : positive x -> JS.le x (Fin 0) = false.
Proof.
  unfold positive. destruct x as [| |q|]; try discriminate; try reflexivity.
  intros H. apply lt_Fin in H. apply le_Fin_false. exact H.
Qed.

Lemma not_le_positive (x : number) :
  JS.truthy x = true -> JS.le x (Fin 0) = false -> positive x.
Proof.
  unfold positive. destruct x as [| |q|]; try discriminate; try reflexivity.
  intros _ H. apply le_Fin_false in H. apply lt_Fin. exact H.
Qed.

Lemma lt_irrefl (x : number) : JS.lt x x = false.
Proof.
  destruct x as [| |q|]; try reflexivity. apply lt_Fin_false. lra.
Qed.

Lemma le_refl_finite (x : number) : finite x -> JS.le x x = true.
Proof. intros [q ->]. apply le_Fin. lra. Qed.

Lemma not_lt_le (x y : number) :
  finite x -> finite y -> JS.lt x y = false -> JS.le y x = true.
Proof.
  intros [a ->] [b ->] H. apply lt_Fin_false in H. apply le_Fin. exact H.
Qed.

Lemma lt_le_trans (x y z : number) :
  finite x -> finite y -> finite z ->
  JS.lt x y = true -> JS.le y z = true -> JS.lt x z = true.
Proof.
  intros [a ->] [b ->] [c ->] H1 H2.
  apply lt_Fin in H1. apply le_Fin in H2. apply lt_Fin. lra.
Qed.

Lemma lt_le (x y : number) :
  finite x -> finite y -> JS.lt x y = true -> JS.le x y = true.
Proof.
  intros [a ->] [b ->] H. apply lt_Fin in H. apply le_Fin. lra.
Qed.

(** ** Arithmetic on finite numbers *)

Lemma sub_Z (a b : Z) :
  JS.sub (Fin (inject_Z a)) (Fin (inject_Z b)) = JS.round64 (inject_Z (a - b)).
Proof.
  cbn [JS.sub JS.neg JS.add]. apply round64_comp.
  unfold Z.sub. rewrite inject_Z_plus, inject_Z_opp. reflexivity.
Qed.

(** The difference of two integers at most [2^53] apart is exact. *)
Lemma sub_exact (a b : Z) :
  (Z.abs (a - b) <= 2 ^ 53)%Z ->
  JS.sub (Fin (inject_Z a)) (Fin (inject_Z b)) = Fin (inject_Z (a - b)).
Proof. intros H. rewrite sub_Z. apply round64_Z. lia. Qed.

Lemma div_Fin (a b : Q) : ~ b == 0 -> JS.div (Fin a) (Fin b) = JS.round64 (a / b).
Proof.
  intros Hb. cbn [JS.div]. destruct (Qeq_bool b 0) eqn:E; [|reflexivity].
  apply Qeq_bool_iff in E. tauto.
Qed.

Lemma Math_max_zero_above (v : Q) : 0 < v -> JS.Math_max (Fin 0) (Fin v) = Fin v.
Proof. intros H. unfold JS.Math_max. apply lt_Fin in H. rewrite H. reflexivity. Qed.

Lemma Math_max_zero_below (v : Q) : v <= 0 -> JS.Math_max (Fin 0) (Fin v) = Fin 0.
Proof. intros H. unfold JS.Math_max. apply lt_Fin_false in H. rewrite H. reflexivity. Qed.

Lemma pow2_53 : JS.pow2 (-53) == 1 # 9007199254740992.
Proof. reflexivity. Qed.

(** ** Derived metrics *)

Section Minutes.

Context {date : DateParser}.
Variables (aISO bISO : string) (a b : Z).
Hypothesis start_time_value : timeValue (getTime aISO) a.
Hypothesis end_time_value : timeValue (getTime bISO) b.

Lemma minutesBetween_timeValue :
  minutesBetween aISO bISO =
  JS.Math_max (Fin 0) (JS.div (JS.round64 (inject_Z (b - a))) (Fin 60000)).
Proof.
  destruct start_time_value as [Ha _], end_time_value as [Hb _].
  unfold minutesBetween. rewrite Ha, Hb, sub_Z. reflexivity.
Qed.

(** The difference of the two time values in binary64. *)
Lemma span_rounded :
  exists v : Q,
    JS.round64 (inject_Z (b - a)) = Fin v /\
    -18014398509481984 <= v /\ v <= 18014398509481984 /\
    ((b <= a)%Z -> v <= 0) /\
    ((a <= b)%Z -> 0 <= v) /\
    ((a < b)%Z ->
     inject_Z (b - a) - inject_Z (b - a) * JS.pow2 (-53) <= v /\
     v <= inject_Z (b - a) + inject_Z (b - a) * JS.pow2 (-53)).
Proof.
  destruct start_time_value as [_ Ha], end_time_value as [_ Hb].
  unfold maxTime in Ha, Hb.
  assert (Hlo : (- 2 ^ 54 <= b - a)%Z) by lia.
  assert (Hhi : (b - a <= 2 ^ 54)%Z) by lia.
  rewrite Zle_Qle in Hlo, Hhi.
  destruct (round64_between (inject_Z (- 2 ^ 54)) (inject_Z (2 ^ 54)) (inject_Z (b - a))
              (-18014398509481984) 18014398509481984 Hlo Hhi eq_refl eq_refl)
    as (v & Hv & V1 & V2).
  exists v. split; [exact Hv|]. split; [exact V1|]. split; [exact V2|].
  split; [|split].
  - intros Hba.
    assert (H0 : inject_Z (b - a) <= 0) by (apply inject_Z_nonpos; lia).
    pose proof (round64_mono _ _ H0) as M. rewrite Hv in M.
    apply (le_Fin v 0). exact M.
  - intros Hab.
    assert (H0 : 0 <= inject_Z (b - a)) by (apply inject_Z_nonneg; lia).
    pose proof (round64_mono _ _ H0) as M. rewrite Hv in M.
    apply (le_Fin 0 v). exact M.
  - intros Hab. apply round64_relative; [exact Hv|].
    apply Qle_trans with 1.
    + change 1 with (JS.pow2 0). apply pow2_le. lia.
    + apply inject_Z_ge_1. lia.
Qed.

End Minutes.

(** The division of a span by the milliseconds of a minute. *)
Lemma minutes_rounded (v : Q) :
  -18014398509481984 <= v -> v <= 18014398509481984 ->
  exists w : Q,
    JS.div (Fin v) (Fin 60000) = Fin w /\
    (v <= 0 -> w <= 0) /\
    (0 <= v -> 0 <= w) /\
    (1 # 2 <= v ->
     0 < w /\
     v / 60000 - v / 60000 * JS.pow2 (-53) <= w /\
     w <= v / 60000 + v / 60000 * JS.pow2 (-53)).
Proof.
  intros Hlo Hhi. rewrite div_Fin by discriminate.
  change (v / 60000) with (v * (1 # 60000)).
  assert (H1 : -18014398509481984 <= v * (1 # 60000)) by lra.
  assert (H2 : v * (1 # 60000) <= 18014398509481984) by lra.
  destruct (round64_between (-18014398509481984) 18014398509481984 (v * (1 # 60000))
              (-18014398509481984) 18014398509481984 H1 H2 eq_refl eq_refl)
    as (w & Hw & _ & _).
  exists w. split; [exact Hw|]. split; [|split].
  - intros Hv. assert (H0 : v * (1 # 60000) <= 0) by lra.
    pose proof (round64_mono _ _ H0) as M. rewrite Hw in M.
    apply (le_Fin w 0). exact M.
  - intros Hv. assert (H0 : 0 <= v * (1 # 60000)) by lra.
    pose proof (round64_mono _ _ H0) as M. rewrite Hw in M.
    apply (le_Fin 0 w). exact M.
  - intros Hv.
    assert (Hn : JS.pow2 (-1022) <= v * (1 # 60000)).
    { apply Qle_trans with (JS.pow2 (-17)); [apply pow2_le; lia|].
      change (JS.pow2 (-17)) with (1 # 131072). lra. }
    destruct (round64_relative _ _ Hw Hn) as [R1 R2].
    split; [|split; assumption].
    rewrite pow2_53 in R1. lra.
Qed.

Lemma Qfloor_between (w : Q) (k : Z) :
  inject_Z k <= w -> w < inject_Z k + 1 -> Qfloor w = k.
Proof.
  intros Hlo Hhi. pose proof (Qfloor_le w) as Fl.
  assert (H1 : (k <= Qfloor w)%Z).
  { rewrite <- (Qfloor_Z k). apply Qfloor_resp_le. exact Hlo. }
  assert (H2 : inject_Z (Qfloor w) < inject_Z (k + 1)).
  { rewrite inject_Z_plus. change (inject_Z 1) with 1. lra. }
  rewrite <- Zlt_Qlt in H2. lia.
Qed.

(** The whole minutes of a span below [2^37] minutes are the whole
    minutes of its binary64 quotient: the rounding is too small to reach
    the next minute. *)
Lemma floor_minutes (d : Z) :
  (0 <= d < 2 ^ 37 * 60000)%Z ->
  exists w : Q,
    JS.round64 (inject_Z d / 60000) = Fin w /\ Qfloor w = (d / 60000)%Z.
Proof.
  intros Hd.
  pose proof (Z.div_mod d 60000 ltac:(lia)) as Hdm.
  pose proof (Z.mod_pos_bound d 60000 ltac:(lia)) as Hj.
  set (k := (d / 60000)%Z) in *. set (j := (d mod 60000)%Z) in *.
  assert (Hk : (0 <= k < 2 ^ 37)%Z).
  { unfold k. split; [apply Z.div_pos; lia|apply Z.div_lt_upper_bound; lia]. }
  assert (Hx : inject_Z d / 60000 == inject_Z k + inject_Z j * (1 # 60000)).
  { rewrite Hdm, inject_Z_plus, inject_Z_mult. change (inject_Z 60000) with 60000.
    field. }
  assert (J0 : 0 <= inject_Z j) by (apply inject_Z_nonneg; lia).
  assert (J1 : inject_Z j <= 59999).
  { change 59999 with (inject_Z 59999). rewrite <- Zle_Qle. lia. }
  assert (K1 : inject_Z k <= 137438953471).
  { change 137438953471 with (inject_Z (2 ^ 37 - 1)). rewrite <- Zle_Qle. lia. }
  assert (K0 : 0 <= inject_Z k) by (apply inject_Z_nonneg; lia).
  assert (Hlo : inject_Z k <= inject_Z d / 60000) by (rewrite Hx; lra).
  assert (Hhi : inject_Z d / 60000 <= 137438953472) by (rewrite Hx; lra).
  destruct (round64_between (inject_Z k) 137438953472 _ (inject_Z k) 137438953472
              Hlo Hhi (round64_Z k ltac:(lia)) eq_refl) as (w & Hw & W1 & _).
  exists w. split; [exact Hw|]. apply Qfloor_between; [exact W1|].
  assert (E : inject_Z d / 60000 - JS.pow2 (37 - 54) <= w /\
              w <= inject_Z d / 60000 + JS.pow2 (37 - 54)).
  { apply round64_error; [exact Hw|lra| |lia].
    change (JS.pow2 37) with 137438953472. rewrite Hx. lra. }
  change (JS.pow2 (37 - 54)) with (1 # 131072) in E. destruct E as [_ E].
  rewrite Hx in E. lra.
Qed.

Section MinutesOfTimes.

Context {date : DateParser}.
Variables (aISO bISO : string) (a b : Z).
Hypothesis start_time_value : timeValue (getTime aISO) a.
Hypothesis end_time_value : timeValue (getTime bISO) b.

Lemma minutesBetween_not_after : (b <= a)%Z -> minutesBetween aISO bISO = Fin 0.
Proof.
  intros Hba.
  rewrite (minutesBetween_timeValue aISO bISO a b start_time_value end_time_value).
  destruct (span_rounded aISO bISO a b start_time_value end_time_value)
    as (v & Hv & V1 & V2 & Vneg & _).
  destruct (minutes_rounded v V1 V2) as (w & Hw & Wneg & _).
  rewrite Hv, Hw. apply Math_max_zero_below. auto.
Qed.

Lemma minutesBetween_after :
  (a < b)%Z -> exists w : Q, minutesBetween aISO bISO = Fin w /\ 0 < w.
Proof.
  intros Hab.
  rewrite (minutesBetween_timeValue aISO bISO a b start_time_value end_time_value).
  destruct (span_rounded aISO bISO a b start_time_value end_time_value)
    as (v & Hv & V1 & V2 & _ & _ & Vrel).
  destruct (minutes_rounded v V1 V2) as (w & Hw & _ & _ & Wrel).
  assert (Hd : 1 <= inject_Z (b - a)) by (apply inject_Z_ge_1; lia).
  destruct (Vrel Hab) as [R1 _]. rewrite pow2_53 in R1.
  assert (Hhalf : 1 # 2 <= v) by lra.
  destruct (Wrel Hhalf) as (W0 & _).
  exists w. rewrite Hv, Hw, (Math_max_zero_above w W0). auto.
Qed.

(** The whole minutes of a span below [2^37] minutes. *)
Lemma minutesBetween_whole :
  (a <= b)%Z -> (b - a < 2 ^ 37 * 60000)%Z ->
  exists w : Q,
    minutesBetween aISO bISO = Fin w /\ Qfloor w = ((b - a) / 60000)%Z.
Proof.
  intros Hab Hlt.
  rewrite (minutesBetween_timeValue aISO bISO a b start_time_value end_time_value).
  rewrite round64_Z by lia. rewrite div_Fin by discriminate.
  destruct (floor_minutes (b - a) ltac:(lia)) as (w & Hw & Hfl).
  rewrite Hw.
  destruct (Qlt_le_dec 0 w) as [Hpos|Hneg].
  - exists w. rewrite (Math_max_zero_above w Hpos). auto.
  - exists 0. rewrite (Math_max_zero_below w Hneg). split; [reflexivity|].
    assert (H0 : (0 <= (b - a) / 60000)%Z) by (apply Z.div_pos; lia).
    assert (H1 : (Qfloor w <= Qfloor 0)%Z) by (apply Qfloor_resp_le; exact Hneg).
    change (Qfloor 0) with 0%Z in H1 |- *. lia.
Qed.

End MinutesOfTimes.

(** C6. For two time values [minutesBetween] is a finite number that is
    never below 0. It is 0 when the end is not after the start, so also
    for one and the same instant. When the end is not before the start it
    is the span in minutes as binary64 arithmetic gives it: within a
    relative error of [2^-51] of (end - start) / 60000, and the binary64
    value of that quotient when the two are at most [2^53] milliseconds
    apart. *)
Theorem minutesBetween_clamped {date : DateParser} (aISO bISO : string) (a b : Z) :
  timeValue (getTime aISO) a ->
  timeValue (getTime bISO) b ->
  exists q : Q,
    minutesBetween aISO bISO = Fin q /\
    0 <= q /\
    ((b <= a)%Z -> minutesBetween aISO bISO = Fin 0) /\
    ((a <= b)%Z ->
     Qabs (q - inject_Z (b - a) / 60000) <= inject_Z (b - a) / 60000 * JS.pow2 (-51)) /\
    ((a <= b <= a + 2 ^ 53)%Z ->
     minutesBetween aISO bISO = JS.round64 (inject_Z (b - a) / 60000)).
Proof.
  intros Ta Tb. rewrite (minutesBetween_timeValue aISO bISO a b Ta Tb).
  destruct (span_rounded aISO bISO a b Ta Tb) as (v & Hv & V1 & V2 & Vneg & Vpos & Vrel).
  destruct (minutes_rounded v V1 V2) as (w & Hw & Wneg & Wpos & Wrel).
  destruct (Z_lt_le_dec a b) as [Hab|Hba].
  - assert (Hd : 1 <= inject_Z (b - a)) by (apply inject_Z_ge_1; lia).
    destruct (Vrel Hab) as [R1 R2]. rewrite pow2_53 in R1, R2.
    assert (Hhalf : 1 # 2 <= v) by lra.
    destruct (Wrel Hhalf) as (W0 & S1 & S2). rewrite pow2_53 in S1, S2.
    exists w. rewrite Hv, Hw, (Math_max_zero_above w W0).
    split; [reflexivity|]. split; [lra|]. split; [intros H; lia|]. split.
    + intros _. apply Qabs_diff_Qle_condition.
      change (JS.pow2 (-51)) with (1 # 2251799813685248).
      change (inject_Z (b - a) / 60000) with (inject_Z (b - a) * (1 # 60000)).
      change (v / 60000) with (v * (1 # 60000)) in S1, S2.
      split; lra.
    + intros Hnear. rewrite round64_Z in Hv by lia. injection Hv as <-.
      rewrite <- Hw. apply div_Fin. discriminate.
  - exists 0. rewrite Hv, Hw, (Math_max_zero_below w (Wneg (Vneg Hba))).
    split; [reflexivity|]. split; [lra|]. split; [reflexivity|].
    assert (Hsame : (a <= b)%Z -> (b - a = 0)%Z) by lia.
    split.
    + intros Hab. rewrite (Hsame Hab). apply Qabs_diff_Qle_condition.
      split; discriminate.
    + intros [Hab _]. rewrite (Hsame Hab). reflexivity.
Qed.

(** The end half an hour before the start: the duration is 0. *)
Lemma minutesBetween_clamped_witness :
  (timeValue (@getTime isoDate "2024-03-01T11:00:00Z") 1709290800000 /\
   timeValue (@getTime isoDate "2024-03-01T10:30:00Z") 1709289000000) /\
  exists q : Q,
    @minutesBetween isoDate "2024-03-01T11:00:00Z" "2024-03-01T10:30:00Z" = Fin q /\
    0 <= q /\
    ((1709289000000 <= 1709290800000)%Z ->
     @minutesBetween isoDate "2024-03-01T11:00:00Z" "2024-03-01T10:30:00Z" = Fin 0) /\
    ((1709290800000 <= 1709289000000)%Z ->
     Qabs (q - inject_Z (1709289000000 - 1709290800000) / 60000)
     <= inject_Z (1709289000000 - 1709290800000) / 60000 * JS.pow2 (-51)) /\
    ((1709290800000 <= 1709289000000 <= 1709290800000 + 2 ^ 53)%Z ->
     @minutesBetween isoDate "2024-03-01T11:00:00Z" "2024-03-01T10:30:00Z"
     = JS.round64 (inject_Z (1709289000000 - 1709290800000) / 60000)).
Proof.
  assert (Ta : timeValue (@getTime isoDate "2024-03-01T11:00:00Z") 1709290800000).
  { split; [reflexivity|unfold maxTime; lia]. }
  assert (Tb : timeValue (@getTime isoDate "2024-03-01T10:30:00Z") 1709289000000).
  { split; [reflexivity|unfold maxTime; lia]. }
  split; [split; assumption|].
  apply (@minutesBetween_clamped isoDate _ _ _ _ Ta Tb).
Defined.

Example minutesBetween_same_instant :
  @minutesBetween isoDate "2024-03-01T11:00:00Z" "2024-03-01T11:00:00Z" = Fin 0.
Proof. reflexivity. Qed.

Example minutesBetween_hour :
  @minutesBetween isoDate "2024-03-01T10:00:00Z" "2024-03-01T11:00:00Z" = Fin 60.
Proof. reflexivity. Qed.

(** Nine minutes and fifty-nine seconds: the quotient 599/60 is not a
    binary64 value, and the duration is the one nearest to it. *)
Example minutesBetween_rounds :
  @minutesBetween isoDate "2024-03-01T10:00:00Z" "2024-03-01T10:09:59Z"
  = Fin (5620117034989431 # 562949953421312) /\
  JS.toString (@minutesBetween isoDate "2024-03-01T10:00:00Z" "2024-03-01T10:09:59Z")
  = "9.983333333333333".
Proof. split; vm_compute; reflexivity. Qed.

Lemma paceMinPerKm_positive (d m : number) :
  positive d -> positive m -> paceMinPerKm (Some d) (Some m) = Some (JS.div m d).
Proof.
  intros Hd Hm. unfold paceMinPerKm. cbn [JS.falsy JS.toNumber].
  rewrite (positive_truthy d Hd), (positive_truthy m Hm).
  rewrite (positive_not_le d Hd), (positive_not_le m Hm). reflexivity.
Qed.

(** C5. [paceMinPerKm] is a total function whose only failure signal is
    [undefined]: it returns a number exactly when both arguments are
    numbers above zero, and that number is minutes / distance. For finite
    values it is the binary64 value of their quotient, within a relative
    error of [2^-53] of it in the normal range. pace(0, 10) and pace(5, 0)
    are undefined and pace(5, 25) is 5. *)
Theorem paceMinPerKm_defined_iff_positive :
  (forall (distanceKm minutes : option number) (r : number),
      paceMinPerKm distanceKm minutes = Some r <->
      exists d m : number,
        distanceKm = Some d /\ minutes = Some m /\
        positive d /\ positive m /\ r = JS.div m d) /\
  (forall distanceKm minutes : option number,
      paceMinPerKm distanceKm minutes = None <->
      ~ exists d m : number,
          distanceKm = Some d /\ minutes = Some m /\ positive d /\ positive m) /\
  (forall d m : Q,
      0 < d -> 0 < m ->
      paceMinPerKm (Some (Fin d)) (Some (Fin m)) = Some (JS.round64 (m / d))) /\
  (forall d m r : Q,
      0 < d -> 0 < m ->
      paceMinPerKm (Some (Fin d)) (Some (Fin m)) = Some (Fin r) ->
      JS.pow2 (-1022) <= m / d ->
      Qabs (r - m / d) <= m / d * JS.pow2 (-53)) /\
  paceMinPerKm (Some (Fin 0)) (Some (Fin 10)) = None /\
  paceMinPerKm (Some (Fin 5)) (Some (Fin 0)) = None /\
  paceMinPerKm (Some (Fin 5)) (Some (Fin 25)) = Some (Fin 5) /\
  paceMinPerKm (Some (Fin 24)) (Some (Fin 73))
  = Some (Fin (6849224433292629 # 2251799813685248)).
Proof.
  pose proof paceMinPerKm_positive as Hsome.
  assert (Hinv : forall (distanceKm minutes : option number) (r : number),
             paceMinPerKm distanceKm minutes = Some r ->
             exists d m : number,
               distanceKm = Some d /\ minutes = Some m /\
               positive d /\ positive m /\ r = JS.div m d).
  { intros [d|] [m|] r; unfold paceMinPerKm; cbn [JS.falsy JS.toNumber];
      try (rewrite ?orb_true_r; discriminate).
    destruct (JS.truthy d) eqn:Td; [|discriminate].
    destruct (JS.le d (Fin 0)) eqn:Ld; [discriminate|].
    destruct (JS.truthy m) eqn:Tm; [|discriminate].
    destruct (JS.le m (Fin 0)) eqn:Lm; [discriminate|].
    cbn. intros [= <-]. exists d, m.
    repeat split; auto using not_le_positive. }
  assert (Hfin : forall d m : Q,
             0 < d -> 0 < m ->
             paceMinPerKm (Some (Fin d)) (Some (Fin m)) = Some (JS.round64 (m / d))).
  { intros d m Hd Hm. rewrite Hsome by (apply lt_Fin; assumption).
    rewrite div_Fin by lra. reflexivity. }
  split; [|split; [|split; [|split; [|split; [|split; [|split]]]]]].
  - intros distanceKm minutes r. split; [apply Hinv|].
    intros (d & m & -> & -> & Hd & Hm & ->). apply Hsome; assumption.
  - intros distanceKm minutes. split.
    + intros Hnone (d & m & -> & -> & Hd & Hm).
      rewrite (Hsome d m Hd Hm) in Hnone. discriminate.
    + intros Hno. destruct (paceMinPerKm distanceKm minutes) as [r|] eqn:E; [|reflexivity].
      exfalso. apply Hno. destruct (Hinv _ _ _ E) as (d & m & ? & ? & ? & ? & _).
      exists d, m. auto.
  - exact Hfin.
  - intros d m r Hd Hm Hr Hn. rewrite (Hfin d m Hd Hm) in Hr. injection Hr as Hr.
    apply Qabs_diff_Qle_condition.
    destruct (round64_relative _ _ Hr Hn) as [R1 R2]. split; lra.
  - reflexivity.
  - reflexivity.
  - reflexivity.
  - reflexivity.
Qed.

Lemma paceMinPerKm_defined_iff_positive_witness :
  (0 < 4 /\ 0 < 30) /\
  paceMinPerKm (Some (Fin 4)) (Some (Fin 30)) = Some (JS.round64 (30 / 4)).
Proof.
  split; [split; reflexivity|].
  apply (proj1 (proj2 (proj2 paceMinPerKm_defined_iff_positive))); reflexivity.
Defined.

(** *** The text of a pace *)

Lemma toString_seconds (s : Z) :
  (0 <= s <= 60)%Z -> JS.padStart (JS.toString (Fin (inject_Z s))) 2 "0" = two_digits s.
Proof.
  intros Hs.
  assert (H : forall n : nat, (n <= 60)%nat ->
              JS.padStart (JS.toString (Fin (inject_Z (Z.of_nat n)))) 2 "0"
              = two_digits (Z.of_nat n)).
  { intros n Hn. do 61 (destruct n as [|n]; [vm_compute; reflexivity|]). lia. }
  rewrite <- (Z2Nat.id s) by lia. apply H. lia.
Qed.

Lemma fraction_bounds (q : Q) :
  0 <= q - inject_Z (Qfloor q) /\ q - inject_Z (Qfloor q) < 1.
Proof.
  pose proof (Qfloor_le q) as Hlo. pose proof (Qlt_floor q) as Hhi.
  rewrite inject_Z_plus in Hhi. change (inject_Z 1) with 1 in Hhi. split; lra.
Qed.

(** The two roundings of [(minPerKm - m) * 60] keep the order: bounds on
    the fraction of a minute give bounds on the seconds. *)
Lemma seconds_between (q lo hi lo1 hi1 lo2 hi2 : Q) :
  lo <= q - inject_Z (Qfloor q) -> q - inject_Z (Qfloor q) <= hi ->
  JS.round64 lo = Fin lo1 -> JS.round64 hi = Fin hi1 ->
  JS.round64 (lo1 * 60) = Fin lo2 -> JS.round64 (hi1 * 60) = Fin hi2 ->
  exists f p : Q,
    JS.round64 (q - inject_Z (Qfloor q)) = Fin f /\
    lo1 <= f /\ f <= hi1 /\
    JS.round64 (f * 60) = Fin p /\
    seconds_of q = Fin p /\
    lo2 <= p /\ p <= hi2.
Proof.
  intros Hlo Hhi E1 E2 E3 E4.
  destruct (round64_between lo hi _ lo1 hi1 Hlo Hhi E1 E2) as (f & Hf & F1 & F2).
  assert (G1 : lo1 * 60 <= f * 60) by lra.
  assert (G2 : f * 60 <= hi1 * 60) by lra.
  destruct (round64_between _ _ _ lo2 hi2 G1 G2 E3 E4) as (p & Hp & P1 & P2).
  exists f, p. repeat split; try assumption.
  unfold seconds_of. cbn [JS.Math_floor JS.sub JS.neg JS.add].
  fold (Qminus q (inject_Z (Qfloor q))). rewrite Hf. exact Hp.
Qed.


Lemma Math_round_bounds (p : Q) (lo hi : Z) :
  inject_Z lo - (1 # 2) <= p -> p < inject_Z hi + (1 # 2) ->
  (lo <= Qfloor (p + (1 # 2)) <= hi)%Z.
Proof.
  intros Hlo Hhi.
  pose proof (Qfloor_le (p + (1 # 2))) as Fl.
  pose proof (Qlt_floor (p + (1 # 2))) as Fh.
  split.
  - rewrite <- (Qfloor_Z lo). apply Qfloor_resp_le. lra.
  - assert (H : inject_Z (Qfloor (p + (1 # 2))) < inject_Z (hi + 1)).
    { rewrite inject_Z_plus. change (inject_Z 1) with 1. lra. }
    rewrite <- Zlt_Qlt in H. lia.
Qed.

Lemma fmtPace_Fin (q p : Q) :
  ~ q == 0 ->
  seconds_of q = Fin p ->
  0 <= p -> p <= 60 ->
  fmtPace (Some (Fin q)) =
  JS.toString (JS.Math_floor (Fin q)) ++ ":"
    ++ two_digits (Qfloor (p + (1 # 2))) ++ "/km".
Proof.
  intros Hq Hp P0 P1. unfold fmtPace. cbn [JS.falsy JS.toNumber].
  apply truthy_Fin in Hq. rewrite Hq. cbn [negb]. cbv zeta.
  change (JS.mul (JS.sub (Fin q) (JS.Math_floor (Fin q))) (Fin 60)) with (seconds_of q).
  rewrite Hp. cbn [JS.Math_round].
  rewrite toString_seconds; [reflexivity|].
  apply Math_round_bounds; change (inject_Z 0) with 0; change (inject_Z 60) with 60; lra.
Qed.



(** The same paces written as literals of the program text, which stand
    for the binary64 values nearest to them. *)
Example fmtPace_literals :
  fmtPace (Some (JS.literal 4.51)) = "4:31/km" /\
  fmtPace (Some (JS.literal 4.9999)) = "4:60/km" /\
  fmtPace (Some (JS.literal 5.99)) = "5:59/km" /\
  fmtPace (Some (JS.literal 12.5)) = "12:30/km".
Proof. repeat split; vm_compute; reflexivity. Qed.

(** C10. A pace whose fraction of a minute is at least 119/120 (59.5
    seconds) prints the seconds [60] next to the unchanged whole minutes:
    fmtPace(4.9999) is [4:60/km]. *)
Theorem fmtPace_sixty_seconds :
  (forall q : Q,
      119 # 120 <= q - inject_Z (Qfloor q) ->
      fmtPace (Some (Fin q)) = JS.toString (JS.Math_floor (Fin q)) ++ ":60/km") /\
  fmtPace (Some (Fin 4.9999)) = "4:60/km".
Proof.
  split; [|vm_compute; reflexivity].
  intros q Hq.
  assert (Hnz : ~ q == 0).
  { intros H0. rewrite (Qfloor_comp _ _ H0) in Hq.
    change (inject_Z (Qfloor 0)) with 0 in Hq. lra. }
  destruct (fraction_bounds q) as [_ F1].
  destruct (seconds_between q (119 # 120) 1
              (2233034815237871 # 2251799813685248) 1 (119 # 2) 60
              Hq (Qlt_le_weak _ _ F1) eq_refl eq_refl eq_refl eq_refl)
    as (f & p & _ & _ & _ & _ & Hs & P0 & P1).
  rewrite (fmtPace_Fin q p Hnz Hs) by lra.
  assert (H60 : Qfloor (p + (1 # 2)) = 60%Z).
  { assert (H : (60 <= Qfloor (p + (1 # 2)) <= 60)%Z).
    { apply Math_round_bounds; change (inject_Z 60) with 60; lra. }
    lia. }
  rewrite H60. reflexivity.
Qed.

Lemma fmtPace_sixty_seconds_witness :
  119 # 120 <= 9.995 - inject_Z (Qfloor 9.995) /\
  fmtPace (Some (Fin 9.995)) = JS.toString (JS.Math_floor (Fin 9.995)) ++ ":60/km".
Proof.
  split; [discriminate|].
  apply (proj1 fmtPace_sixty_seconds 9.995). discriminate.
Defined.

(** ** Temporal matcher *)

Section Scan.

Context {date : DateParser}.
Variable isoTime : string.

(** The loop after the observations [pre], with [b], the one at index [i],
    the nearest of them and nearer than those before it: the same holds of
    the result and [pre ++ l] after the turns on [l]. *)
Lemma pickClosest_scan (l pre : list WeatherObservation) (b : WeatherObservation) (i : nat) :
  (forall o, In o (pre ++ l)%list -> finite (distance isoTime o)) ->
  nth_error pre i = Some b ->
  (forall o, In o pre -> JS.le (distance isoTime b) (distance isoTime o) = true) ->
  (forall j o, (j < i)%nat -> nth_error pre j = Some o ->
               JS.lt (distance isoTime b) (distance isoTime o) = true) ->
  exists (i' : nat) (b' : WeatherObservation),
    fst (fold_left (pickClosest_step (getTime isoTime)) l (b, distance isoTime b)) = b' /\
    nth_error (pre ++ l)%list i' = Some b' /\
    (forall o, In o (pre ++ l)%list ->
               JS.le (distance isoTime b') (distance isoTime o) = true) /\
    (forall j o, (j < i')%nat -> nth_error (pre ++ l)%list j = Some o ->
                 JS.lt (distance isoTime b') (distance isoTime o) = true).
Proof.
  revert pre b i. induction l as [|o l IH]; intros pre b i Hfin Hb Hmin Hfirst.
  - exists i, b. rewrite app_nil_r. auto.
  - assert (Hi : (i < List.length pre)%nat) by (apply nth_error_Some; congruence).
    assert (Fb : finite (distance isoTime b)).
    { apply Hfin. apply in_or_app. left. eapply nth_error_In; eauto. }
    assert (Fo : finite (distance isoTime o)).
    { apply Hfin. apply in_or_app. right. left. reflexivity. }
    assert (Fpre : forall o', In o' pre -> finite (distance isoTime o')).
    { intros o' Ho'. apply Hfin. apply in_or_app. auto. }
    assert (Hassoc : ((pre ++ [o]) ++ l = pre ++ o :: l)%list).
    { rewrite <- app_assoc. reflexivity. }
    cbn [fold_left pickClosest_step].
    fold (distance isoTime o).
    destruct (JS.lt (distance isoTime o) (distance isoTime b)) eqn:E.
    + destruct (IH (pre ++ [o])%list o (List.length pre)) as (i' & b' & H).
      * rewrite Hassoc. exact Hfin.
      * rewrite nth_error_app2 by lia. rewrite Nat.sub_diag. reflexivity.
      * intros o' Ho'. apply in_app_or in Ho'. destruct Ho' as [Ho'|[<-|[]]].
        -- apply lt_le; [exact Fo | apply Fpre; exact Ho' |].
           apply (lt_le_trans _ (distance isoTime b)); auto.
        -- apply le_refl_finite; assumption.
      * intros j o' Hj Ho'. rewrite nth_error_app1 in Ho' by assumption.
        apply nth_error_In in Ho'.
        apply (lt_le_trans _ (distance isoTime b)); auto.
      * rewrite Hassoc in H. exists i', b'. exact H.
    + destruct (IH (pre ++ [o])%list b i) as (i' & b' & H).
      * rewrite Hassoc. exact Hfin.
      * rewrite nth_error_app1 by assumption. exact Hb.
      * intros o' Ho'. apply in_app_or in Ho'. destruct Ho' as [Ho'|[<-|[]]].
        -- auto.
        -- apply not_lt_le; assumption.
      * intros j o' Hj Ho'. rewrite nth_error_app1 in Ho' by lia. eauto.
      * rewrite Hassoc in H. exists i', b'. exact H.
Qed.

Lemma pickClosest_scan_all (observations : list WeatherObservation) :
  observations <> [] ->
  (forall o, In o observations -> finite (distance isoTime o)) ->
  exists (i : nat) (best : WeatherObservation),
    pickClosest observations isoTime = Some best /\
    nth_error observations i = Some best /\
    (forall o, In o observations ->
               JS.le (distance isoTime best) (distance isoTime o) = true) /\
    (forall j o, (j < i)%nat -> nth_error observations j = Some o ->
                 JS.lt (distance isoTime best) (distance isoTime o) = true).
Proof.
  intros Hne Hfin. destruct observations as [|first rest]; [congruence|].
  unfold pickClosest. fold (distance isoTime first).
  cbn [fold_left pickClosest_step]. fold (distance isoTime first).
  rewrite lt_irrefl.
  destruct (pickClosest_scan rest [first] first 0) as (i & best & H1 & H2 & H3 & H4).
  - exact Hfin.
  - reflexivity.
  - intros o [<-|[]]. apply le_refl_finite. apply Hfin. left. reflexivity.
  - intros j o Hj. lia.
  - exists i, best. rewrite H1. auto.
Qed.

End Scan.

(** The difference to a target at most [2^53] milliseconds away is
    exact. *)
Lemma distance_near {date : DateParser} (isoTime : string) (o : WeatherObservation)
    (a t : Z) :
  getTime (timestamp o) = Fin (inject_Z a) -> getTime isoTime = Fin (inject_Z t) ->
  (Z.abs (a - t) <= 2 ^ 53)%Z ->
  distance isoTime o = Fin (inject_Z (Z.abs (a - t))).
Proof.
  intros Ha Ht Hnear. unfold distance. rewrite Ha, Ht, (sub_exact a t Hnear).
  reflexivity.
Qed.

Lemma le_Z (a b : Z) : JS.le (Fin (inject_Z a)) (Fin (inject_Z b)) = true <-> (a <= b)%Z.
Proof. rewrite le_Fin, <- Zle_Qle. tauto. Qed.

Lemma lt_Z (a b : Z) : JS.lt (Fin (inject_Z a)) (Fin (inject_Z b)) = true <-> (a < b)%Z.
Proof. rewrite lt_Fin, <- Zlt_Qlt. tauto. Qed.

(** C1. On a sequence of observations that is not empty, whose times are
    whole milliseconds at most [2^53] of them (some 285,000 years) from
    the target, [pickClosest] returns the observation at some index [i]
    whose absolute time difference to the target is the least of the
    sequence, and every observation before index [i] is strictly farther:
    of several nearest observations it is the first. *)
Theorem pickClosest_nearest_earliest {date : DateParser}
    (observations : list WeatherObservation) (isoTime : string)
    (when : WeatherObservation -> Z) (target : Z) :
  observations <> [] ->
  getTime isoTime = Fin (inject_Z target) ->
  (forall o, In o observations ->
             getTime (timestamp o) = Fin (inject_Z (when o)) /\
             (Z.abs (when o - target) <= 2 ^ 53)%Z) ->
  exists (i : nat) (best : WeatherObservation),
    pickClosest observations isoTime = Some best /\
    nth_error observations i = Some best /\
    (forall o, In o observations ->
               (Z.abs (when best - target) <= Z.abs (when o - target))%Z) /\
    (forall j o, (j < i)%nat -> nth_error observations j = Some o ->
                 (Z.abs (when best - target) < Z.abs (when o - target))%Z).
Proof.
  intros Hne Ht Hwhen.
  assert (Hd : forall o, In o observations ->
            distance isoTime o = Fin (inject_Z (Z.abs (when o - target)))).
  { intros o Ho. destruct (Hwhen o Ho) as [Ha Hn]. apply distance_near; assumption. }
  destruct (pickClosest_scan_all isoTime observations Hne)
    as (i & best & Hpick & Hnth & Hmin & Hfirst).
  { intros o Ho. rewrite (Hd o Ho). eexists. reflexivity. }
  assert (Hbest : In best observations) by (eapply nth_error_In; eauto).
  exists i, best. repeat split; try assumption.
  - intros o Ho. specialize (Hmin o Ho).
    rewrite (Hd best Hbest), (Hd o Ho) in Hmin. apply le_Z in Hmin. exact Hmin.
  - intros j o Hj Ho. specialize (Hfirst j o Hj Ho).
    apply nth_error_In in Ho.
    rewrite (Hd best Hbest), (Hd o Ho) in Hfirst. apply lt_Z in Hfirst. exact Hfirst.
Qed.

(** Observations at 0 and 10 and the target at 5, as far from both. *)
Lemma pickClosest_nearest_earliest_witness :
  ([obs0; obs10] <> [] /\
   @getTime isoDate "1970-01-01T00:00:00.005Z" = Fin (inject_Z 5) /\
   (forall o, In o [obs0; obs10] ->
              @getTime isoDate (timestamp o)
              = Fin (inject_Z (milliseconds (isoDate (timestamp o)))) /\
              (Z.abs (milliseconds (isoDate (timestamp o)) - 5) <= 2 ^ 53)%Z)) /\
  exists (i : nat) (best : WeatherObservation),
    @pickClosest isoDate [obs0; obs10] "1970-01-01T00:00:00.005Z" = Some best /\
    nth_error [obs0; obs10] i = Some best /\
    (forall o, In o [obs0; obs10] ->
               (Z.abs (milliseconds (isoDate (timestamp best)) - 5)
                <= Z.abs (milliseconds (isoDate (timestamp o)) - 5))%Z) /\
    (forall j o, (j < i)%nat -> nth_error [obs0; obs10] j = Some o ->
                 (Z.abs (milliseconds (isoDate (timestamp best)) - 5)
                  < Z.abs (milliseconds (isoDate (timestamp o)) - 5))%Z).
Proof.
  assert (Hwhen : forall o, In o [obs0; obs10] ->
            @getTime isoDate (timestamp o)
            = Fin (inject_Z (milliseconds (isoDate (timestamp o)))) /\
            (Z.abs (milliseconds (isoDate (timestamp o)) - 5) <= 2 ^ 53)%Z).
  { intros o [<-|[<-|[]]]; split; try reflexivity; vm_compute; discriminate. }
  split; [split; [discriminate|split; [reflexivity|exact Hwhen]]|].
  apply (@pickClosest_nearest_earliest isoDate [obs0; obs10]
           "1970-01-01T00:00:00.005Z"
           (fun o => milliseconds (isoDate (timestamp o))) 5).
  - discriminate.
  - reflexivity.
  - exact Hwhen.
Defined.

(** Without the bound the nearest observation can be missed. Of two
    observations [2^53 + 1] and [2^53] milliseconds before the target the
    first is returned though the second is nearer: both differences are
    [2^53] in binary64, and the second does not compare below the
    first. *)
Lemma pickClosest_far_apart :
  @getTime isoDate lastInstant = Fin (inject_Z 8640000000000000) /\
  @getTime isoDate (timestamp farA) = Fin (inject_Z (-367199254740993)) /\
  @getTime isoDate (timestamp farB) = Fin (inject_Z (-367199254740992)) /\
  @pickClosest isoDate [farA; farB] lastInstant = Some farA /\
  In farB [farA; farB] /\
  ~ (Z.abs (-367199254740993 - 8640000000000000)
     <= Z.abs (-367199254740992 - 8640000000000000))%Z.
Proof.
  repeat split; try (vm_compute; reflexivity).
  - right. left. reflexivity.
  - intros H. vm_compute in H. apply H. reflexivity.
Qed.

Example pickClosest_seven :
  @pickClosest isoDate [obs0; obs5; obs10] "1970-01-01T00:00:00.007Z" = Some obs5.
Proof. reflexivity. Qed.

Example pickClosest_tie :
  @pickClosest isoDate [obs0; obs10] "1970-01-01T00:00:00.005Z" = Some obs0 /\
  @pickClosest isoDate [obs10; obs0] "1970-01-01T00:00:00.005Z" = Some obs10.
Proof. split; reflexivity. Qed.

Example pickClosest_empty :
  @pickClosest isoDate [] "1970-01-01T00:00:00.005Z" = None.
Proof. reflexivity. Qed.

(** ** Date filter *)

Lemma kept_all {A : Type} (P : A -> Prop) (l : list A) :
  (forall x, In x l -> P x) -> kept P l l.
Proof.
  induction l as [|x l IH]; intros H; constructor.
  - apply H. left. reflexivity.
  - apply IH. intros y Hy. apply H. right. exact Hy.
Qed.

Lemma kept_filter {A : Type} (P : A -> Prop) (p : A -> bool) (l : list A) :
  (forall x, In x l -> (p x = true <-> P x)) -> kept P l (List.filter p l).
Proof.
  induction l as [|x l IH]; intros H; cbn [List.filter].
  - constructor.
  - assert (IH' : kept P l (List.filter p l)).
    { apply IH. intros y Hy. apply H. right. exact Hy. }
    destruct (p x) eqn:E.
    + apply kept_take; [|exact IH']. apply H; [left; reflexivity|exact E].
    + apply kept_skip; [|exact IH']. intros HP.
      apply H in HP; [congruence|left; reflexivity].
Qed.

(** [kept P l] names one list. *)
Lemma kept_unique {A : Type} (P : A -> Prop) (l l1 l2 : list A) :
  kept P l l1 -> kept P l l2 -> l1 = l2.
Proof.
  intros H1. revert l2. induction H1 as [|x l l1 Hx H1 IH|x l l1 Hx H1 IH];
    intros l2 H2; inversion H2; subst; try tauto.
  - f_equal. apply IH. assumption.
  - apply IH. assumption.
Qed.

Lemma emptyString_true (s : string) : emptyString s = true <-> s = "".
Proof. apply String.eqb_eq. Qed.

Lemma emptyString_false (s : string) : emptyString s = false <-> s <> "".
Proof. apply String.eqb_neq. Qed.

(** C2. For rows with valid start times and a date range whose bounds are
    absent or valid instants, [filtered] is the subsequence of the rows
    whose start time [t] has lower <= t <= upper, an absent bound not
    constraining; with both bounds absent it is the list of rows itself. *)
Theorem filtered_in_range {date : DateParser}
    (rows : list UISession) (fromDate toDate : string)
    (when : UISession -> Q) (lower upper : option Q) :
  (forall r, In r rows -> getTime (start_time (session r)) = Fin (when r)) ->
  reads fromDate lower ->
  reads toDate upper ->
  kept (fun r => inRange lower upper (when r)) rows (filtered rows fromDate toDate) /\
  filtered rows "" "" = rows.
Proof.
  intros Hwhen Hlo Hup. split; [|reflexivity].
  unfold filtered.
  destruct (emptyString fromDate && emptyString toDate) eqn:Eboth.
  - apply andb_true_iff in Eboth. destruct Eboth as [Ef Et].
    apply emptyString_true in Ef, Et. subst.
    destruct lower as [l|]; [destruct Hlo; congruence|].
    destruct upper as [u|]; [destruct Hup; congruence|].
    apply kept_all. intros r _. split; exact I.
  - apply kept_filter. intros r Hr. rewrite (Hwhen r Hr).
    unfold inRange, JS.ge. rewrite andb_true_iff.
    assert (Hl : JS.le (if emptyString fromDate then NegInfinity else getTime fromDate)
                   (Fin (when r)) = true <->
                 match lower with Some l => l <= when r | None => True end).
    { destruct lower as [l|]; cbn [reads] in Hlo.
      - destruct Hlo as [Hne Hl]. apply emptyString_false in Hne.
        rewrite Hne, Hl. apply le_Fin.
      - subst. cbn. tauto. }
    assert (Hu : JS.le (Fin (when r))
                   (if emptyString toDate then Infinity else getTime toDate) = true <->
                 match upper with Some u => when r <= u | None => True end).
    { destruct upper as [u|]; cbn [reads] in Hup.
      - destruct Hup as [Hne Hu]. apply emptyString_false in Hne.
        rewrite Hne, Hu. apply le_Fin.
      - subst. cbn. tauto. }
    tauto.
Qed.

(** Rows that start on the 1st, the 5th and the 10th of March, and the
    range from the 5th to the 10th. *)
Lemma filtered_in_range_witness :
  ((forall r, In r march ->
              @getTime isoDate (start_time (session r))
              = Fin (instant (isoDate (start_time (session r))))) /\
   @reads isoDate "2024-03-05" (Some (inject_Z 1709596800000)) /\
   @reads isoDate "2024-03-10" (Some (inject_Z 1710028800000))) /\
  kept (fun r => inRange (Some (inject_Z 1709596800000)) (Some (inject_Z 1710028800000))
                   (instant (isoDate (start_time (session r)))))
       march (@filtered isoDate march "2024-03-05" "2024-03-10") /\
  @filtered isoDate march "" "" = march.
Proof.
  assert (Hwhen : forall r, In r march ->
            @getTime isoDate (start_time (session r))
            = Fin (instant (isoDate (start_time (session r))))).
  { intros r [<-|[<-|[<-|[]]]]; reflexivity. }
  assert (Hlo : @reads isoDate "2024-03-05" (Some (inject_Z 1709596800000))).
  { split; [discriminate|reflexivity]. }
  assert (Hup : @reads isoDate "2024-03-10" (Some (inject_Z 1710028800000))).
  { split; [discriminate|reflexivity]. }
  split; [split; [exact Hwhen|split; [exact Hlo|exact Hup]]|].
  apply (@filtered_in_range isoDate march "2024-03-05" "2024-03-10"
           (fun r => instant (isoDate (start_time (session r))))
           (Some (inject_Z 1709596800000)) (Some (inject_Z 1710028800000))
           Hwhen Hlo Hup).
Defined.

Example filtered_inclusive :
  @filtered isoDate march "2024-03-05" "2024-03-10" = [row_of rest2; row_of run3] /\
  @filtered isoDate march "2024-03-05" "" = [row_of rest2; row_of run3] /\
  @filtered isoDate march "" "2024-03-05" = [row_of run1; row_of rest2] /\
  @filtered isoDate march "2024-03-10" "2024-03-05" = [].
Proof. repeat split; reflexivity. Qed.

(** ** Enrichment *)

Lemma Array_map_from_cons {A B : Type} (f : A -> nat -> Eff B)
    (x : A) (xs : list A) (idx : nat) (g : Random) :
  fst (Array_map_from f idx (x :: xs) g) =
  fst (f x idx g) :: fst (Array_map_from f (S idx) xs (snd (f x idx g))).
Proof.
  cbn [Array_map_from]. unfold bind, ret.
  destruct (f x idx g) as [y g1]. cbn [fst snd].
  destruct (Array_map_from f (S idx) xs g1) as [ys g2]. reflexivity.
Qed.

(** The result has an element for each element of the array, in order:
    the one at index [i] is what the callback returns on the element at
    index [i], run at some point of the same sequence of random values. *)
Lemma Array_map_from_nth {A B : Type} (f : A -> nat -> Eff B) (xs : list A) :
  (forall x i g, outcomes (snd (f x i g)) = outcomes g) ->
  forall (idx : nat) (g : Random),
    List.length (fst (Array_map_from f idx xs g)) = List.length xs /\
    forall (i : nat) (x : A),
      nth_error xs i = Some x ->
      exists g' : Random,
        outcomes g' = outcomes g /\
        nth_error (fst (Array_map_from f idx xs g)) i = Some (fst (f x (idx + i)%nat g')).
Proof.
  intros Hf. induction xs as [|x0 xs IH]; intros idx g.
  - split; [reflexivity|]. intros [|i] x; discriminate.
  - rewrite Array_map_from_cons.
    destruct (IH (S idx) (snd (f x0 idx g))) as [Hlen Hnth].
    split; [cbn [List.length]; congruence|].
    intros [|i] x Hx; cbn [nth_error] in Hx |- *.
    + injection Hx as <-. exists g. rewrite Nat.add_0_r. auto.
    + destruct (Hnth i x Hx) as (g' & Hg & Hg'). exists g'.
      rewrite Hg'. rewrite Nat.add_succ_comm. split; [|reflexivity].
      rewrite Hg. apply Hf.
Qed.

Lemma cyclic_Some (table : list string) (idx : nat) :
  table <> [] -> exists label, cyclic table idx = Some label.
Proof.
  intros Hne. unfold cyclic.
  destruct (nth_error table (idx mod List.length table)) as [label|] eqn:E.
  - eauto.
  - apply nth_error_None in E.
    assert (List.length table <> 0%nat) by (destruct table; [congruence|discriminate]).
    pose proof (Nat.mod_upper_bound idx (List.length table)). lia.
Qed.

Section EnrichmentFacts.

Context {date : DateParser}.
Variables coachTable trainingTable : list string.

(** What the callback returns, whatever the random values are. *)
Lemma enrich_fields (s : Session) (idx : nat) (g : Random) :
  let r := fst (enrich coachTable trainingTable s idx g) in
  session r = with_spo2_pct s (spo2_pct (session r)) /\
  coach r = cyclic coachTable idx /\
  training_type r = cyclic trainingTable idx /\
  duration_minutes r = Some (minutesBetween (start_time s) (end_time s)) /\
  pace_min_per_km r =
    paceMinPerKm (distance_km s) (Some (minutesBetween (start_time s) (end_time s))).
Proof.
  unfold enrich, spo2_or_dummy, bind, ret, Math_random.
  destruct (spo2_pct s); cbn [fst session coach training_type duration_minutes
                              pace_min_per_km spo2_pct with_spo2_pct]; auto.
Qed.

(** The fields of the session that the row takes over as they are. *)
Lemma enrich_session (s : Session) (idx : nat) (g : Random) :
  let s' := session (fst (enrich coachTable trainingTable s idx g)) in
  id s' = id s /\ start_time s' = start_time s /\ end_time s' = end_time s /\
  sport s' = sport s /\ distance_km s' = distance_km s /\
  calories s' = calories s /\ avg_hr s' = avg_hr s /\ steps s' = steps s /\
  lat s' = lat s /\ lon s' = lon s.
Proof.
  unfold enrich, spo2_or_dummy, bind, ret, Math_random.
  destruct (spo2_pct s); cbn [fst session with_spo2_pct id start_time end_time sport
                              distance_km calories avg_hr steps lat lon];
    repeat split; reflexivity.
Qed.

Lemma enrich_outcomes (s : Session) (idx : nat) (g : Random) :
  outcomes (snd (enrich coachTable trainingTable s idx g)) = outcomes g.
Proof.
  unfold enrich, spo2_or_dummy, bind, ret, Math_random.
  destruct (spo2_pct s); reflexivity.
Qed.

Lemma enrich_spo2 (s : Session) (idx : nat) (g : Random) :
  spo2_pct (session (fst (enrich coachTable trainingTable s idx g))) =
  match spo2_pct s with
  | Some v => Some v
  | None =>
      Some (JS.Math_floor (JS.add (Fin 94) (JS.mul (outcomes g (drawn g)) (Fin 6))))
  end.
Proof.
  unfold enrich, spo2_or_dummy, bind, ret, Math_random.
  destruct (spo2_pct s); reflexivity.
Qed.

Lemma coach_Array_map_from (xs : list Session) :
  forall (idx : nat) (g : Random),
    map coach (fst (Array_map_from (enrich coachTable trainingTable) idx xs g)) =
    map (cyclic coachTable) (seq idx (List.length xs)).
Proof.
  induction xs as [|x xs IH]; intros idx g; [reflexivity|].
  rewrite Array_map_from_cons. cbn [map List.length seq].
  rewrite IH. f_equal. apply enrich_fields.
Qed.

(** C3. With label tables that are not empty the enrichment returns one
    row for each session, in the order of the sessions: the row at index
    [i] has the id, the times, the sport, the distance, the calories, the
    heart rate, the steps and the position of the session at index [i],
    the coach at index [i mod |coachTable|] of the coach table and the
    training type at index [i mod |trainingTable|] of the training table.
    Five sessions and three coaches give the coaches of indices
    0, 1, 2, 0, 1. *)
Theorem enriched_order_and_labels (data : list Session) (g : Random) :
  coachTable <> [] ->
  trainingTable <> [] ->
  List.length (fst (enrichedWith coachTable trainingTable data g)) = List.length data /\
  (forall (i : nat) (s : Session),
      nth_error data i = Some s ->
      exists (r : UISession) (c t : string),
        nth_error (fst (enrichedWith coachTable trainingTable data g)) i = Some r /\
        id (session r) = id s /\
        start_time (session r) = start_time s /\
        end_time (session r) = end_time s /\
        sport (session r) = sport s /\
        distance_km (session r) = distance_km s /\
        calories (session r) = calories s /\
        avg_hr (session r) = avg_hr s /\
        steps (session r) = steps s /\
        lat (session r) = lat s /\
        lon (session r) = lon s /\
        nth_error coachTable (i mod List.length coachTable) = Some c /\
        coach r = Some c /\
        nth_error trainingTable (i mod List.length trainingTable) = Some t /\
        training_type r = Some t) /\
  (forall c0 c1 c2 : string,
      coachTable = [c0; c1; c2] ->
      List.length data = 5%nat ->
      map coach (fst (enrichedWith coachTable trainingTable data g)) =
      [Some c0; Some c1; Some c2; Some c0; Some c1]).
Proof.
  intros Hc Ht. unfold enrichedWith, Array_map.
  destruct (Array_map_from_nth (enrich coachTable trainingTable) data enrich_outcomes 0 g)
    as [Hlen Hnth].
  split; [exact Hlen|]. split.
  - intros i s Hs. destruct (Hnth i s Hs) as (g' & _ & Hr). cbn [Nat.add] in Hr.
    destruct (cyclic_Some coachTable i Hc) as [c Hcy].
    destruct (cyclic_Some trainingTable i Ht) as [t Hty].
    exists (fst (enrich coachTable trainingTable s i g')), c, t.
    destruct (enrich_fields s i g') as (_ & Hco & Htr & _).
    destruct (enrich_session s i g')
      as (F1 & F2 & F3 & F4 & F5 & F6 & F7 & F8 & F9 & F10).
    split; [exact Hr|].
    do 10 (split; [assumption|]).
    split; [exact Hcy|]. split; [congruence|].
    split; [exact Hty|]. congruence.
  - intros c0 c1 c2 Heq H5. rewrite coach_Array_map_from, H5, Heq. reflexivity.
Qed.

End EnrichmentFacts.

(** The page's own tables and five sessions. *)
Lemma enriched_order_and_labels_witness :
  (coaches <> [] /\ trainings <> []) /\
  List.length (fst (@enriched isoDate five tenths)) = 5%nat /\
  map coach (fst (@enriched isoDate five tenths)) =
  [Some "Sarah Eastern"; Some "John Mitchell"; Some "Linda Carter";
   Some "Sarah Eastern"; Some "John Mitchell"].
Proof.
  split; [split; discriminate|].
  destruct (@enriched_order_and_labels isoDate coaches trainings five tenths)
    as (Hlen & _ & Hcycle); [discriminate|discriminate|].
  split; [exact Hlen|].
  apply (Hcycle "Sarah Eastern" "John Mitchell" "Linda Carter"); reflexivity.
Defined.

Example enriched_five_labels :
  map (fun r => (id (session r), coach r, training_type r))
      (fst (@enriched isoDate five tenths)) =
  [(1%Z, Some "Sarah Eastern", Some "Strength");
   (2%Z, Some "John Mitchell", Some "Cardio");
   (3%Z, Some "Linda Carter", Some "Flexibility");
   (4%Z, Some "Sarah Eastern", Some "Team Practice");
   (5%Z, Some "John Mitchell", Some "Tempo")].
Proof. vm_compute. reflexivity. Qed.

Example enriched_two_metrics :
  map (fun r => (duration_minutes r, pace_min_per_km r))
      (fst (@enriched isoDate [run1; rest2] tenths)) =
  [(Some (Fin 60), Some (Fin 6)); (Some (Fin 45), None)].
Proof. vm_compute. reflexivity. Qed.

(** An invented value [Math.floor(base + Math.random() * scale)]: the two
    roundings and the floor keep the order, so bounds on the random value
    give bounds on the result. *)
Lemma invented_between (base scale q lo hi lo1 hi1 lo2 hi2 : Q) :
  0 <= scale -> lo <= q -> q <= hi ->
  JS.round64 (lo * scale) = Fin lo1 -> JS.round64 (hi * scale) = Fin hi1 ->
  JS.round64 (base + lo1) = Fin lo2 -> JS.round64 (base + hi1) = Fin hi2 ->
  exists z : Z,
    JS.Math_floor (JS.add (Fin base) (JS.mul (Fin q) (Fin scale))) = Fin (inject_Z z) /\
    (Qfloor lo2 <= z <= Qfloor hi2)%Z.
Proof.
  intros Hs Hlo Hhi E1 E2 E3 E4.
  assert (G1 : lo * scale <= q * scale) by (apply Qmult_le_compat_r; assumption).
  assert (G2 : q * scale <= hi * scale) by (apply Qmult_le_compat_r; assumption).
  destruct (round64_between _ _ _ lo1 hi1 G1 G2 E1 E2) as (v & Hv & V1 & V2).
  assert (K1 : base + lo1 <= base + v) by lra.
  assert (K2 : base + v <= base + hi1) by lra.
  destruct (round64_between _ _ _ lo2 hi2 K1 K2 E3 E4) as (w & Hw & W1 & W2).
  exists (Qfloor w). cbn [JS.mul JS.add]. rewrite Hv. cbn [JS.add]. rewrite Hw.
  split; [reflexivity|]. split; apply Qfloor_resp_le; assumption.
Qed.

Lemma spo2_dummy_range (q : Q) :
  0 <= q -> q < 1 ->
  exists z : Z,
    (94 <= z <= 100)%Z /\
    JS.Math_floor (JS.add (Fin 94) (JS.mul (Fin q) (Fin 6))) = Fin (inject_Z z).
Proof.
  intros H0 H1.
  destruct (invented_between 94 6 q 0 1 0 6 94 100) as (z & Hz & Hr);
    try reflexivity; try lra; try discriminate.
  exists z. split; [exact Hr|exact Hz].
Qed.

Lemma spo2_dummy_range_below (q : Q) :
  0 <= q -> q <= 1 - JS.pow2 (-49) ->
  exists z : Z,
    (94 <= z <= 99)%Z /\
    JS.Math_floor (JS.add (Fin 94) (JS.mul (Fin q) (Fin 6))) = Fin (inject_Z z).
Proof.
  intros H0 H1.
  rounded (JS.round64 ((1 - JS.pow2 (-49)) * 6)) E1.
  match type of E1 with _ = Fin ?c => rounded (JS.round64 (94 + c)) E2 end.
  destruct (invented_between 94 6 q 0 (1 - JS.pow2 (-49)) 0 _ 94 _
              ltac:(discriminate) H0 H1 eq_refl E1 eq_refl E2) as (z & Hz & Hr).
  exists z. split; [exact Hr|exact Hz].
Qed.

(** C9. The enriched row of a session keeps the session's blood-oxygen
    value whenever the session has one, whatever the value (0 too). Only
    when the session has none does the row get an invented value: for
    random values from 0 up to but not including 1 it is an integer from
    94 to 100, and from 94 to 99 when the random values are at most
    [1 - 2^-49]. The greatest values [Math.random()] can yield give 100:
    for [1 - 2^-52] the sum [94 + r * 6] is 100 in binary64. *)
Theorem enriched_keeps_spo2 :
  (forall (date : DateParser) (data : list Session) (g : Random) (i : nat) (s : Session),
      nth_error data i = Some s ->
      exists r : UISession,
        nth_error (fst (enriched data g)) i = Some r /\
        (forall v : number, spo2_pct s = Some v -> spo2_pct (session r) = Some v) /\
        (spo2_pct s = None ->
         (forall k : nat, exists q : Q, outcomes g k = Fin q /\ 0 <= q /\ q < 1) ->
         exists z : Z,
           (94 <= z <= 100)%Z /\ spo2_pct (session r) = Some (Fin (inject_Z z))) /\
        (spo2_pct s = None ->
         (forall k : nat,
             exists q : Q, outcomes g k = Fin q /\ 0 <= q /\ q <= 1 - JS.pow2 (-49)) ->
         exists z : Z,
           (94 <= z <= 99)%Z /\ spo2_pct (session r) = Some (Fin (inject_Z z)))) /\
  map (fun r => spo2_pct (session r)) (fst (@enriched isoDate [run1] nearlyOne))
  = [Some (Fin 100)].
Proof.
  split; [|vm_compute; reflexivity].
  intros date data g i s Hs. unfold enriched, enrichedWith, Array_map.
  destruct (Array_map_from_nth (enrich coaches trainings) data
              (enrich_outcomes coaches trainings) 0 g) as [_ Hnth].
  destruct (Hnth i s Hs) as (g' & Hg & Hr). cbn [Nat.add] in Hr.
  eexists. split; [exact Hr|]. rewrite enrich_spo2. split; [|split].
  - intros v ->. reflexivity.
  - intros -> Hrand. rewrite Hg.
    destruct (Hrand (drawn g')) as (q & -> & H0 & H1).
    destruct (spo2_dummy_range q H0 H1) as (z & Hz & ->). eauto.
  - intros -> Hrand. rewrite Hg.
    destruct (Hrand (drawn g')) as (q & -> & H0 & H1).
    destruct (spo2_dummy_range_below q H0 H1) as (z & Hz & ->). eauto.
Qed.

(** The second of the five sessions has a blood-oxygen value of 0. *)
Lemma enriched_keeps_spo2_witness :
  nth_error five 1 = Some rest2 /\
  exists r : UISession,
    nth_error (fst (@enriched isoDate five tenths)) 1 = Some r /\
    (forall v : number, spo2_pct rest2 = Some v -> spo2_pct (session r) = Some v) /\
    (spo2_pct rest2 = None ->
     (forall k : nat, exists q : Q, outcomes tenths k = Fin q /\ 0 <= q /\ q < 1) ->
     exists z : Z,
       (94 <= z <= 100)%Z /\ spo2_pct (session r) = Some (Fin (inject_Z z))) /\
    (spo2_pct rest2 = None ->
     (forall k : nat,
         exists q : Q, outcomes tenths k = Fin q /\ 0 <= q /\ q <= 1 - JS.pow2 (-49)) ->
     exists z : Z,
       (94 <= z <= 99)%Z /\ spo2_pct (session r) = Some (Fin (inject_Z z))).
Proof.
  split; [reflexivity|].
  apply (proj1 enriched_keeps_spo2 isoDate five tenths 1%nat rest2). reflexivity.
Defined.

Example enriched_five_spo2 :
  map (fun r => spo2_pct (session r)) (fst (@enriched isoDate five tenths)) =
  [Some (Fin 94); Some (Fin 0); Some (Fin 97); Some (Fin 96); Some (Fin 97)].
Proof. vm_compute. reflexivity. Qed.

(** ** Column visibility *)

(** C7. [toggleCol k] inverts the boolean of the key [k] and leaves the
    boolean of every other key as it was; toggling the same key twice gives
    every key its first value back. *)
Theorem toggleCol_inverts_one_key (st : State) (k : ColumnKey) :
  visibleCols (toggleCol k st) k = negb (visibleCols st k) /\
  (forall k' : ColumnKey, k' <> k -> visibleCols (toggleCol k st) k' = visibleCols st k') /\
  (forall k' : ColumnKey,
      visibleCols (toggleCol k (toggleCol k st)) k' = visibleCols st k').
Proof.
  unfold toggleCol, setVisibleCols, spread_with. cbn [visibleCols].
  split; [|split].
  - destruct (decide (k = k)); [reflexivity|congruence].
  - intros k' Hk'. destruct (decide (k' = k)); [congruence|reflexivity].
  - intros k'. destruct (decide (k = k)); [|congruence].
    destruct (decide (k' = k)) as [->|]; [|reflexivity].
    apply negb_involutive.
Qed.

Lemma toggleCol_inverts_one_key_witness :
  col_weather <> col_pace /\
  visibleCols (toggleCol col_pace initial) col_weather = visibleCols initial col_weather.
Proof.
  split; [discriminate|].
  apply (proj1 (proj2 (toggleCol_inverts_one_key initial col_pace))). discriminate.
Defined.

Example toggleCol_pace :
  map (visibleCols (toggleCol col_pace initial)) [col_id; col_pace; col_weather]
  = [true; true; true] /\
  map (visibleCols (toggleCol col_pace (toggleCol col_pace initial)))
      [col_id; col_pace; col_weather]
  = [true; false; true].
Proof. split; reflexivity. Qed.

(** ** Row selection and the weather cache *)

Lemma onRowClick_miss (s : UISession) (st : State) :
  weatherById st !! id (session s) = None ->
  exists resume : Fetch -> State -> State,
    onRowClick s st = Await (setSelected (Some s) st) (id (session s)) resume /\
    forall (e : string) (now : State),
      resume (Rejected e) now = console_error "weather fetch failed" e now.
Proof.
  intros Hmiss. unfold onRowClick. rewrite Hmiss. eexists. split; reflexivity.
Qed.

Lemma clicks_all_rejected (api : Z -> Fetch) (clicked : list UISession) :
  forall st : State,
    (forall c, In c clicked ->
               weatherById st !! id (session c) = None /\
               exists e, api (id (session c)) = Rejected e) ->
    weatherById (fst (clicks api clicked st)) = weatherById st /\
    snd (clicks api clicked st) = map (fun c => id (session c)) clicked.
Proof.
  induction clicked as [|s rest IH]; intros st H; [split; reflexivity|].
  destruct (H s (or_introl eq_refl)) as (Hmiss & e & He).
  destruct (onRowClick_miss s st Hmiss) as (resume & Hcall & Hres).
  cbn [clicks]. rewrite Hcall. cbn [settle requested].
  rewrite He, Hres.
  set (st1 := console_error "weather fetch failed" e (setSelected (Some s) st)).
  assert (Hsame : weatherById st1 = weatherById st) by reflexivity.
  destruct (IH st1) as [Hw Ha].
  { intros c Hc. rewrite Hsame. apply H. right. exact Hc. }
  destruct (clicks api rest st1) as [st' asked]. cbn [fst snd] in *.
  split; [congruence|]. cbn [map]. rewrite Ha. reflexivity.
Qed.

(** C8. A click on a session whose id has no entry in the weather cache
    asks for the weather of that id, and when the fetch fails the rest of
    the call leaves the cache of that moment as it is. So after any number
    of clicks on the session, all failing, the cache is the one before the
    first click, it still has no entry for the id, and every one of the
    clicks has asked for the weather again. *)
Theorem onRowClick_failure_leaves_cache (s : UISession) (st : State) :
  weatherById st !! id (session s) = None ->
  (exists (st' : State) (resume : Fetch -> State -> State),
      onRowClick s st = Await st' (id (session s)) resume /\
      weatherById st' = weatherById st /\
      forall (e : string) (now : State),
        weatherById (resume (Rejected e) now) = weatherById now) /\
  (forall (api : Z -> Fetch) (n : nat),
      (exists e, api (id (session s)) = Rejected e) ->
      weatherById (fst (clicks api (List.repeat s n) st)) = weatherById st /\
      weatherById (fst (clicks api (List.repeat s n) st)) !! id (session s) = None /\
      snd (clicks api (List.repeat s n) st) = List.repeat (id (session s)) n).
Proof.
  intros Hmiss. split.
  - destruct (onRowClick_miss s st Hmiss) as (resume & Hcall & Hres).
    exists (setSelected (Some s) st), resume.
    split; [exact Hcall|]. split; [reflexivity|].
    intros e now. rewrite Hres. reflexivity.
  - intros api n Hrej.
    destruct (clicks_all_rejected api (List.repeat s n) st) as [Hw Ha].
    { intros c Hc. apply repeat_spec in Hc. subst c. auto. }
    split; [exact Hw|]. split; [rewrite Hw; exact Hmiss|].
    rewrite Ha. apply map_repeat.
Qed.

(** Three clicks on the first row of the fresh page while the service is
    down. *)
Lemma onRowClick_failure_leaves_cache_witness :
  weatherById initial !! id (session (row_of run1)) = None /\
  weatherById (fst (clicks (fun _ => Rejected "503") (List.repeat (row_of run1) 3) initial))
  = weatherById initial /\
  weatherById (fst (clicks (fun _ => Rejected "503") (List.repeat (row_of run1) 3) initial))
    !! id (session (row_of run1)) = None /\
  snd (clicks (fun _ => Rejected "503") (List.repeat (row_of run1) 3) initial)
  = List.repeat (id (session (row_of run1))) 3.
Proof.
  split; [reflexivity|].
  apply (proj2 (onRowClick_failure_leaves_cache (row_of run1) initial eq_refl)
           (fun _ => Rejected "503") 3%nat).
  exists "503". reflexivity.
Defined.

(** A fetch that succeeds fills the slot of its id, and the next click on
    the row asks for nothing. *)
Example onRowClick_success :
  let api := fun _ : Z => Fulfilled [obs0] in
  weatherById (fst (clicks api [row_of run1] initial)) !! 1%Z = Some [obs0] /\
  weatherById (fst (clicks api [row_of run1] initial)) !! 2%Z = None /\
  snd (clicks api [row_of run1; row_of run1] initial) = [1%Z].
Proof. repeat split; reflexivity. Qed.

(** * Further properties *)

(** ** Temporal matcher: the empty sequence and unreadable times *)

Lemma pickClosest_fold_In {date : DateParser} (target : number)
    (l : list WeatherObservation) (b : WeatherObservation) (d : number) :
  In (fst (fold_left (pickClosest_step target) l (b, d))) (b :: l).
Proof.
  revert b d. induction l as [|o l IH]; intros b d; [left; reflexivity|].
  cbn [fold_left pickClosest_step].
  destruct (JS.lt (JS.Math_abs (JS.sub (getTime (timestamp o)) target)) d).
  - destruct (IH o (JS.Math_abs (JS.sub (getTime (timestamp o)) target))) as [H|H].
    + right. left. exact H.
    + right. right. exact H.
  - destruct (IH b d) as [H|H].
    + left. exact H.
    + right. right. exact H.
Qed.

Lemma pickClosest_cons_In {date : DateParser}
    (first : WeatherObservation) (rest : list WeatherObservation) (isoTime : string) :
  exists best : WeatherObservation,
    pickClosest (first :: rest) isoTime = Some best /\ In best (first :: rest).
Proof.
  unfold pickClosest. eexists. split; [reflexivity|].
  destruct (pickClosest_fold_In (getTime isoTime) (first :: rest) first
              (JS.Math_abs (JS.sub (getTime (timestamp first)) (getTime isoTime))))
    as [H|H].
  - left. exact H.
  - exact H.
Qed.

(** X1. [pickClosest] answers [undefined] for the empty sequence only, and any
    other answer is one of the observations, whatever their times are. *)
Theorem pickClosest_member {date : DateParser}
    (observations : list WeatherObservation) (isoTime : string) :
  (pickClosest observations isoTime = None <-> observations = []) /\
  (forall best : WeatherObservation,
      pickClosest observations isoTime = Some best -> In best observations).
Proof.
  destruct observations as [|first rest]; unfold pickClosest.
  - split; [tauto|discriminate].
  - split; [split; discriminate|].
    intros best Hb.
    destruct (pickClosest_cons_In first rest isoTime) as (b & Hpick & Hmem).
    unfold pickClosest in Hpick. rewrite Hpick in Hb. injection Hb as <-. exact Hmem.
Qed.

Lemma pickClosest_member_witness :
  @pickClosest isoDate [obs0; undated] "1970-01-01T00:00:00.005Z" = Some obs0 /\
  In obs0 [obs0; undated].
Proof.
  split; [reflexivity|].
  apply (proj2 (@pickClosest_member isoDate [obs0; undated] "1970-01-01T00:00:00.005Z")).
  reflexivity.
Defined.

Lemma pickClosest_fold_NaN {date : DateParser} (target : number)
    (l : list WeatherObservation) (b : WeatherObservation) :
  fold_left (pickClosest_step target) l (b, NaN) = (b, NaN).
Proof.
  induction l as [|o l IH]; [reflexivity|].
  cbn [fold_left pickClosest_step].
  destruct (JS.Math_abs (JS.sub (getTime (timestamp o)) target)); exact IH.
Qed.

Lemma distance_NaN {date : DateParser} (isoTime : string) (o : WeatherObservation) :
  getTime isoTime = NaN \/ getTime (timestamp o) = NaN -> distance isoTime o = NaN.
Proof.
  unfold distance. intros [H|H]; rewrite H.
  - destruct (getTime (timestamp o)); reflexivity.
  - reflexivity.
Qed.

(** X2. When the target time or the time of the first observation is not a
    date, [pickClosest] returns the first observation whatever the others
    are: no difference is below [NaN]. *)
Theorem pickClosest_unreadable_first {date : DateParser}
    (first : WeatherObservation) (rest : list WeatherObservation) (isoTime : string) :
  getTime isoTime = NaN \/ getTime (timestamp first) = NaN ->
  pickClosest (first :: rest) isoTime = Some first.
Proof.
  intros H. unfold pickClosest. fold (distance isoTime first).
  rewrite (distance_NaN isoTime first H), pickClosest_fold_NaN. reflexivity.
Qed.

(** The first observation is not dated; the second one is at the target. *)
Lemma pickClosest_unreadable_first_witness :
  (@getTime isoDate "1970-01-01T00:00:00.005Z" = NaN \/
   @getTime isoDate (timestamp undated) = NaN) /\
  @pickClosest isoDate [undated; obs5; obs0] "1970-01-01T00:00:00.005Z" = Some undated.
Proof.
  split; [right; reflexivity|].
  apply (@pickClosest_unreadable_first isoDate). right. reflexivity.
Defined.

Section ScanValid.

Context {date : DateParser}.
Variable isoTime : string.

(** The loop when some observations have no readable time: they are passed
    over, and the best one so far stays the first nearest of the dated
    ones. *)
Lemma pickClosest_scan_dated (l pre : list WeatherObservation)
    (b : WeatherObservation) (i : nat) :
  (forall o, In o (pre ++ l)%list ->
             distance isoTime o = NaN \/ finite (distance isoTime o)) ->
  finite (distance isoTime b) ->
  nth_error pre i = Some b ->
  (forall o, In o pre -> finite (distance isoTime o) ->
             JS.le (distance isoTime b) (distance isoTime o) = true) ->
  (forall j o, (j < i)%nat -> nth_error pre j = Some o ->
               finite (distance isoTime o) ->
               JS.lt (distance isoTime b) (distance isoTime o) = true) ->
  exists (i' : nat) (b' : WeatherObservation),
    fst (fold_left (pickClosest_step (getTime isoTime)) l (b, distance isoTime b)) = b' /\
    finite (distance isoTime b') /\
    nth_error (pre ++ l)%list i' = Some b' /\
    (forall o, In o (pre ++ l)%list -> finite (distance isoTime o) ->
               JS.le (distance isoTime b') (distance isoTime o) = true) /\
    (forall j o, (j < i')%nat -> nth_error (pre ++ l)%list j = Some o ->
                 finite (distance isoTime o) ->
                 JS.lt (distance isoTime b') (distance isoTime o) = true).
Proof.
  revert pre b i. induction l as [|o l IH]; intros pre b i Hall Fb Hb Hmin Hfirst.
  - exists i, b. rewrite app_nil_r. auto.
  - assert (Hi : (i < List.length pre)%nat) by (apply nth_error_Some; congruence).
    assert (Hassoc : ((pre ++ [o]) ++ l = pre ++ o :: l)%list).
    { rewrite <- app_assoc. reflexivity. }
    cbn [fold_left pickClosest_step].
    fold (distance isoTime o).
    destruct (JS.lt (distance isoTime o) (distance isoTime b)) eqn:E.
    + assert (Fo : finite (distance isoTime o)).
      { destruct (Hall o) as [Hn|Hf]; [apply in_or_app; right; left; reflexivity| |exact Hf].
        rewrite Hn in E. discriminate. }
      destruct (IH (pre ++ [o])%list o (List.length pre)) as (i' & b' & H).
      * rewrite Hassoc. exact Hall.
      * exact Fo.
      * rewrite nth_error_app2 by lia. rewrite Nat.sub_diag. reflexivity.
      * intros o' Ho' Fo'. apply in_app_or in Ho'. destruct Ho' as [Ho'|[<-|[]]].
        -- apply lt_le; [exact Fo | exact Fo' |].
           apply (lt_le_trans _ (distance isoTime b)); auto.
        -- apply le_refl_finite; assumption.
      * intros j o' Hj Ho' Fo'. rewrite nth_error_app1 in Ho' by assumption.
        apply nth_error_In in Ho'.
        apply (lt_le_trans _ (distance isoTime b)); auto.
      * rewrite Hassoc in H. exists i', b'. exact H.
    + destruct (IH (pre ++ [o])%list b i) as (i' & b' & H).
      * rewrite Hassoc. exact Hall.
      * exact Fb.
      * rewrite nth_error_app1 by assumption. exact Hb.
      * intros o' Ho' Fo'. apply in_app_or in Ho'. destruct Ho' as [Ho'|[<-|[]]].
        -- auto.
        -- apply not_lt_le; assumption.
      * intros j o' Hj Ho' Fo'. rewrite nth_error_app1 in Ho' by lia. eauto.
      * rewrite Hassoc in H. exists i', b'. exact H.
Qed.

End ScanValid.

(** X3. With a target and a first observation that are dated, and with every
    dated observation at most [2^53] milliseconds from the target,
    observations whose time is not a date are never picked: the result is
    dated, it is the nearest of the dated observations, and the dated ones
    before it are strictly farther. *)
Theorem pickClosest_skips_undated {date : DateParser}
    (first : WeatherObservation) (rest : list WeatherObservation) (isoTime : string)
    (when : WeatherObservation -> Z) (target : Z) :
  getTime isoTime = Fin (inject_Z target) ->
  getTime (timestamp first) = Fin (inject_Z (when first)) ->
  (forall o, In o (first :: rest) ->
             getTime (timestamp o) = Fin (inject_Z (when o)) ->
             (Z.abs (when o - target) <= 2 ^ 53)%Z) ->
  (forall o, In o rest ->
             getTime (timestamp o) = NaN \/
             getTime (timestamp o) = Fin (inject_Z (when o))) ->
  exists (i : nat) (best : WeatherObservation),
    pickClosest (first :: rest) isoTime = Some best /\
    nth_error (first :: rest) i = Some best /\
    getTime (timestamp best) = Fin (inject_Z (when best)) /\
    (forall o, In o (first :: rest) -> getTime (timestamp o) = Fin (inject_Z (when o)) ->
               (Z.abs (when best - target) <= Z.abs (when o - target))%Z) /\
    (forall j o, (j < i)%nat -> nth_error (first :: rest) j = Some o ->
                 getTime (timestamp o) = Fin (inject_Z (when o)) ->
                 (Z.abs (when best - target) < Z.abs (when o - target))%Z).
Proof.
  intros Ht Hfirst Hnear Hrest.
  assert (Hall : forall o, In o (first :: rest) ->
            getTime (timestamp o) = NaN \/
            getTime (timestamp o) = Fin (inject_Z (when o))).
  { intros o [<-|Ho]; auto. }
  assert (Hdist : forall o, In o (first :: rest) ->
            getTime (timestamp o) = Fin (inject_Z (when o)) ->
            distance isoTime o = Fin (inject_Z (Z.abs (when o - target)))).
  { intros o Ho Hv. apply distance_near; auto. }
  assert (Hd : forall o, In o ([first] ++ rest)%list ->
            distance isoTime o = NaN \/ finite (distance isoTime o)).
  { intros o Ho. destruct (Hall o Ho) as [H|H].
    - left. apply distance_NaN. right. exact H.
    - right. rewrite (Hdist o Ho H). eexists. reflexivity. }
  assert (Ff : finite (distance isoTime first)).
  { rewrite (Hdist first (or_introl eq_refl) Hfirst). eexists. reflexivity. }
  unfold pickClosest. fold (distance isoTime first).
  cbn [fold_left pickClosest_step]. fold (distance isoTime first).
  rewrite lt_irrefl.
  destruct (pickClosest_scan_dated isoTime rest [first] first 0 Hd Ff eq_refl)
    as (i & best & H1 & Fbest & Hnth & Hmin & Hearly).
  { intros o [<-|[]] _. apply le_refl_finite. exact Ff. }
  { intros j o Hj. lia. }
  cbn [app] in Hnth, Hmin, Hearly.
  assert (Hin : In best (first :: rest)) by (eapply nth_error_In; eauto).
  assert (Hbest : getTime (timestamp best) = Fin (inject_Z (when best))).
  { destruct (Hall best Hin) as [Hn|Hv]; [|exact Hv].
    rewrite (distance_NaN isoTime best (or_intror Hn)) in Fbest.
    destruct Fbest as [q Hq]. discriminate. }
  exists i, best. rewrite H1. repeat split; try assumption.
  - intros o Ho Hv.
    assert (Fo : finite (distance isoTime o)).
    { rewrite (Hdist o Ho Hv). eexists. reflexivity. }
    specialize (Hmin o Ho Fo).
    rewrite (Hdist best Hin Hbest), (Hdist o Ho Hv) in Hmin.
    apply le_Z in Hmin. exact Hmin.
  - intros j o Hj Ho Hv.
    assert (Ho' : In o (first :: rest)) by (eapply nth_error_In; eauto).
    assert (Fo : finite (distance isoTime o)).
    { rewrite (Hdist o Ho' Hv). eexists. reflexivity. }
    specialize (Hearly j o Hj Ho Fo).
    rewrite (Hdist best Hin Hbest), (Hdist o Ho' Hv) in Hearly.
    apply lt_Z in Hearly. exact Hearly.
Qed.

(** An undated observation between one at 0 and one at 5; the target is at
    5. *)
Lemma pickClosest_skips_undated_witness :
  (@getTime isoDate "1970-01-01T00:00:00.005Z" = Fin (inject_Z 5) /\
   @getTime isoDate (timestamp obs0)
   = Fin (inject_Z (milliseconds (isoDate (timestamp obs0)))) /\
   (forall o, In o [obs0; undated; obs5] ->
              @getTime isoDate (timestamp o)
              = Fin (inject_Z (milliseconds (isoDate (timestamp o)))) ->
              (Z.abs (milliseconds (isoDate (timestamp o)) - 5) <= 2 ^ 53)%Z) /\
   (forall o, In o [undated; obs5] ->
              @getTime isoDate (timestamp o) = NaN \/
              @getTime isoDate (timestamp o)
              = Fin (inject_Z (milliseconds (isoDate (timestamp o)))))) /\
  exists (i : nat) (best : WeatherObservation),
    @pickClosest isoDate [obs0; undated; obs5] "1970-01-01T00:00:00.005Z" = Some best /\
    nth_error [obs0; undated; obs5] i = Some best /\
    @getTime isoDate (timestamp best)
    = Fin (inject_Z (milliseconds (isoDate (timestamp best)))) /\
    (forall o, In o [obs0; undated; obs5] ->
               @getTime isoDate (timestamp o)
               = Fin (inject_Z (milliseconds (isoDate (timestamp o)))) ->
               (Z.abs (milliseconds (isoDate (timestamp best)) - 5)
                <= Z.abs (milliseconds (isoDate (timestamp o)) - 5))%Z) /\
    (forall j o, (j < i)%nat -> nth_error [obs0; undated; obs5] j = Some o ->
                 @getTime isoDate (timestamp o)
                 = Fin (inject_Z (milliseconds (isoDate (timestamp o)))) ->
                 (Z.abs (milliseconds (isoDate (timestamp best)) - 5)
                  < Z.abs (milliseconds (isoDate (timestamp o)) - 5))%Z).
Proof.
  assert (Hnear : forall o, In o [obs0; undated; obs5] ->
            @getTime isoDate (timestamp o)
            = Fin (inject_Z (milliseconds (isoDate (timestamp o)))) ->
            (Z.abs (milliseconds (isoDate (timestamp o)) - 5) <= 2 ^ 53)%Z).
  { intros o [<-|[<-|[<-|[]]]] _; vm_compute; discriminate. }
  assert (Hrest : forall o, In o [undated; obs5] ->
            @getTime isoDate (timestamp o) = NaN \/
            @getTime isoDate (timestamp o)
            = Fin (inject_Z (milliseconds (isoDate (timestamp o))))).
  { intros o [<-|[<-|[]]]; [left|right]; reflexivity. }
  split; [split; [reflexivity|split; [reflexivity|split; [exact Hnear|exact Hrest]]]|].
  apply (@pickClosest_skips_undated isoDate obs0 [undated; obs5]
           "1970-01-01T00:00:00.005Z"
           (fun o => milliseconds (isoDate (timestamp o))) 5
           eq_refl eq_refl Hnear Hrest).
Defined.

(** X4. When the times are at most [2^53] milliseconds from the target and no
    two observations are equally far from it, the answer does not depend
    on the order of the observations. *)
Theorem pickClosest_order_free {date : DateParser}
    (observations reordered : list WeatherObservation) (isoTime : string)
    (when : WeatherObservation -> Z) (target : Z) :
  Permutation observations reordered ->
  getTime isoTime = Fin (inject_Z target) ->
  (forall o, In o observations ->
             getTime (timestamp o) = Fin (inject_Z (when o)) /\
             (Z.abs (when o - target) <= 2 ^ 53)%Z) ->
  (forall o o', In o observations -> In o' observations ->
                Z.abs (when o - target) = Z.abs (when o' - target) -> o = o') ->
  pickClosest observations isoTime = pickClosest reordered isoTime.
Proof.
  intros Hperm Ht Hwhen Hinj.
  destruct observations as [|first rest].
  { apply Permutation_nil in Hperm. subst. reflexivity. }
  assert (Hne2 : reordered <> []).
  { intros ->. apply Permutation_sym, Permutation_nil in Hperm. discriminate. }
  assert (Hd : forall o, In o (first :: rest) ->
            distance isoTime o = Fin (inject_Z (Z.abs (when o - target)))).
  { intros o Ho. destruct (Hwhen o Ho) as [Ha Hn]. apply distance_near; assumption. }
  assert (Hback : forall o, In o reordered -> In o (first :: rest)).
  { intros o Ho. eapply Permutation_in; [apply Permutation_sym|]; eauto. }
  destruct (pickClosest_scan_all isoTime (first :: rest))
    as (i1 & b1 & P1 & N1 & M1 & _); [discriminate| |].
  { intros o Ho. rewrite (Hd o Ho). eexists. reflexivity. }
  destruct (pickClosest_scan_all isoTime reordered Hne2)
    as (i2 & b2 & P2 & N2 & M2 & _).
  { intros o Ho. rewrite (Hd o (Hback o Ho)). eexists. reflexivity. }
  rewrite P1, P2. f_equal.
  assert (I1 : In b1 (first :: rest)) by (eapply nth_error_In; eauto).
  assert (I2 : In b2 reordered) by (eapply nth_error_In; eauto).
  assert (I1' : In b1 reordered) by (eapply Permutation_in; eauto).
  assert (I2' : In b2 (first :: rest)) by (apply Hback; exact I2).
  apply Hinj; try assumption.
  pose proof (M1 b2 I2') as L1. pose proof (M2 b1 I1') as L2.
  rewrite (Hd b1 I1), (Hd b2 I2') in L1, L2.
  apply le_Z in L1, L2. lia.
Qed.

Lemma pickClosest_order_free_witness :
  (Permutation [obs0; obs5; obs10] [obs10; obs5; obs0] /\
   @getTime isoDate "1970-01-01T00:00:00.007Z" = Fin (inject_Z 7) /\
   (forall o, In o [obs0; obs5; obs10] ->
              @getTime isoDate (timestamp o)
              = Fin (inject_Z (milliseconds (isoDate (timestamp o)))) /\
              (Z.abs (milliseconds (isoDate (timestamp o)) - 7) <= 2 ^ 53)%Z) /\
   (forall o o', In o [obs0; obs5; obs10] -> In o' [obs0; obs5; obs10] ->
                 Z.abs (milliseconds (isoDate (timestamp o)) - 7)
                 = Z.abs (milliseconds (isoDate (timestamp o')) - 7) -> o = o')) /\
  @pickClosest isoDate [obs0; obs5; obs10] "1970-01-01T00:00:00.007Z"
  = @pickClosest isoDate [obs10; obs5; obs0] "1970-01-01T00:00:00.007Z".
Proof.
  assert (Hperm : Permutation [obs0; obs5; obs10] [obs10; obs5; obs0]).
  { apply (Permutation_rev [obs0; obs5; obs10]). }
  assert (Hwhen : forall o, In o [obs0; obs5; obs10] ->
            @getTime isoDate (timestamp o)
            = Fin (inject_Z (milliseconds (isoDate (timestamp o)))) /\
            (Z.abs (milliseconds (isoDate (timestamp o)) - 7) <= 2 ^ 53)%Z).
  { intros o [<-|[<-|[<-|[]]]]; split; try reflexivity; vm_compute; discriminate. }
  assert (Hinj : forall o o', In o [obs0; obs5; obs10] -> In o' [obs0; obs5; obs10] ->
            Z.abs (milliseconds (isoDate (timestamp o)) - 7)
            = Z.abs (milliseconds (isoDate (timestamp o')) - 7) -> o = o').
  { intros o o' [<-|[<-|[<-|[]]]] [<-|[<-|[<-|[]]]] H;
      try reflexivity; vm_compute in H; discriminate. }
  split; [split; [exact Hperm|split; [reflexivity|split; [exact Hwhen|exact Hinj]]]|].
  apply (@pickClosest_order_free isoDate [obs0; obs5; obs10] [obs10; obs5; obs0]
           "1970-01-01T00:00:00.007Z"
           (fun o => milliseconds (isoDate (timestamp o))) 7 Hperm eq_refl Hwhen Hinj).
Defined.

(** ** Enriched rows: durations, paces and the invented values *)

Lemma enriched_nth {date : DateParser} (data : list Session) (g : Random)
    (i : nat) (s : Session) :
  nth_error data i = Some s ->
  exists g' : Random,
    outcomes g' = outcomes g /\
    nth_error (fst (enriched data g)) i = Some (fst (enrich coaches trainings s i g')).
Proof.
  intros Hs. unfold enriched, enrichedWith, Array_map.
  destruct (Array_map_from_nth (enrich coaches trainings) data
              (enrich_outcomes coaches trainings) 0 g) as [_ Hnth].
  destruct (Hnth i s Hs) as (g' & Hg & Hr). exists g'. auto.
Qed.

Lemma minutesBetween_NaN {date : DateParser} (aISO bISO : string) :
  getTime aISO = NaN \/ getTime bISO = NaN -> minutesBetween aISO bISO = NaN.
Proof.
  unfold minutesBetween. intros [H|H]; rewrite H.
  - destruct (getTime bISO); reflexivity.
  - reflexivity.
Qed.

Lemma paceMinPerKm_NaN (distanceKm : option number) :
  paceMinPerKm distanceKm (Some NaN) = None.
Proof.
  unfold paceMinPerKm. cbn [JS.falsy JS.truthy negb].
  destruct (JS.falsy distanceKm || JS.le (JS.toNumber distanceKm) (Fin 0)); reflexivity.
Qed.

(** X5. A session whose start or end time is not a date gets the duration
    [NaN] and no pace: its row reads [NaNm] for the duration and the dash
    for the pace. *)
Theorem enriched_unreadable_time {date : DateParser}
    (data : list Session) (g : Random) (i : nat) (s : Session) :
  nth_error data i = Some s ->
  getTime (start_time s) = NaN \/ getTime (end_time s) = NaN ->
  exists r : UISession,
    nth_error (fst (enriched data g)) i = Some r /\
    duration_minutes r = Some NaN /\
    pace_min_per_km r = None /\
    durStr r = "NaNm" /\
    fmtPace (pace_min_per_km r) = "—".
Proof.
  intros Hs Hbad. destruct (enriched_nth data g i s Hs) as (g' & _ & Hr).
  eexists. split; [exact Hr|].
  destruct (enrich_fields coaches trainings s i g') as (_ & _ & _ & Hd & Hp).
  rewrite (minutesBetween_NaN _ _ Hbad) in Hd, Hp.
  rewrite paceMinPerKm_NaN in Hp.
  unfold durStr. rewrite Hd, Hp. repeat split; reflexivity.
Qed.

Lemma enriched_unreadable_time_witness :
  (nth_error [run1; undatedRun] 1 = Some undatedRun /\
   (@getTime isoDate (start_time undatedRun) = NaN \/
    @getTime isoDate (end_time undatedRun) = NaN)) /\
  exists r : UISession,
    nth_error (fst (@enriched isoDate [run1; undatedRun] tenths)) 1 = Some r /\
    duration_minutes r = Some NaN /\
    pace_min_per_km r = None /\
    durStr r = "NaNm" /\
    fmtPace (pace_min_per_km r) = "—".
Proof.
  split; [split; [reflexivity|left; reflexivity]|].
  apply (@enriched_unreadable_time isoDate [run1; undatedRun] tenths 1 undatedRun eq_refl).
  left. reflexivity.
Defined.

(** X6. The pace of a row, from the session: with time values and a finite
    distance the row has a pace exactly when the end is after the start and
    the distance is above zero, and it is then the duration of the row
    divided by the distance, in binary64; a session without a distance has
    no pace. *)
Theorem enriched_pace {date : DateParser}
    (data : list Session) (g : Random) (i : nat) (s : Session) (a b : Z) :
  nth_error data i = Some s ->
  timeValue (getTime (start_time s)) a ->
  timeValue (getTime (end_time s)) b ->
  exists r : UISession,
    nth_error (fst (enriched data g)) i = Some r /\
    (distance_km s = None -> pace_min_per_km r = None) /\
    (forall d : Q,
        distance_km s = Some (Fin d) ->
        ((a < b)%Z -> 0 < d ->
         exists m : Q,
           duration_minutes r = Some (Fin m) /\ 0 < m /\
           pace_min_per_km r = Some (JS.round64 (m / d))) /\
        ((b <= a)%Z \/ d <= 0 -> pace_min_per_km r = None)).
Proof.
  intros Hs Ta Tb. destruct (enriched_nth data g i s Hs) as (g' & _ & Hr).
  eexists. split; [exact Hr|].
  destruct (enrich_fields coaches trainings s i g') as (_ & _ & _ & Hd & Hp).
  rewrite Hp, Hd. clear Hp Hd Hr.
  split.
  - intros ->. reflexivity.
  - intros d ->. split.
    + intros Hab Hpos.
      destruct (minutesBetween_after _ _ a b Ta Tb Hab) as (m & Hm & Hm0).
      exists m. rewrite Hm. split; [reflexivity|]. split; [exact Hm0|].
      rewrite paceMinPerKm_positive by (apply lt_Fin; assumption).
      rewrite div_Fin by lra. reflexivity.
    + intros [Hba|Hd].
      * rewrite (minutesBetween_not_after _ _ a b Ta Tb Hba).
        unfold paceMinPerKm. cbn [JS.falsy JS.toNumber].
        change (JS.truthy (Fin 0)) with false. cbn [negb].
        destruct (negb (JS.truthy (Fin d)) || JS.le (Fin d) (Fin 0)); reflexivity.
      * unfold paceMinPerKm. cbn [JS.falsy JS.toNumber].
        assert (Ld : JS.le (Fin d) (Fin 0) = true) by (apply le_Fin; exact Hd).
        rewrite Ld. rewrite orb_true_r. reflexivity.
Qed.

(** The run of ten kilometres in an hour. *)
Lemma enriched_pace_witness :
  (nth_error five 0 = Some run1 /\
   timeValue (@getTime isoDate (start_time run1)) 1709251200000 /\
   timeValue (@getTime isoDate (end_time run1)) 1709254800000) /\
  exists r : UISession,
    nth_error (fst (@enriched isoDate five tenths)) 0 = Some r /\
    (distance_km run1 = None -> pace_min_per_km r = None) /\
    (forall d : Q,
        distance_km run1 = Some (Fin d) ->
        ((1709251200000 < 1709254800000)%Z -> 0 < d ->
         exists m : Q,
           duration_minutes r = Some (Fin m) /\ 0 < m /\
           pace_min_per_km r = Some (JS.round64 (m / d))) /\
        ((1709254800000 <= 1709251200000)%Z \/ d <= 0 -> pace_min_per_km r = None)).
Proof.
  assert (Ta : timeValue (@getTime isoDate (start_time run1)) 1709251200000).
  { split; [reflexivity|unfold maxTime; lia]. }
  assert (Tb : timeValue (@getTime isoDate (end_time run1)) 1709254800000).
  { split; [reflexivity|unfold maxTime; lia]. }
  split; [repeat split; try reflexivity; unfold maxTime; lia|].
  apply (@enriched_pace isoDate five tenths 0 run1 _ _ eq_refl Ta Tb).
Defined.

(** X7. The duration text of a row with time values is the whole minutes of
    the row's duration, cut and not rounded, followed by [m]. For a span
    below [2^37] minutes they are the whole minutes of the span itself;
    beyond, the rounding of the quotient can reach the next minute. *)
Theorem durStr_whole_minutes {date : DateParser}
    (data : list Session) (g : Random) (i : nat) (s : Session) (a b : Z) :
  nth_error data i = Some s ->
  timeValue (getTime (start_time s)) a ->
  timeValue (getTime (end_time s)) b ->
  exists (r : UISession) (z : Z),
    nth_error (fst (enriched data g)) i = Some r /\
    durStr r = JS.toString (Fin (inject_Z z)) ++ "m" /\
    (0 <= z)%Z /\
    ((a <= b)%Z -> (b - a < 2 ^ 37 * 60000)%Z -> z = ((b - a) / 60000)%Z) /\
    ((b <= a)%Z -> z = 0%Z).
Proof.
  intros Hs Ta Tb. destruct (enriched_nth data g i s Hs) as (g' & _ & Hr).
  destruct (enrich_fields coaches trainings s i g') as (_ & _ & _ & Hd & _).
  destruct (Z_lt_le_dec a b) as [Hab|Hba].
  - destruct (minutesBetween_after _ _ a b Ta Tb Hab) as (w & Hw & Hw0).
    exists (fst (enrich coaches trainings s i g')), (Qfloor w).
    split; [exact Hr|]. unfold durStr. rewrite Hd, Hw. cbn [JS.Math_floor].
    split; [reflexivity|]. split; [|split].
    + assert (H : (Qfloor 0 <= Qfloor w)%Z) by (apply Qfloor_resp_le; lra).
      exact H.
    + intros _ Hlt.
      destruct (minutesBetween_whole _ _ a b Ta Tb ltac:(lia) Hlt) as (w' & Hw' & Hfl).
      rewrite Hw in Hw'. injection Hw' as ->. exact Hfl.
    + intros Hba. lia.
  - exists (fst (enrich coaches trainings s i g')), 0%Z.
    split; [exact Hr|]. unfold durStr.
    rewrite Hd, (minutesBetween_not_after _ _ a b Ta Tb Hba).
    split; [reflexivity|]. split; [lia|]. split.
    + intros Hab _. replace (b - a)%Z with 0%Z by lia. reflexivity.
    + reflexivity.
Qed.

(** Forty-five minutes. *)
Lemma durStr_whole_minutes_witness :
  (nth_error five 1 = Some rest2 /\
   timeValue (@getTime isoDate (start_time rest2)) 1709596800000 /\
   timeValue (@getTime isoDate (end_time rest2)) 1709599500000) /\
  exists (r : UISession) (z : Z),
    nth_error (fst (@enriched isoDate five tenths)) 1 = Some r /\
    durStr r = JS.toString (Fin (inject_Z z)) ++ "m" /\
    (0 <= z)%Z /\
    ((1709596800000 <= 1709599500000)%Z ->
     (1709599500000 - 1709596800000 < 2 ^ 37 * 60000)%Z ->
     z = ((1709599500000 - 1709596800000) / 60000)%Z) /\
    ((1709599500000 <= 1709596800000)%Z -> z = 0%Z).
Proof.
  assert (Ta : timeValue (@getTime isoDate (start_time rest2)) 1709596800000).
  { split; [reflexivity|unfold maxTime; lia]. }
  assert (Tb : timeValue (@getTime isoDate (end_time rest2)) 1709599500000).
  { split; [reflexivity|unfold maxTime; lia]. }
  split; [repeat split; try reflexivity; unfold maxTime; lia|].
  apply (@durStr_whole_minutes isoDate five tenths 1 rest2 _ _ eq_refl Ta Tb).
Defined.

(** A span of [2^38] minutes less a millisecond: the quotient rounds to
    [2^38], and the text is a minute more than the whole minutes of the
    span. *)
Example durStr_rounds_up :
  let s := session_of 7 "-251540-02-03T09:46:40.000Z" "+271092-02-20T18:50:39.999Z"
             None None in
  (@getTime isoDate (start_time s) = Fin (inject_Z (-8000000000000000)) /\
   @getTime isoDate (end_time s) = Fin (inject_Z 8492674416639999)) /\
  map durStr (fst (@enriched isoDate [s] tenths)) = ["274877906944m"] /\
  ((8492674416639999 - -8000000000000000) / 60000 = 274877906943)%Z.
Proof. repeat split; vm_compute; reflexivity. Qed.

(** X8. A pace above zero that is a binary64 value and whose fraction of a
    minute is below 119/120 prints seconds from 00 to 59: its fraction is
    computed without rounding and is at most the binary64 value next
    below 119/120, whose product with sixty is below 59.5. *)
Theorem fmtPace_below_sixty (q : Q) :
  0 < q ->
  JS.binary64 q ->
  q - inject_Z (Qfloor q) < 119 # 120 ->
  exists s : Z,
    (0 <= s <= 59)%Z /\
    fmtPace (Some (Fin q)) =
    JS.toString (JS.Math_floor (Fin q)) ++ ":" ++ two_digits s ++ "/km".
Proof.
  intros Hq Hb Hfrac.
  destruct (fraction_bounds q) as [F0 _].
  destruct (fraction_binary64 q Hq Hb) as (f & Hf & Hfe).
  assert (Hle : q - inject_Z (Qfloor q) <= 8932139260951483 # 9007199254740992).
  { destruct (Qlt_le_dec (q - inject_Z (Qfloor q)) (1 # 2)) as [Hsmall|Hbig]; [lra|].
    destruct (round64_grid_half _ f Hbig ltac:(lra) Hf) as (n & Hn).
    assert (Hlt : inject_Z n < inject_Z 8932139260951484).
    { change (inject_Z 8932139260951484) with 8932139260951484. lra. }
    rewrite <- Zlt_Qlt in Hlt.
    assert (Hn' : inject_Z n <= 8932139260951483).
    { change 8932139260951483 with (inject_Z 8932139260951483).
      rewrite <- Zle_Qle. lia. }
    lra. }
  rounded (JS.round64 ((8932139260951483 # 9007199254740992) * 60)) E.
  destruct (seconds_between q 0 (8932139260951483 # 9007199254740992)
              0 (8932139260951483 # 9007199254740992) 0 _
              F0 Hle eq_refl eq_refl eq_refl E)
    as (f' & p & _ & _ & _ & _ & Hs & P0 & P1).
  exists (Qfloor (p + (1 # 2))). split.
  - apply Math_round_bounds; [change (inject_Z 0) with 0; lra|].
    change (inject_Z 59) with 59. lra.
  - apply fmtPace_Fin; [lra|exact Hs|exact P0|lra].
Qed.

Lemma fmtPace_below_sixty_witness :
  (0 < 5.75 /\ JS.binary64 5.75 /\ 5.75 - inject_Z (Qfloor 5.75) < 119 # 120) /\
  exists s : Z,
    (0 <= s <= 59)%Z /\
    fmtPace (Some (Fin 5.75)) =
    JS.toString (JS.Math_floor (Fin 5.75)) ++ ":" ++ two_digits s ++ "/km".
Proof.
  assert (Hb : JS.binary64 5.75) by (exists (23 # 4); split; reflexivity).
  split; [split; [reflexivity|split; [exact Hb|reflexivity]]|].
  apply (fmtPace_below_sixty 5.75); [reflexivity|exact Hb|reflexivity].
Defined.

(** Below zero the subtraction can round: for the binary64 value
    -0.008333333333333358 the fraction of a minute is below 119/120 and
    the seconds are 60. *)
Example fmtPace_below_zero :
  (-4803839602528543 # 576460752303423488)
  - inject_Z (Qfloor (-4803839602528543 # 576460752303423488)) < 119 # 120 /\
  JS.binary64 (-4803839602528543 # 576460752303423488) /\
  fmtPace (Some (Fin (-4803839602528543 # 576460752303423488))) = "-1:60/km".
Proof.
  split; [reflexivity|]. split; [|vm_compute; reflexivity].
  eexists. split; [vm_compute; reflexivity|reflexivity].
Qed.

(** ** Blood oxygen and VO2 max of the rows *)

Lemma renderSpo2_Z (z : Z) :
  renderSpo2 (Some (Fin (inject_Z z))) =
  Span "color"
    (str (if (z <? 95)%Z then "crimson" else if (z <? 97)%Z then "orange" else "green"))
    [num (Fin (inject_Z z)); str "%"].
Proof.
  unfold renderSpo2.
  change (Fin 95) with (Fin (inject_Z 95)). change (Fin 97) with (Fin (inject_Z 97)).
  destruct (z <? 95)%Z eqn:E95.
  - apply Z.ltb_lt in E95. apply lt_Z in E95. rewrite E95. reflexivity.
  - apply Z.ltb_ge in E95.
    assert (L95 : JS.lt (Fin (inject_Z z)) (Fin (inject_Z 95)) = false).
    { apply lt_Fin_false. rewrite <- Zle_Qle. exact E95. }
    rewrite L95. destruct (z <? 97)%Z eqn:E97.
    + apply Z.ltb_lt in E97. apply lt_Z in E97. rewrite E97. reflexivity.
    + apply Z.ltb_ge in E97.
      assert (L97 : JS.lt (Fin (inject_Z z)) (Fin (inject_Z 97)) = false).
      { apply lt_Fin_false. rewrite <- Zle_Qle. exact E97. }
      rewrite L97. reflexivity.
Qed.

(** X9. The colour of the invented blood oxygen follows from the random value
    [q] it is made of: crimson up to [1/6 - 2^-48], orange from 1/6 to
    [1/2 - 2^-48], green from 1/2 on. In between, the rounding of the
    product and of the sum decides. It is never the dash. *)
Theorem renderSpo2_dummy_colour (s : Session) (g : Random) (q : Q) :
  spo2_pct s = None ->
  outcomes g (drawn g) = Fin q ->
  0 <= q -> q < 1 ->
  exists v : number,
    fst (spo2_or_dummy s g) = v /\
    (q <= (1 # 6) - JS.pow2 (-48) ->
     renderSpo2 (Some v) = Span "color" (str "crimson") [num v; str "%"]) /\
    (1 # 6 <= q -> q <= (1 # 2) - JS.pow2 (-48) ->
     renderSpo2 (Some v) = Span "color" (str "orange") [num v; str "%"]) /\
    (1 # 2 <= q -> renderSpo2 (Some v) = Span "color" (str "green") [num v; str "%"]).
Proof.
  intros Hnone Hq H0 H1. unfold spo2_or_dummy. rewrite Hnone.
  unfold bind, ret, Math_random. cbn [fst]. rewrite Hq.
  eexists. split; [reflexivity|].
  rounded (JS.round64 (((1 # 6) - JS.pow2 (-48)) * 6)) A1.
  match type of A1 with _ = Fin ?c => rounded (JS.round64 (94 + c)) A2 end.
  rounded (JS.round64 (((1 # 2) - JS.pow2 (-48)) * 6)) B1.
  match type of B1 with _ = Fin ?c => rounded (JS.round64 (94 + c)) B2 end.
  split; [|split].
  - intros Hc.
    destruct (invented_between 94 6 q 0 ((1 # 6) - JS.pow2 (-48)) 0 _ 94 _
                ltac:(discriminate) H0 Hc eq_refl A1 eq_refl A2) as (z & -> & Hz).
    rewrite renderSpo2_Z.
    assert (E : (z <? 95)%Z = true) by (apply Z.ltb_lt; floors Hz; lia).
    rewrite E. reflexivity.
  - intros Hc1 Hc2.
    destruct (invented_between 94 6 q (1 # 6) ((1 # 2) - JS.pow2 (-48)) 1 _ 95 _
                ltac:(discriminate) Hc1 Hc2 eq_refl B1 eq_refl B2) as (z & -> & Hz).
    rewrite renderSpo2_Z.
    assert (E1 : (z <? 95)%Z = false) by (apply Z.ltb_ge; floors Hz; lia).
    assert (E2 : (z <? 97)%Z = true) by (apply Z.ltb_lt; floors Hz; lia).
    rewrite E1, E2. reflexivity.
  - intros Hc.
    destruct (invented_between 94 6 q (1 # 2) 1 3 6 97 100
                ltac:(discriminate) Hc (Qlt_le_weak _ _ H1) eq_refl eq_refl eq_refl eq_refl)
      as (z & -> & Hz).
    rewrite renderSpo2_Z.
    assert (E1 : (z <? 95)%Z = false) by (apply Z.ltb_ge; floors Hz; lia).
    assert (E2 : (z <? 97)%Z = false) by (apply Z.ltb_ge; floors Hz; lia).
    rewrite E1, E2. reflexivity.
Qed.

Lemma renderSpo2_dummy_colour_witness :
  (spo2_pct run1 = None /\ outcomes tenths (drawn tenths) = Fin 0 /\
   0 <= 0 /\ 0 < 1) /\
  exists v : number,
    fst (spo2_or_dummy run1 tenths) = v /\
    (0 <= (1 # 6) - JS.pow2 (-48) ->
     renderSpo2 (Some v) = Span "color" (str "crimson") [num v; str "%"]) /\
    (1 # 6 <= 0 -> 0 <= (1 # 2) - JS.pow2 (-48) ->
     renderSpo2 (Some v) = Span "color" (str "orange") [num v; str "%"]) /\
    (1 # 2 <= 0 ->
     renderSpo2 (Some v) = Span "color" (str "green") [num v; str "%"]).
Proof.
  split; [repeat split; try reflexivity; discriminate|].
  apply (renderSpo2_dummy_colour run1 tenths 0); try reflexivity; discriminate.
Defined.

(** A random value just below 1/6 whose invented blood oxygen is 95 and
    orange: the sum [94 + r * 6] rounds to 95. *)
Example renderSpo2_below_sixth :
  let g := {| outcomes := fun _ => JS.literal 0.16666666666666663; drawn := 0 |} in
  (exists q : Q, outcomes g 0 = Fin q /\ q < 1 # 6) /\
  renderSpo2 (Some (fst (spo2_or_dummy run1 g)))
  = Span "color" (str "orange") [num (Fin 95); str "%"].
Proof.
  split; [eexists; split; [vm_compute; reflexivity|reflexivity]|].
  vm_compute. reflexivity.
Qed.

(** X10. The blood-oxygen cell of an enriched row is never the dash, whatever
    the session and the random values: the enrichment always fills the
    field, and a reading of 0 is drawn as a number. *)
Theorem renderSpo2_enriched {date : DateParser}
    (data : list Session) (g : Random) (i : nat) (s : Session) :
  nth_error data i = Some s ->
  exists (r : UISession) (v : number) (color : string),
    nth_error (fst (enriched data g)) i = Some r /\
    spo2_pct (session r) = Some v /\
    In color ["crimson"; "orange"; "green"] /\
    renderSpo2 (spo2_pct (session r)) = Span "color" (str color) [num v; str "%"].
Proof.
  intros Hs. destruct (enriched_nth data g i s Hs) as (g' & _ & Hr).
  pose proof (enrich_spo2 coaches trainings s i g') as Hv.
  set (r := fst (enrich coaches trainings s i g')) in *.
  assert (Hsome : exists v, spo2_pct (session r) = Some v).
  { rewrite Hv. destruct (spo2_pct s); eauto. }
  destruct Hsome as [v Hv'].
  assert (Hc : exists color : string,
             In color ["crimson"; "orange"; "green"] /\
             renderSpo2 (Some v) = Span "color" (str color) [num v; str "%"]).
  { unfold renderSpo2.
    destruct (JS.lt v (Fin 95)); [|destruct (JS.lt v (Fin 97))];
      eexists; (split; [|reflexivity]); cbn; tauto. }
  destruct Hc as (color & Hin & Hc). exists r, v, color. rewrite Hv'. auto.
Qed.

Lemma renderSpo2_enriched_witness :
  nth_error five 1 = Some rest2 /\
  exists (r : UISession) (v : number) (color : string),
    nth_error (fst (@enriched isoDate five tenths)) 1 = Some r /\
    spo2_pct (session r) = Some v /\
    In color ["crimson"; "orange"; "green"] /\
    renderSpo2 (spo2_pct (session r)) = Span "color" (str color) [num v; str "%"].
Proof.
  split; [reflexivity|].
  apply (@renderSpo2_enriched isoDate five tenths 1 rest2 eq_refl).
Defined.

Lemma vo2max_dummy_range (q : Q) :
  0 <= q -> q < 1 ->
  exists z : Z,
    (45 <= z <= 65)%Z /\
    JS.Math_floor (JS.add (Fin 45) (JS.mul (Fin q) (Fin 20))) = Fin (inject_Z z).
Proof.
  intros H0 H1.
  destruct (invented_between 45 20 q 0 1 0 20 45 65) as (z & Hz & Hr);
    try reflexivity; try lra; try discriminate.
  exists z. split; [exact Hr|exact Hz].
Qed.

Lemma vo2max_dummy_range_below (q : Q) :
  0 <= q -> q <= 1 - JS.pow2 (-49) ->
  exists z : Z,
    (45 <= z <= 64)%Z /\
    JS.Math_floor (JS.add (Fin 45) (JS.mul (Fin q) (Fin 20))) = Fin (inject_Z z).
Proof.
  intros H0 H1.
  rounded (JS.round64 ((1 - JS.pow2 (-49)) * 20)) E1.
  match type of E1 with _ = Fin ?c => rounded (JS.round64 (45 + c)) E2 end.
  destruct (invented_between 45 20 q 0 (1 - JS.pow2 (-49)) 0 _ 45 _
              ltac:(discriminate) H0 H1 eq_refl E1 eq_refl E2) as (z & Hz & Hr).
  exists z. split; [exact Hr|exact Hz].
Qed.

Lemma enrich_vo2max {date : DateParser} (s : Session) (idx : nat) (g : Random) :
  exists k : nat,
    vo2max (fst (enrich coaches trainings s idx g)) =
    Some (JS.Math_floor (JS.add (Fin 45) (JS.mul (outcomes g k) (Fin 20)))).
Proof.
  unfold enrich, spo2_or_dummy, bind, ret, Math_random.
  destruct (spo2_pct s); cbn [fst vo2max outcomes drawn]; eexists; reflexivity.
Qed.

(** X11. When [Math.random()] yields values from 0 up to but not including 1,
    every enriched row has a VO2 max that is an integer from 45 to 65, and
    from 45 to 64 when the values are at most [1 - 2^-49]; for
    [1 - 2^-52] it is 65. *)
Theorem enriched_vo2max_range {date : DateParser}
    (data : list Session) (g : Random) (i : nat) (s : Session) :
  nth_error data i = Some s ->
  (forall k : nat, exists q : Q, outcomes g k = Fin q /\ 0 <= q /\ q < 1) ->
  exists (r : UISession) (z : Z),
    nth_error (fst (enriched data g)) i = Some r /\
    vo2max r = Some (Fin (inject_Z z)) /\
    (45 <= z <= 65)%Z /\
    ((forall k : nat, exists q : Q, outcomes g k = Fin q /\ q <= 1 - JS.pow2 (-49)) ->
     (z <= 64)%Z).
Proof.
  intros Hs Hrand. destruct (enriched_nth data g i s Hs) as (g' & Hg & Hr).
  destruct (enrich_vo2max s i g') as [k Hk].
  rewrite Hg in Hk. destruct (Hrand k) as (q & Hq & H0 & H1). rewrite Hq in Hk.
  destruct (vo2max_dummy_range q H0 H1) as (z & Hz & Hfl). rewrite Hfl in Hk.
  exists (fst (enrich coaches trainings s i g')), z.
  split; [exact Hr|]. split; [exact Hk|]. split; [exact Hz|].
  intros Hbelow. destruct (Hbelow k) as (q' & Hq' & Hle).
  rewrite Hq in Hq'. injection Hq' as <-.
  destruct (vo2max_dummy_range_below q H0 Hle) as (z' & Hz' & Hfl').
  rewrite Hfl in Hfl'. injection Hfl' as Hzz. lia.
Qed.

Lemma tenths_unit (k : nat) :
  exists q : Q, outcomes tenths k = Fin q /\ 0 <= q /\ q < 1.
Proof.
  pose proof (Nat.mod_upper_bound k 10 ltac:(lia)) as Hk.
  unfold tenths. cbn [outcomes]. set (n := (k mod 10)%nat) in *. clearbody n.
  do 10 (destruct n as [|n];
         [eexists; split; [vm_compute; reflexivity|split; [discriminate|reflexivity]]|]).
  lia.
Qed.

Lemma enriched_vo2max_range_witness :
  (nth_error five 3 = Some run4 /\
   forall k : nat, exists q : Q, outcomes tenths k = Fin q /\ 0 <= q /\ q < 1) /\
  exists (r : UISession) (z : Z),
    nth_error (fst (@enriched isoDate five tenths)) 3 = Some r /\
    vo2max r = Some (Fin (inject_Z z)) /\
    (45 <= z <= 65)%Z /\
    ((forall k : nat,
         exists q : Q, outcomes tenths k = Fin q /\ q <= 1 - JS.pow2 (-49)) ->
     (z <= 64)%Z).
Proof.
  split; [split; [reflexivity|exact tenths_unit]|].
  apply (@enriched_vo2max_range isoDate five tenths 3 run4 eq_refl tenths_unit).
Defined.

Example enriched_vo2max_top :
  map vo2max (fst (@enriched isoDate [rest2] nearlyOne)) = [Some (Fin 65)].
Proof. vm_compute. reflexivity. Qed.

(** *** How many random values the enrichment takes *)

Lemma Array_map_from_snd_cons {A B : Type} (f : A -> nat -> Eff B)
    (x : A) (xs : list A) (idx : nat) (g : Random) :
  snd (Array_map_from f idx (x :: xs) g) =
  snd (Array_map_from f (S idx) xs (snd (f x idx g))).
Proof.
  cbn [Array_map_from]. unfold bind, ret.
  destruct (f x idx g) as [y g1]. cbn [fst snd].
  destruct (Array_map_from f (S idx) xs g1) as [ys g2]. reflexivity.
Qed.

Lemma enrich_drawn {date : DateParser} (s : Session) (idx : nat) (g : Random) :
  drawn (snd (enrich coaches trainings s idx g)) =
  (drawn g + match spo2_pct s with Some _ => 1 | None => 2 end)%nat.
Proof.
  unfold enrich, spo2_or_dummy, bind, ret, Math_random.
  destruct (spo2_pct s); cbn; lia.
Qed.

(** X12. The enrichment takes one random value for each session and one more for
    each session without a blood-oxygen reading, so the values a row gets
    depend on how many sessions before it lack a reading. *)
Theorem enriched_draws {date : DateParser} (data : list Session) (g : Random) :
  drawn (snd (enriched data g)) =
  (drawn g + List.length data
   + List.length
       (List.filter (fun s => match spo2_pct s with Some _ => false | None => true end)
          data))%nat /\
  outcomes (snd (enriched data g)) = outcomes g.
Proof.
  unfold enriched, enrichedWith, Array_map. generalize 0%nat as idx.
  revert g. induction data as [|s data IH]; intros g idx.
  - cbn. split; [lia|reflexivity].
  - rewrite Array_map_from_snd_cons.
    destruct (IH (snd (enrich coaches trainings s idx g)) (S idx)) as [Hd Ho].
    rewrite Hd, Ho, enrich_drawn, enrich_outcomes. split; [|reflexivity].
    cbn [List.length List.filter]. destruct (spo2_pct s); cbn [List.length]; lia.
Qed.

(** *** What does not depend on the random values *)

Lemma enrich_stable {date : DateParser} (s : Session) (idx : nat) (g : Random) :
  let r := fst (enrich coaches trainings s idx g) in
  (with_spo2_pct (session r) None, coach r, training_type r,
   duration_minutes r, pace_min_per_km r) =
  (with_spo2_pct s None, cyclic coaches idx, cyclic trainings idx,
   Some (minutesBetween (start_time s) (end_time s)),
   paceMinPerKm (distance_km s) (Some (minutesBetween (start_time s) (end_time s)))).
Proof.
  unfold enrich, spo2_or_dummy, bind, ret, Math_random.
  destruct (spo2_pct s); reflexivity.
Qed.

(** X13. The fields of the rows other than the invented blood oxygen and VO2
    max are the same for any two sequences of random values, and so is a
    blood-oxygen reading the session came with: loading again changes
    nothing else. *)
Theorem enriched_stable_fields {date : DateParser}
    (data : list Session) (g1 g2 : Random) :
  map (fun r => (with_spo2_pct (session r) None, coach r, training_type r,
                 duration_minutes r, pace_min_per_km r))
      (fst (enriched data g1)) =
  map (fun r => (with_spo2_pct (session r) None, coach r, training_type r,
                 duration_minutes r, pace_min_per_km r))
      (fst (enriched data g2)) /\
  (Forall (fun s => spo2_pct s <> None) data ->
   map session (fst (enriched data g1)) = map session (fst (enriched data g2))).
Proof.
  unfold enriched, enrichedWith, Array_map. generalize 0%nat as idx.
  revert g1 g2. induction data as [|s data IH]; intros g1 g2 idx.
  - split; reflexivity.
  - rewrite !Array_map_from_cons. cbn [map].
    destruct (IH (snd (enrich coaches trainings s idx g1))
                 (snd (enrich coaches trainings s idx g2)) (S idx)) as [IH1 IH2].
    split.
    + rewrite IH1. f_equal.
      pose proof (enrich_stable s idx g1) as E1.
      pose proof (enrich_stable s idx g2) as E2.
      cbv zeta in E1, E2. rewrite E1, E2. reflexivity.
    + intros Hall. inversion Hall as [|? ? Hs Hrest]; subst.
      rewrite (IH2 Hrest). f_equal.
      destruct (enrich_fields coaches trainings s idx g1) as (F1 & _).
      destruct (enrich_fields coaches trainings s idx g2) as (F2 & _).
      rewrite F1, F2, !enrich_spo2.
      destruct (spo2_pct s); [reflexivity|congruence].
Qed.

Lemma enriched_stable_fields_witness :
  Forall (fun s => spo2_pct s <> None) [rest2; run3] /\
  map session (fst (@enriched isoDate [rest2; run3] tenths))
  = map session (fst (@enriched isoDate [rest2; run3]
                        {| outcomes := fun _ => Fin (1 # 2); drawn := 7 |})).
Proof.
  assert (H : Forall (fun s => spo2_pct s <> None) [rest2; run3]).
  { repeat constructor; discriminate. }
  split; [exact H|].
  apply (proj2 (@enriched_stable_fields isoDate [rest2; run3] tenths
                  {| outcomes := fun _ => Fin (1 # 2); drawn := 7 |}) H).
Defined.

(** ** Date filter: what it keeps whatever the dates are *)

Lemma filter_sublist {A : Type} (p : A -> bool) (l : list A) :
  sublist (List.filter p l) l.
Proof.
  induction l as [|x l IH]; cbn [List.filter]; [constructor|].
  destruct (p x); [apply sublist_skip|apply sublist_cons]; exact IH.
Qed.

Lemma filter_sublist_weaker {A : Type} (p q : A -> bool) (l : list A) :
  (forall x, p x = true -> q x = true) ->
  sublist (List.filter p l) (List.filter q l).
Proof.
  intros Hpq. induction l as [|x l IH]; cbn [List.filter]; [constructor|].
  destruct (p x) eqn:Ep.
  - rewrite (Hpq x Ep). apply sublist_skip. exact IH.
  - destruct (q x); [apply sublist_cons|]; exact IH.
Qed.

Lemma filter_none {A : Type} (p : A -> bool) (l : list A) :
  (forall x, p x = false) -> List.filter p l = [].
Proof.
  intros Hp. induction l as [|x l IH]; cbn [List.filter]; [reflexivity|].
  rewrite Hp. exact IH.
Qed.

Lemma filter_twice {A : Type} (p q : A -> bool) (l : list A) :
  List.filter p (List.filter q l) = List.filter q (List.filter p l).
Proof.
  induction l as [|x l IH]; cbn [List.filter]; [reflexivity|].
  destruct (p x) eqn:Ep; destruct (q x) eqn:Eq; cbn [List.filter];
    rewrite ?Ep, ?Eq, IH; reflexivity.
Qed.

Lemma filter_again {A : Type} (p : A -> bool) (l : list A) :
  List.filter p (List.filter p l) = List.filter p l.
Proof.
  induction l as [|x l IH]; cbn [List.filter]; [reflexivity|].
  destruct (p x) eqn:Ep; cbn [List.filter]; rewrite ?Ep, IH; reflexivity.
Qed.

(** X14. Whatever the rows and the two texts are, the filter only drops rows:
    what it returns is a subsequence of the rows. Emptying one of the two
    dates never hides a row that was listed. *)
Theorem filtered_sublist {date : DateParser}
    (rows : list UISession) (fromDate toDate : string) :
  sublist (filtered rows fromDate toDate) rows /\
  sublist (filtered rows fromDate toDate) (filtered rows "" toDate) /\
  sublist (filtered rows fromDate toDate) (filtered rows fromDate "").
Proof.
  assert (Hle : forall t x, JS.ge t x = true -> JS.ge t NegInfinity = true).
  { intros t x. unfold JS.ge. destruct t, x; cbn; congruence. }
  assert (Hge : forall t x, JS.le t x = true -> JS.le t Infinity = true).
  { intros t x. destruct t, x; cbn; congruence. }
  unfold filtered. cbn [emptyString String.eqb andb].
  destruct (emptyString fromDate) eqn:Ef; destruct (emptyString toDate) eqn:Et;
    cbn [andb].
  - repeat split; reflexivity.
  - repeat split; try reflexivity; apply filter_sublist.
  - repeat split; try reflexivity; apply filter_sublist.
  - split; [apply filter_sublist|]. split.
    + apply filter_sublist_weaker. intros r H.
      apply andb_true_iff in H. destruct H as [H1 H2].
      rewrite H2, (Hle _ _ H1). reflexivity.
    + apply filter_sublist_weaker. intros r H.
      apply andb_true_iff in H. destruct H as [H1 H2].
      rewrite H1, (Hge _ _ H2). reflexivity.
Qed.

(** X15. A date text that is not empty and does not read as a date hides every
    row. *)
Theorem filtered_unreadable_bound {date : DateParser}
    (rows : list UISession) (fromDate toDate : string) :
  (fromDate <> "" /\ getTime fromDate = NaN) \/ (toDate <> "" /\ getTime toDate = NaN) ->
  filtered rows fromDate toDate = [].
Proof.
  intros H. unfold filtered.
  destruct H as [[Hne Hnan]|[Hne Hnan]]; apply emptyString_false in Hne;
    rewrite Hne, Hnan; rewrite ?andb_false_r; cbn [andb];
    apply filter_none; intros r; unfold JS.ge.
  - destruct (getTime (start_time (session r))); reflexivity.
  - rewrite andb_false_iff. right.
    destruct (getTime (start_time (session r))); reflexivity.
Qed.

Lemma filtered_unreadable_bound_witness :
  (("March" <> "" /\ @getTime isoDate "March" = NaN) \/
   ("" <> "" /\ @getTime isoDate "" = NaN)) /\
  @filtered isoDate march "March" "" = [].
Proof.
  assert (H : ("March" <> "" /\ @getTime isoDate "March" = NaN) \/
              ("" <> "" /\ @getTime isoDate "" = NaN)).
  { left. split; [discriminate|reflexivity]. }
  split; [exact H|].
  apply (@filtered_unreadable_bound isoDate march "March" "" H).
Defined.

(** X16. A range whose upper date is before its lower date hides every row,
    whatever the start times of the rows are. *)
Theorem filtered_reversed_range {date : DateParser}
    (rows : list UISession) (fromDate toDate : string) (lower upper : Q) :
  getTime fromDate = Fin lower ->
  getTime toDate = Fin upper ->
  fromDate <> "" -> toDate <> "" ->
  upper < lower ->
  filtered rows fromDate toDate = [].
Proof.
  intros Hl Hu Hf Ht Hrev. unfold filtered.
  apply emptyString_false in Hf, Ht. rewrite Hf, Ht, Hl, Hu. cbn [andb].
  apply filter_none. intros r. unfold JS.ge.
  destruct (getTime (start_time (session r))) as [| |t|]; try reflexivity.
  apply andb_false_iff.
  destruct (JS.le (Fin lower) (Fin t)) eqn:E1; [right|left; reflexivity].
  apply le_Fin in E1. apply le_Fin_false. lra.
Qed.

Lemma filtered_reversed_range_witness :
  (@getTime isoDate "2024-03-10" = Fin (inject_Z 1710028800000) /\
   @getTime isoDate "2024-03-05" = Fin (inject_Z 1709596800000) /\
   "2024-03-10" <> "" /\ "2024-03-05" <> "" /\
   inject_Z 1709596800000 < inject_Z 1710028800000) /\
  @filtered isoDate march "2024-03-10" "2024-03-05" = [].
Proof.
  split; [repeat split; try reflexivity; discriminate|].
  apply (@filtered_reversed_range isoDate march "2024-03-10" "2024-03-05"
           (inject_Z 1710028800000) (inject_Z 1709596800000));
    try reflexivity; discriminate.
Defined.

(** X17. Filtering what has been filtered with the same dates changes nothing,
    and two filters give the same rows in either order. *)
Theorem filtered_compose {date : DateParser}
    (rows : list UISession) (from1 to1 from2 to2 : string) :
  filtered (filtered rows from1 to1) from1 to1 = filtered rows from1 to1 /\
  filtered (filtered rows from1 to1) from2 to2
  = filtered (filtered rows from2 to2) from1 to1.
Proof.
  unfold filtered.
  destruct (emptyString from1 && emptyString to1);
    destruct (emptyString from2 && emptyString to2);
    split; try reflexivity.
  - apply filter_again.
  - apply filter_again.
  - apply filter_twice.
Qed.

(** X18. A row whose start time is not a date is listed only while both date
    texts are empty. *)
Theorem filtered_undated_row {date : DateParser}
    (rows : list UISession) (fromDate toDate : string) (r : UISession) :
  getTime (start_time (session r)) = NaN ->
  (In r (filtered rows fromDate toDate) <->
   In r rows /\ fromDate = "" /\ toDate = "").
Proof.
  intros Hnan. unfold filtered.
  destruct (emptyString fromDate && emptyString toDate) eqn:E.
  - apply andb_true_iff in E. destruct E as [Ef Et].
    apply emptyString_true in Ef, Et. tauto.
  - rewrite filter_In, Hnan.
    assert (Hge : forall x, JS.ge NaN x = false)
      by (intros x; unfold JS.ge; destruct x; reflexivity).
    rewrite Hge. cbn [andb].
    apply andb_false_iff in E. split; [intros [_ H]; discriminate|].
    intros (_ & -> & ->). destruct E as [E|E]; discriminate.
Qed.

Lemma filtered_undated_row_witness :
  @getTime isoDate (start_time (session (row_of undatedRun))) = NaN /\
  (In (row_of undatedRun) (@filtered isoDate [row_of run1; row_of undatedRun] "" "2024-12-31")
   <-> In (row_of undatedRun) [row_of run1; row_of undatedRun] /\
       "" = "" /\ "2024-12-31" = "").
Proof.
  split; [reflexivity|].
  apply (@filtered_undated_row isoDate [row_of run1; row_of undatedRun] "" "2024-12-31"
           (row_of undatedRun) eq_refl).
Defined.

(** ** The weather cache under clicks *)

Lemma onRowClick_hit (s : UISession) (st : State) (wx : list WeatherObservation) :
  weatherById st !! id (session s) = Some wx ->
  onRowClick s st = Done (setSelected (Some s) st).
Proof. intros H. unfold onRowClick. rewrite H. reflexivity. Qed.

Lemma onRowClick_miss_fulfilled (s : UISession) (st : State) :
  weatherById st !! id (session s) = None ->
  exists resume : Fetch -> State -> State,
    onRowClick s st = Await (setSelected (Some s) st) (id (session s)) resume /\
    (forall (wx : list WeatherObservation) (now : State),
        resume (Fulfilled wx) now
        = setWeatherById (fun prev => <[id (session s) := wx]> prev) now) /\
    (forall (e : string) (now : State),
        resume (Rejected e) now = console_error "weather fetch failed" e now).
Proof.
  intros Hmiss. unfold onRowClick. rewrite Hmiss. eexists. repeat split; reflexivity.
Qed.

(** X19. When the weather of an uncached session arrives, it is stored under the
    id of that session in the cache of that moment: the entries of the
    other ids, the selection and the console stay as they are, and the next
    click on the row asks for nothing. *)
Theorem onRowClick_fills_slot (s : UISession) (st : State)
    (wx : list WeatherObservation) :
  weatherById st !! id (session s) = None ->
  exists (st' : State) (resume : Fetch -> State -> State),
    onRowClick s st = Await st' (id (session s)) resume /\
    selected st' = Some s /\
    forall now : State,
      weatherById (resume (Fulfilled wx) now) !! id (session s) = Some wx /\
      (forall j : Z, j <> id (session s) ->
                     weatherById (resume (Fulfilled wx) now) !! j = weatherById now !! j) /\
      selected (resume (Fulfilled wx) now) = selected now /\
      console (resume (Fulfilled wx) now) = console now /\
      requested (onRowClick s (resume (Fulfilled wx) now)) = [].
Proof.
  intros Hmiss.
  destruct (onRowClick_miss_fulfilled s st Hmiss) as (resume & Hcall & Hok & _).
  exists (setSelected (Some s) st), resume.
  split; [exact Hcall|]. split; [reflexivity|].
  intros now. rewrite Hok. cbn [setWeatherById weatherById selected console].
  assert (Hin : <[id (session s) := wx]> (weatherById now) !! id (session s) = Some wx)
    by apply lookup_insert_eq.
  split; [exact Hin|]. split.
  - intros j Hj. apply lookup_insert_ne. congruence.
  - split; [reflexivity|]. split; [reflexivity|].
    rewrite (onRowClick_hit s _ wx); [reflexivity|exact Hin].
Qed.

Lemma onRowClick_fills_slot_witness :
  weatherById initial !! id (session (row_of run1)) = None /\
  exists (st' : State) (resume : Fetch -> State -> State),
    onRowClick (row_of run1) initial = Await st' (id (session (row_of run1))) resume /\
    selected st' = Some (row_of run1) /\
    forall now : State,
      weatherById (resume (Fulfilled [mild]) now) !! id (session (row_of run1))
      = Some [mild] /\
      (forall j : Z, j <> id (session (row_of run1)) ->
                     weatherById (resume (Fulfilled [mild]) now) !! j
                     = weatherById now !! j) /\
      selected (resume (Fulfilled [mild]) now) = selected now /\
      console (resume (Fulfilled [mild]) now) = console now /\
      requested (onRowClick (row_of run1) (resume (Fulfilled [mild]) now)) = [].
Proof.
  split; [reflexivity|].
  apply (onRowClick_fills_slot (row_of run1) initial [mild] eq_refl).
Defined.

Lemma settle_onRowClick_cache (api : Z -> Fetch) (s : UISession) (st : State) :
  weatherById (settle api (onRowClick s st)) =
  match weatherById st !! id (session s), api (id (session s)) with
  | None, Fulfilled wx => <[id (session s) := wx]> (weatherById st)
  | _, _ => weatherById st
  end.
Proof.
  unfold onRowClick. destruct (weatherById st !! id (session s)) eqn:E; [reflexivity|].
  cbn [settle]. destruct (api (id (session s))); reflexivity.
Qed.

Lemma clicks_cons (api : Z -> Fetch) (s : UISession) (rest : list UISession) (st : State) :
  clicks api (s :: rest) st =
  (fst (clicks api rest (settle api (onRowClick s st))),
   (requested (onRowClick s st)
    ++ snd (clicks api rest (settle api (onRowClick s st))))%list).
Proof.
  cbn [clicks]. destruct (clicks api rest (settle api (onRowClick s st))). reflexivity.
Qed.

(** X20. Clicks that each run to their end never remove or replace an entry of
    the cache: what is stored for an id stays stored, whatever the later
    fetches return. *)
Theorem clicks_keep_entries (api : Z -> Fetch) (clicked : list UISession) (st : State)
    (j : Z) (wx : list WeatherObservation) :
  weatherById st !! j = Some wx ->
  weatherById (fst (clicks api clicked st)) !! j = Some wx.
Proof.
  revert st. induction clicked as [|s rest IH]; intros st Hj; [exact Hj|].
  rewrite clicks_cons. cbn [fst]. apply IH.
  rewrite settle_onRowClick_cache.
  destruct (weatherById st !! id (session s)) eqn:E; [exact Hj|].
  destruct (api (id (session s))); [|exact Hj].
  rewrite lookup_insert_ne; [exact Hj|]. congruence.
Qed.

Lemma clicks_keep_entries_witness :
  weatherById cachedFirst !! 1%Z = Some [mild] /\
  weatherById
    (fst (clicks (fun _ => Fulfilled []) [row_of run1; row_of rest2; row_of run1] cachedFirst))
    !! 1%Z = Some [mild].
Proof.
  split; [reflexivity|].
  apply (clicks_keep_entries (fun _ => Fulfilled [])
           [row_of run1; row_of rest2; row_of run1] cachedFirst 1%Z [mild] eq_refl).
Defined.

(** X21. When every fetch succeeds and each click runs to its end before the
    next, the weather of an id is asked for at most once, and only for ids
    that were not in the cache; afterwards every clicked row has an entry. *)
Theorem clicks_fetch_once (api : Z -> Fetch) (clicked : list UISession) (st : State) :
  (forall j : Z, exists wx, api j = Fulfilled wx) ->
  NoDup (snd (clicks api clicked st)) /\
  (forall j : Z, In j (snd (clicks api clicked st)) ->
                 weatherById st !! j = None /\
                 In j (map (fun s => id (session s)) clicked)) /\
  (forall s : UISession, In s clicked ->
                         exists wx, weatherById (fst (clicks api clicked st))
                                      !! id (session s) = Some wx).
Proof.
  intros Hapi. revert st. induction clicked as [|s rest IH]; intros st.
  - cbn. split; [constructor|]. split; [tauto|tauto].
  - rewrite clicks_cons. cbn [fst snd].
    set (st1 := settle api (onRowClick s st)).
    destruct (IH st1) as (Hnd & Hasked & Hcached).
    assert (Hcache1 : weatherById st1 =
              match weatherById st !! id (session s), api (id (session s)) with
              | None, Fulfilled wx => <[id (session s) := wx]> (weatherById st)
              | _, _ => weatherById st
              end) by apply settle_onRowClick_cache.
    destruct (weatherById st !! id (session s)) as [w|] eqn:E.
    + rewrite (onRowClick_hit s st w E). cbn [requested app].
      split; [exact Hnd|]. split.
      * intros j Hj. destruct (Hasked j Hj) as [H1 H2].
        rewrite Hcache1 in H1. split; [exact H1|right; exact H2].
      * intros s' [<-|Hs']; [|auto].
        exists w. apply clicks_keep_entries. rewrite Hcache1. exact E.
    + destruct (onRowClick_miss s st E) as (resume & Hcall & _).
      rewrite Hcall. cbn [requested app].
      destruct (Hapi (id (session s))) as [wx Hwx]. rewrite Hwx in Hcache1.
      assert (Hin1 : weatherById st1 !! id (session s) = Some wx).
      { rewrite Hcache1. apply lookup_insert_eq. }
      split; [|split].
      * constructor; [|exact Hnd]. intros Hin. apply list_elem_of_In in Hin.
        destruct (Hasked _ Hin) as [Hnone _]. congruence.
      * intros j [<-|Hj]; [split; [exact E|left; reflexivity]|].
        destruct (Hasked j Hj) as [H1 H2]. split; [|right; exact H2].
        rewrite Hcache1 in H1.
        destruct (decide (j = id (session s))) as [->|Hne].
        -- rewrite lookup_insert_eq in H1. discriminate.
        -- rewrite lookup_insert_ne in H1 by congruence. exact H1.
      * intros s' [<-|Hs']; [|auto].
        exists wx. apply clicks_keep_entries. exact Hin1.
Qed.

Lemma clicks_fetch_once_witness :
  (forall j : Z, exists wx, (fun _ : Z => Fulfilled [mild]) j = Fulfilled wx) /\
  NoDup (snd (clicks (fun _ => Fulfilled [mild])
                [row_of run1; row_of rest2; row_of run1] initial)).
Proof.
  assert (H : forall j : Z, exists wx, (fun _ : Z => Fulfilled [mild]) j = Fulfilled wx).
  { intros j. exists [mild]. reflexivity. }
  split; [exact H|].
  apply (proj1 (clicks_fetch_once (fun _ => Fulfilled [mild])
                  [row_of run1; row_of rest2; row_of run1] initial H)).
Defined.

(** X22. Two clicks on an uncached row before the weather of the first arrives
    both ask for it, and of the two answers the one that arrives last is
    the one the cache ends with. *)
Theorem onRowClick_twice_in_flight (s : UISession) (st : State) :
  weatherById st !! id (session s) = None ->
  exists (st1 st2 : State) (resume1 resume2 : Fetch -> State -> State),
    onRowClick s st = Await st1 (id (session s)) resume1 /\
    onRowClick s st1 = Await st2 (id (session s)) resume2 /\
    forall w1 w2 : list WeatherObservation,
      weatherById (resume2 (Fulfilled w2) (resume1 (Fulfilled w1) st2))
        !! id (session s) = Some w2 /\
      weatherById (resume1 (Fulfilled w1) (resume2 (Fulfilled w2) st2))
        !! id (session s) = Some w1.
Proof.
  intros Hmiss.
  destruct (onRowClick_miss_fulfilled s st Hmiss) as (k1 & Hc1 & Hok1 & _).
  assert (Hmiss1 : weatherById (setSelected (Some s) st) !! id (session s) = None)
    by exact Hmiss.
  destruct (onRowClick_miss_fulfilled s _ Hmiss1) as (k2 & Hc2 & Hok2 & _).
  exists (setSelected (Some s) st), (setSelected (Some s) (setSelected (Some s) st)), k1, k2.
  split; [exact Hc1|]. split; [exact Hc2|].
  intros w1 w2. rewrite !Hok1, !Hok2. cbn [setWeatherById weatherById].
  split; apply lookup_insert_eq.
Qed.

Lemma onRowClick_twice_in_flight_witness :
  weatherById initial !! id (session (row_of run1)) = None /\
  exists (st1 st2 : State) (resume1 resume2 : Fetch -> State -> State),
    onRowClick (row_of run1) initial = Await st1 (id (session (row_of run1))) resume1 /\
    onRowClick (row_of run1) st1 = Await st2 (id (session (row_of run1))) resume2 /\
    forall w1 w2 : list WeatherObservation,
      weatherById (resume2 (Fulfilled w2) (resume1 (Fulfilled w1) st2))
        !! id (session (row_of run1)) = Some w2 /\
      weatherById (resume1 (Fulfilled w1) (resume2 (Fulfilled w2) st2))
        !! id (session (row_of run1)) = Some w1.
Proof.
  split; [reflexivity|].
  apply (onRowClick_twice_in_flight (row_of run1) initial eq_refl).
Defined.

(** ** What the weather cell and the details say *)

(** X23. While the fetches for a row fail, its weather cell keeps the faded
    invitation to click and the details keep saying that the weather is
    loading, however often the row is clicked. *)
Theorem weather_after_failures {date : DateParser}
    (api : Z -> Fetch) (s : UISession) (st : State) (n : nat) :
  weatherById st !! id (session s) = None ->
  (exists e, api (id (session s)) = Rejected e) ->
  weatherCell (weatherById (fst (clicks api (List.repeat s n) st))) s
  = Span "opacity" (num (JS.literal 0.7)) [str "Click row…"] /\
  weatherNearStart (weatherById (fst (clicks api (List.repeat s n) st))) s
  = Div [str "Loading…"].
Proof.
  intros Hmiss Hrej.
  destruct (clicks_all_rejected api (List.repeat s n) st) as [Hw _].
  { intros c Hc. apply repeat_spec in Hc. subst c. auto. }
  unfold weatherCell, weatherNearStart. rewrite Hw, Hmiss. split; reflexivity.
Qed.

Lemma weather_after_failures_witness :
  (weatherById initial !! id (session (row_of run1)) = None /\
   exists e, (fun _ : Z => Rejected "503") (id (session (row_of run1))) = Rejected e) /\
  @weatherCell isoDate
    (weatherById (fst (clicks (fun _ => Rejected "503") (List.repeat (row_of run1) 4) initial)))
    (row_of run1)
  = Span "opacity" (num (JS.literal 0.7)) [str "Click row…"] /\
  @weatherNearStart isoDate
    (weatherById (fst (clicks (fun _ => Rejected "503") (List.repeat (row_of run1) 4) initial)))
    (row_of run1)
  = Div [str "Loading…"].
Proof.
  assert (H : exists e, (fun _ : Z => Rejected "503") (id (session (row_of run1)))
                        = Rejected e).
  { exists "503". reflexivity. }
  split; [split; [reflexivity|exact H]|].
  apply (@weather_after_failures isoDate (fun _ => Rejected "503") (row_of run1) initial
           4%nat eq_refl H).
Defined.

(** X24. When the service answers with no observations, the answer is cached:
    the weather cell of the row still invites to click, the details say
    that there is no observation, and further clicks on the row ask for
    nothing. *)
Theorem weather_after_empty_answer {date : DateParser}
    (api : Z -> Fetch) (s : UISession) (st : State) :
  weatherById st !! id (session s) = None ->
  api (id (session s)) = Fulfilled [] ->
  weatherCell (weatherById (settle api (onRowClick s st))) s
  = Leaf (str "Click row…") /\
  weatherNearStart (weatherById (settle api (onRowClick s st))) s
  = Div [str "No observation."] /\
  forall clicked : list UISession,
    Forall (fun c => id (session c) = id (session s)) clicked ->
    snd (clicks api clicked (settle api (onRowClick s st))) = [].
Proof.
  intros Hmiss Hapi.
  assert (Hin : weatherById (settle api (onRowClick s st)) !! id (session s) = Some []).
  { rewrite settle_onRowClick_cache, Hmiss, Hapi. apply lookup_insert_eq. }
  unfold weatherCell, weatherNearStart. rewrite Hin. cbn [pickClosest badge].
  split; [reflexivity|]. split; [reflexivity|].
  generalize dependent (settle api (onRowClick s st)). clear.
  intros st0 Hin clicked. revert st0 Hin.
  induction clicked as [|c rest IH]; intros st0 Hin Hall; [reflexivity|].
  inversion Hall as [|? ? Hc Hrest]; subst.
  rewrite clicks_cons. cbn [snd].
  assert (Hc' : weatherById st0 !! id (session c) = Some []) by (rewrite Hc; exact Hin).
  rewrite (onRowClick_hit c st0 [] Hc'). cbn [requested settle app].
  apply IH; [exact Hin|exact Hrest].
Qed.

Lemma weather_after_empty_answer_witness :
  (weatherById initial !! id (session (row_of run1)) = None /\
   (fun _ : Z => Fulfilled []) (id (session (row_of run1))) = Fulfilled []) /\
  @weatherCell isoDate
    (weatherById (settle (fun _ => Fulfilled []) (onRowClick (row_of run1) initial)))
    (row_of run1)
  = Leaf (str "Click row…") /\
  @weatherNearStart isoDate
    (weatherById (settle (fun _ => Fulfilled []) (onRowClick (row_of run1) initial)))
    (row_of run1)
  = Div [str "No observation."] /\
  forall clicked : list UISession,
    Forall (fun c => id (session c) = id (session (row_of run1))) clicked ->
    snd (clicks (fun _ => Fulfilled []) clicked
           (settle (fun _ => Fulfilled []) (onRowClick (row_of run1) initial))) = [].
Proof.
  split; [split; reflexivity|].
  apply (@weather_after_empty_answer isoDate (fun _ => Fulfilled []) (row_of run1) initial
           eq_refl eq_refl).
Defined.

(** X25. With observations in the cache, the weather cell and the details show
    the same observation of the cached ones: the cell its temperature and
    precipitation, the details these two with humidity and wind between
    them; a value the observation lacks is shown as zero. *)
Theorem weather_cell_and_details_agree {date : DateParser}
    (cache : gmap Z (list WeatherObservation)) (r : UISession)
    (first : WeatherObservation) (rest : list WeatherObservation) :
  cache !! id (session r) = Some (first :: rest) ->
  exists c : WeatherObservation,
    In c (first :: rest) /\
    weatherCell cache r
    = Leaf (str (toFixed (default (Fin 0) (temperature_c c)) 1 ++ "°C, "
                 ++ toFixed (default (Fin 0) (precipitation_mm c)) 1 ++ "mm")) /\
    weatherNearStart cache r
    = Div [str (toFixed (default (Fin 0) (temperature_c c)) 1); str "°C | ";
           str (toFixed (default (Fin 0) (humidity_pct c)) 0); str "% RH | ";
           str (toFixed (default (Fin 0) (wind_speed_ms c)) 1); str " m/s | ";
           str (toFixed (default (Fin 0) (precipitation_mm c)) 1); str " mm"].
Proof.
  intros Hin.
  destruct (pickClosest_cons_In first rest (start_time (session r))) as (c & Hc & Hmem).
  exists c. split; [exact Hmem|].
  unfold weatherCell, weatherNearStart. rewrite Hin, Hc. split; reflexivity.
Qed.

Lemma weather_cell_and_details_agree_witness :
  weatherById cachedFirst !! id (session (row_of run1)) = Some [mild] /\
  @weatherCell isoDate (weatherById cachedFirst) (row_of run1)
  = Leaf (str "21.5°C, 0.0mm") /\
  @weatherNearStart isoDate (weatherById cachedFirst) (row_of run1)
  = Div [str "21.5"; str "°C | "; str "55"; str "% RH | "; str "0.0"; str " m/s | ";
         str "0.0"; str " mm"].
Proof.
  split; [reflexivity|].
  destruct (@weather_cell_and_details_agree isoDate (weatherById cachedFirst)
              (row_of run1) mild [] eq_refl) as (c & [<-|[]] & Hcell & Hpanel).
  split; [exact Hcell|exact Hpanel].
Defined.

(** ** The blocks of the page *)

Lemma length_shown {A : Type} (b : bool) (x : A) :
  List.length (shown b x) = if b then 1%nat else 0%nat.
Proof. destruct b; reflexivity. Qed.

Lemma filter_cons_length {A : Type} (p : A -> bool) (x : A) (l : list A) :
  List.length (List.filter p (x :: l)) =
  ((if p x then 1 else 0) + List.length (List.filter p l))%nat.
Proof. cbn [List.filter]. destruct (p x); reflexivity. Qed.

Lemma headerRow_length (v : Visibility) :
  List.length (headerRow v) = List.length (List.filter v columnKeys).
Proof.
  unfold headerRow, columnKeys.
  rewrite !length_app, !length_shown, !filter_cons_length.
  cbn [List.filter List.length]. rewrite Nat.add_0_r. reflexivity.
Qed.

Lemma bodyRow_length {date : DateParser} {locale : LocaleText}
    (v : Visibility) (cache : gmap Z (list WeatherObservation)) (r : UISession) :
  List.length (bodyRow v cache r) = List.length (List.filter v columnKeys).
Proof.
  unfold bodyRow, columnKeys.
  rewrite !length_app, !length_shown, !filter_cons_length.
  cbn [List.filter List.length]. rewrite Nat.add_0_r. reflexivity.
Qed.

Lemma page_Table {date : DateParser} {locale : LocaleText}
    (st : State) (head : list string) (body : list (list Node)) :
  In (Table head body) (page st) ->
  head = headerRow (visibleCols st) /\
  body = map (bodyRow (visibleCols st) (weatherById st))
             (filtered (rows st) (fromDate st) (toDate st)).
Proof.
  unfold page. intros H.
  repeat (apply in_app_or in H; destruct H as [H|H]).
  - destruct (loading st); [destruct H as [H|[]]; discriminate|destruct H].
  - unfold errorLine in H. destruct (error st) as [m|]; [|destruct H].
    destruct (emptyString m); [destruct H|destruct H as [H|[]]; discriminate].
  - destruct (negb (loading st) && _); [destruct H as [H|[]]; discriminate|destruct H].
  - destruct (negb _); [|destruct H]. destruct H as [H|[]].
    injection H as <- <-. split; reflexivity.
Qed.

(** X26. Whenever the page draws the table, the head has one cell for each
    checked column, every row has as many cells as the head, and there is
    one row for each row the date filter lets through. *)
Theorem table_rectangular {date : DateParser} {locale : LocaleText}
    (st : State) (head : list string) (body : list (list Node)) :
  In (Table head body) (page st) ->
  List.length head = List.length (List.filter (visibleCols st) columnKeys) /\
  Forall (fun row => List.length row = List.length head) body /\
  List.length body = List.length (filtered (rows st) (fromDate st) (toDate st)).
Proof.
  intros H. destruct (page_Table st head body H) as [-> ->].
  split; [apply headerRow_length|]. split.
  - apply List.Forall_forall. intros row Hrow. apply in_map_iff in Hrow.
    destruct Hrow as (r & <- & _). rewrite bodyRow_length, headerRow_length. reflexivity.
  - apply length_map.
Qed.

Lemma table_rectangular_witness :
  exists (head : list string) (body : list (list Node)),
    In (Table head body) (@page isoDate plainLocale loadedFive) /\
    List.length head = List.length (List.filter (visibleCols loadedFive) columnKeys) /\
    Forall (fun row => List.length row = List.length head) body /\
    List.length body
    = List.length (@filtered isoDate (rows loadedFive) (fromDate loadedFive)
                     (toDate loadedFive)).
Proof.
  eexists _, _. split; [left; reflexivity|].
  apply (@table_rectangular isoDate plainLocale loadedFive). left. reflexivity.
Defined.

Lemma spread_with_same (v : Visibility) (k : ColumnKey) (b : bool) :
  spread_with v k b k = b.
Proof. unfold spread_with. destruct (decide (k = k)); [reflexivity|congruence]. Qed.

Lemma spread_with_other (v : Visibility) (k k' : ColumnKey) (b : bool) :
  k' <> k -> spread_with v k b k' = v k'.
Proof.
  intros H. unfold spread_with. destruct (decide (k' = k)); [congruence|reflexivity].
Qed.

(** X27. Toggling a column changes the number of cells of the table head by
    exactly one: one less when the column was shown, one more when it was
    hidden. *)
Theorem toggleCol_column_count (st : State) (k : ColumnKey) :
  List.length (headerRow (visibleCols (toggleCol k st))) =
  if visibleCols st k
  then (List.length (headerRow (visibleCols st)) - 1)%nat
  else S (List.length (headerRow (visibleCols st))).
Proof.
  unfold toggleCol, setVisibleCols. cbn [visibleCols].
  set (v := visibleCols st).
  unfold headerRow. rewrite !length_app, !length_shown.
  destruct k; rewrite spread_with_same, !spread_with_other by discriminate;
    match goal with |- context [negb (v ?c)] => destruct (v c) end;
    cbn [negb]; lia.
Qed.

(** ** The page after its load *)

Lemma load_Sessions {date : DateParser} (data : list Session) (st : State) (g : Random) :
  fst (load (Sessions data) st g)
  = setLoading false (setRows (fst (enriched data g)) st).
Proof.
  unfold load, bind, ret. destruct (enriched data g). reflexivity.
Qed.

Lemma enriched_length {date : DateParser} (data : list Session) (g : Random) :
  List.length (fst (enriched data g)) = List.length data.
Proof.
  unfold enriched, enrichedWith, Array_map.
  apply (Array_map_from_nth (enrich coaches trainings) data
           (enrich_outcomes coaches trainings) 0 g).
Qed.

(** X28. What the fresh page draws once its load has settled. After a failure
    it draws the line for an empty table, below the error line when the
    error has a text that is not empty. After a load of no session it draws
    the line for an empty table alone. After a load of sessions it draws
    the table alone, with the seven columns that are on at the start and
    one row for each session. *)
Theorem page_after_load {date : DateParser} {locale : LocaleText} (g : Random) :
  (forall e : Thrown,
      default (text e) (message e) <> "" ->
      page (fst (load (Failure e) initial g))
      = [ErrorLine (default (text e) (message e)); EmptyLine]) /\
  (forall e : Thrown,
      default (text e) (message e) = "" ->
      page (fst (load (Failure e) initial g)) = [EmptyLine]) /\
  page (fst (load (Sessions []) initial g)) = [EmptyLine] /\
  (forall data : list Session,
      data <> [] ->
      exists body : list (list Node),
        page (fst (load (Sessions data) initial g))
        = [Table ["ID"; "Start"; "Duration"; "Sport"; "Distance (km)"; "SpO₂ (%)";
                  "Weather"] body] /\
        List.length body = List.length data /\
        Forall (fun row => List.length row = 7%nat) body).
Proof.
  split; [|split; [|split]].
  - intros e He. unfold load, ret, page. cbn.
    apply emptyString_false in He. rewrite He. reflexivity.
  - intros e He. unfold load, ret, page. cbn.
    apply emptyString_true in He. rewrite He. reflexivity.
  - reflexivity.
  - intros data Hne. rewrite load_Sessions. unfold page.
    cbn [setLoading setRows loading error rows fromDate toDate visibleCols weatherById
         initial errorLine shown negb andb app].
    change (filtered (fst (enriched data g)) "" "") with (fst (enriched data g)).
    pose proof (enriched_length data g) as Hlen.
    destruct (fst (enriched data g)) as [|r rs] eqn:E.
    { destruct data; [congruence|discriminate]. }
    cbn [noLength negb shown app].
    eexists. split; [reflexivity|]. split.
    + rewrite length_map. exact Hlen.
    + apply List.Forall_forall. intros row Hrow. apply in_map_iff in Hrow.
      destruct Hrow as (r' & <- & _). reflexivity.
Qed.

Lemma page_after_load_witness :
  five <> [] /\
  exists body : list (list Node),
    @page isoDate plainLocale (fst (@load isoDate (Sessions five) initial tenths))
    = [Table ["ID"; "Start"; "Duration"; "Sport"; "Distance (km)"; "SpO₂ (%)";
              "Weather"] body] /\
    List.length body = List.length five /\
    Forall (fun row => List.length row = 7%nat) body.
Proof.
  split; [discriminate|].
  apply (proj2 (proj2 (proj2 (@page_after_load isoDate plainLocale tenths))) five).
  discriminate.
Defined.

(** ** What clicks leave alone *)

Lemma settle_onRowClick_frame (api : Z -> Fetch) (s : UISession) (st : State) :
  let st' := settle api (onRowClick s st) in
  rows st' = rows st /\ loading st' = loading st /\ error st' = error st /\
  visibleCols st' = visibleCols st /\ fromDate st' = fromDate st /\
  toDate st' = toDate st /\ selected st' = Some s.
Proof.
  unfold onRowClick. destruct (weatherById st !! id (session s)); cbn [settle].
  - repeat split; reflexivity.
  - destruct (api (id (session s))); repeat split; reflexivity.
Qed.

Lemma last_any_default {A : Type} (l : list A) :
  forall y d d' : A, List.last (y :: l) d = List.last (y :: l) d'.
Proof.
  induction l as [|z l IH]; intros y d d'; [reflexivity|].
  change (List.last (z :: l) d = List.last (z :: l) d'). apply IH.
Qed.

Lemma last_after {A : Type} (x d : A) (l : list A) :
  List.last l x = List.last (x :: l) d.
Proof.
  destruct l as [|y l]; [reflexivity|].
  change (List.last (y :: l) x = List.last (y :: l) d). apply last_any_default.
Qed.

(** X29. Clicks on rows, each running to its end, change the selection, the
    cache and the console only: the rows, the dates, the columns and the
    flags of the load stay as they are, so the table lists the same rows.
    The selection is the row clicked last. *)
Theorem clicks_frame {date : DateParser}
    (api : Z -> Fetch) (clicked : list UISession) (st : State) :
  let st' := fst (clicks api clicked st) in
  rows st' = rows st /\ loading st' = loading st /\ error st' = error st /\
  visibleCols st' = visibleCols st /\ fromDate st' = fromDate st /\
  toDate st' = toDate st /\
  selected st' = List.last (map Some clicked) (selected st) /\
  filtered (rows st') (fromDate st') (toDate st')
  = filtered (rows st) (fromDate st) (toDate st).
Proof.
  cbv zeta. revert st. induction clicked as [|s rest IH]; intros st.
  - repeat split; reflexivity.
  - rewrite clicks_cons. cbn [fst].
    destruct (IH (settle api (onRowClick s st)))
      as (H1 & H2 & H3 & H4 & H5 & H6 & H7 & H8).
    destruct (settle_onRowClick_frame api s st) as (F1 & F2 & F3 & F4 & F5 & F6 & F7).
    rewrite H1, H2, H3, H4, H5, H6, H7, F1, F2, F3, F4, F5, F6, F7.
    repeat split; try reflexivity.
    cbn [map]. apply last_after.
Qed.

(** ** A range that hides every row, and the Clear button *)

(** X30. On a loaded page with rows, a range whose upper date is before its
    lower date makes the page draw the line for an empty table in place of
    the table; the Clear button then brings the table back with all the
    rows. *)
Theorem page_reversed_range_then_clear {date : DateParser} {locale : LocaleText}
    (st : State) (from to : string) (lower upper : Q) :
  loading st = false ->
  rows st <> [] ->
  getTime from = Fin lower ->
  getTime to = Fin upper ->
  from <> "" -> to <> "" ->
  upper < lower ->
  page (setToDate to (setFromDate from st)) = (errorLine (error st) ++ [EmptyLine])%list /\
  exists body : list (list Node),
    page (clearDates (setToDate to (setFromDate from st)))
    = (errorLine (error st) ++ [Table (headerRow (visibleCols st)) body])%list /\
    List.length body = List.length (rows st).
Proof.
  intros Hloaded Hrows Hl Hu Hf Ht Hrev.
  assert (Hnone : filtered (rows st) from to = []).
  { unfold filtered. apply emptyString_false in Hf, Ht. rewrite Hf, Ht, Hl, Hu.
    cbn [andb]. apply filter_none. intros r. unfold JS.ge.
    destruct (getTime (start_time (session r))) as [| |t|]; try reflexivity.
    apply andb_false_iff.
    destruct (JS.le (Fin lower) (Fin t)) eqn:E1; [right|left; reflexivity].
    apply le_Fin in E1. apply le_Fin_false. lra. }
  split.
  - unfold page.
    cbn [setToDate setFromDate rows loading error fromDate toDate visibleCols weatherById].
    rewrite Hnone, Hloaded. reflexivity.
  - unfold page, clearDates.
    cbn [setToDate setFromDate rows loading error fromDate toDate visibleCols weatherById].
    change (filtered (rows st) "" "") with (rows st). rewrite Hloaded.
    destruct (rows st) as [|r rs] eqn:E; [congruence|].
    cbn [shown noLength negb andb app].
    eexists. split; [reflexivity|]. apply length_map.
Qed.

Lemma page_reversed_range_then_clear_witness :
  (loading loadedFive = false /\ rows loadedFive <> [] /\
   @getTime isoDate "2024-03-10" = Fin (inject_Z 1710028800000) /\
   @getTime isoDate "2024-03-05" = Fin (inject_Z 1709596800000) /\
   "2024-03-10" <> "" /\ "2024-03-05" <> "" /\
   inject_Z 1709596800000 < inject_Z 1710028800000) /\
  @page isoDate plainLocale (setToDate "2024-03-05" (setFromDate "2024-03-10" loadedFive))
  = (errorLine (error loadedFive) ++ [EmptyLine])%list /\
  exists body : list (list Node),
    @page isoDate plainLocale
      (clearDates (setToDate "2024-03-05" (setFromDate "2024-03-10" loadedFive)))
    = (errorLine (error loadedFive) ++ [Table (headerRow (visibleCols loadedFive)) body])%list /\
    List.length body = List.length (rows loadedFive).
Proof.
  split; [repeat split; try reflexivity; discriminate|].
  apply (@page_reversed_range_then_clear isoDate plainLocale loadedFive
           "2024-03-10" "2024-03-05" (inject_Z 1710028800000) (inject_Z 1709596800000));
    try reflexivity; discriminate.
Defined.
